(** * The Live2D viewer session hook ([useLive2D]) and its capability extraction

    A shallow embedding of the hook [use-live2d.ts] of the [live2d-viewer]
    component ([src/unnamed/part_001]; line numbers below are its lines) and
    of [src/lib/live2d-config.ts].
    The two components that render the cells of the hook
    ([live2d-canvas.tsx], [live2d-sidebar.tsx]) are embedded as the data
    they render.

    - JavaScript numbers are IEEE 754 doubles: Rocq's primitive floats
      ([float], binary64, rounding to nearest even), whose operations are
      computed, not axiomatised; [Math.min] is [Math_min].
    - [undefined] is [None].
    - Objects that the hook shares by reference (the PIXI application, the
      abort controllers, the module promise, the pending animation frames)
      live in one [State]; every asynchronous continuation of the hook is a
      function on that state, fired by an [Event] of the environment. *)

From Stdlib Require Import List String Ascii Bool Arith Lia.
From Stdlib Require Import ZArith FloatClass PrimFloat DecimalString.
From Stdlib Require Import Permutation FinFun DecimalNat.
Import ListNotations.

Local Open Scope string_scope.
Local Open Scope nat_scope.

(* decimal literals stand for the nearest double, as in JavaScript *)
#[local] Set Warnings "-inexact-float".

(* ------------------------------------------------------------------ *)
(** ** Model catalogue ([live2d-config.ts]) *)

Inductive ModelName : Type :=
  Haru | Hiyori | Mao | Mark | Natori | Ren | Rice | Wanko.

Definition MODEL_NAMES : list ModelName :=
  [Haru; Hiyori; Mao; Mark; Natori; Ren; Rice; Wanko].

(** The string a [ModelName] is at run time. *)
Definition ModelName_string (n : ModelName) : string :=
  match n with
  | Haru => "Haru" | Hiyori => "Hiyori" | Mao => "Mao" | Mark => "Mark"
  | Natori => "Natori" | Ren => "Ren" | Rice => "Rice" | Wanko => "Wanko"
  end.

Definition ModelName_eqb (a b : ModelName) : bool :=
  String.eqb (ModelName_string a) (ModelName_string b).

Definition getModelPath (name : ModelName) : string :=
  "/live2d/" ++ ModelName_string name ++ "/" ++ ModelName_string name
  ++ ".model3.json".

Definition DEFAULT_MODEL : ModelName := Haru.

(* ------------------------------------------------------------------ *)
(** ** JavaScript numbers *)

(** [Math.min(a, b)]: [NaN] when an argument is [NaN]; [-0] is smaller than
    [+0]. *)
Definition Math_min (a b : float) : float :=
  if (PrimFloat.is_nan a || PrimFloat.is_nan b)%bool then nan
  else if (a <? b)%float then a
  else if (b <? a)%float then b
  else match PrimFloat.classify a with
       | NZero => a
       | _ => b
       end.

(* ------------------------------------------------------------------ *)
(** ** Types of [use-live2d.ts] *)

Record MotionEntry : Type := mkMotionEntry {
  group : string;
  name : string;
  index : nat
}.

(** One element of [Live2DSettings.expressions]: [{ Name?: string; name?: string }]. *)
Module Expr.
Record t : Type := mk { Name : option string; name : option string }.
End Expr.

(** An item of a motion group.  The hook never looks inside one
    ([unknown[]] in the source); the raw text of the item stands for it. *)
Definition unknown : Type := string.

(** [Live2DSettings].  [motions] is a [Record<string, unknown[]>]; it is kept
    as the list of its entries in the order [Object.entries] enumerates
    them. *)
Module Settings.
Record t : Type := mk {
  expressions : option (list Expr.t);
  motions : option (list (string * list unknown))
}.
End Settings.

Record InternalModel : Type := mkInternalModel {
  settings : option Settings.t
}.

(** [Live2DModelHandle].  [hid] is the identity of the JavaScript object.
    [internalWidth] and [internalHeight] are the intrinsic size of the loaded
    model; what the [width] and [height] properties of the hook's narrow
    interface read is decided by the rendering library and is a parameter of
    the development below. *)
Record Live2DModelHandle : Type := mkHandle {
  hid : nat;
  internalWidth : float;
  internalHeight : float;
  scale : float;
  x : float;
  y : float;
  internalModel : option InternalModel
}.

(* ------------------------------------------------------------------ *)
(** ** Capability extraction (the body of [loadLive2DModel], lines 152-169) *)

(** JavaScript [Boolean(v)] for [v : string | undefined]. *)
Definition Boolean (v : option string) : bool :=
  match v with
  | Some s => negb (String.eqb s "")
  | None => false
  end.

(** JavaScript [a || b]. *)
Definition js_or (a b : option string) : option string :=
  if Boolean a then a else b.

(** The cast of the type guard [(n): n is string] after [filter]. *)
Fixpoint as_strings (l : list (option string)) : list string :=
  match l with
  | [] => []
  | Some s :: r => s :: as_strings r
  | None :: r => as_strings r
  end.

(** [model.internalModel?.settings] *)
Definition settings_of (model : Live2DModelHandle) : option Settings.t :=
  match internalModel model with
  | Some im => settings im
  | None => None
  end.

(** [(settings?.expressions ?? []).map((e) => e.Name || e.name).filter(Boolean)] *)
Definition extractExpressions (st : option Settings.t) : list string :=
  let es := match st with
            | Some s => match Settings.expressions s with
                        | Some l => l
                        | None => []
                        end
            | None => []
            end in
  as_strings
    (filter Boolean (map (fun e => js_or (Expr.Name e) (Expr.name e)) es)).

(** [String(n)] for a natural number. *)
Definition string_of_nat (n : nat) : string :=
  NilEmpty.string_of_uint (Nat.to_uint n).

(** The template literal [`${group} #${index + 1}`]. *)
Definition motion_label (group : string) (index : nat) : string :=
  group ++ " #" ++ string_of_nat (index + 1).

Definition push {A : Type} (l : list A) (a : A) : list A := l ++ [a].

(** [items.forEach((_, index) => entries.push({ group, name, index }))],
    started at [index]. *)
Fixpoint forEach_push (group : string) (items : list unknown) (index : nat)
    (entries : list MotionEntry) : list MotionEntry :=
  match items with
  | [] => entries
  | _ :: rest =>
      forEach_push group rest (S index)
        (push entries (mkMotionEntry group (motion_label group index) index))
  end.

(** The loop over [Object.entries(settings.motions)], from [entries = []]. *)
Definition extractMotions (st : option Settings.t) : list MotionEntry :=
  match st with
  | Some s =>
      match Settings.motions s with
      | Some ms =>
          fold_left
            (fun entries gi => forEach_push (fst gi) (snd gi) 0 entries)
            ms []
      | None => []
      end
  | None => []
  end.

(** *** The extractor as the specification words it

    The name of an expression entry: the canonical field when it holds a
    name, else the alternate one. *)
Definition spec_expression_name (e : Expr.t) : option string :=
  match Expr.Name e with
  | Some s => if String.eqb s "" then Expr.name e else Some s
  | None => Expr.name e
  end.

(** An entry carries a name when one of its two fields holds a non-empty
    string. *)
Definition carries_name (e : Expr.t) : Prop :=
  Boolean (Expr.Name e) = true \/ Boolean (Expr.name e) = true.

(** One entry per item of each group, in order, with a 0-based index. *)
Definition spec_group_entries (gi : string * list unknown) : list MotionEntry :=
  map (fun i => mkMotionEntry (fst gi) (motion_label (fst gi) i) i)
      (seq 0 (List.length (snd gi))).

Definition spec_motion_entries (ms : list (string * list unknown))
  : list MotionEntry :=
  flat_map spec_group_entries ms.

(* ------------------------------------------------------------------ *)
(** ** The objects the hook works on *)

(** [PixiApp], the one application object [createPixiApp] constructs.
    [stage] is the list of children of [app.stage]; [destroy_calls] counts the
    calls of [app.destroy(true)]. *)
Record PixiApp : Type := mkPixiApp {
  screen_width : float;
  screen_height : float;
  stage : list Live2DModelHandle;
  destroy_calls : nat
}.

(** A call of a method of a [Live2DModelHandle] whose effect is the
    library's own; the hook's calls are recorded in the order they are made. *)
Inductive HandleCall : Type :=
| Destroy
| Focus (fx fy : float)
| Tap (tx ty : float)
| Expression (ename : string)
| Motion (mgroup : string) (mindex : nat).

(** The promise cached in the module-level variable [live2dModule]. *)
Inductive ModulePromise : Type := Pending | Fulfilled | Rejected.

(** Where a run of [loadLive2DModel] is suspended. *)
Inductive LoadPhase : Type :=
| AwaitModule                  (* await getLive2DModule() *)
| AwaitModel (path : string).  (* await Live2DModel.from(path, ...) *)

(** A suspended run of [loadLive2DModel]; [signal] names the
    [AbortController] of the effect run that started it. *)
Record Load : Type := mkLoad {
  signal : nat;
  modelName : ModelName;
  phase : LoadPhase
}.

Record MouseEvent : Type := mkMouseEvent { clientX : float; clientY : float }.

(** The part of [container.getBoundingClientRect()] that is read. *)
Record DOMRect : Type := mkDOMRect { left : float; top : float }.

(** The closure passed to [requestAnimationFrame]: it captures the event and
    the handle read when the event arrived. *)
Record FrameCallback : Type := mkFrameCallback {
  cb_event : MouseEvent;
  cb_model : Live2DModelHandle
}.

(** The [useState] cells of the hook. *)
Record Session : Type := mkSession {
  selectedModel : ModelName;
  appReady : bool;
  isLoading : bool;
  error : option string;
  expressions : list string;
  motions : list MotionEntry
}.

Record State : Type := mkState {
  session : Session;
  mounted : bool;
  (* the mount effect *)
  app : PixiApp;
  appPending : bool;          (* createPixiApp has not settled yet *)
  mountAborted : bool;        (* abort.signal.aborted of the mount effect *)
  pixiAppRef : bool;          (* pixiAppRef.current holds [app] *)
  (* the load effect *)
  live2dModule : option ModulePromise;
  live2dModelRef : option Live2DModelHandle;
  loads : list Load;
  abortedSignals : list nat;  (* controllers whose signal is aborted *)
  nextSignal : nat;           (* the next controller to be constructed *)
  loadCleanup : option nat;   (* controller held by the effect's cleanup *)
  (* the pointer effect *)
  listening : bool;
  rafIdRef : nat;
  rafQueue : list (nat * FrameCallback);
  nextRafId : nat;
  (* calls made on handles, oldest first *)
  calls : list (nat * HandleCall)
}.

(** *** Field updates *)

Definition set_session (v : Session) (s : State) : State :=
  mkState v (mounted s) (app s) (appPending s) (mountAborted s) (pixiAppRef s)
    (live2dModule s) (live2dModelRef s) (loads s) (abortedSignals s)
    (nextSignal s) (loadCleanup s) (listening s) (rafIdRef s) (rafQueue s)
    (nextRafId s) (calls s).
Definition set_mounted (v : bool) (s : State) : State :=
  mkState (session s) v (app s) (appPending s) (mountAborted s) (pixiAppRef s)
    (live2dModule s) (live2dModelRef s) (loads s) (abortedSignals s)
    (nextSignal s) (loadCleanup s) (listening s) (rafIdRef s) (rafQueue s)
    (nextRafId s) (calls s).
Definition set_app (v : PixiApp) (s : State) : State :=
  mkState (session s) (mounted s) v (appPending s) (mountAborted s)
    (pixiAppRef s) (live2dModule s) (live2dModelRef s) (loads s)
    (abortedSignals s) (nextSignal s) (loadCleanup s) (listening s)
    (rafIdRef s) (rafQueue s) (nextRafId s) (calls s).
Definition set_appPending (v : bool) (s : State) : State :=
  mkState (session s) (mounted s) (app s) v (mountAborted s) (pixiAppRef s)
    (live2dModule s) (live2dModelRef s) (loads s) (abortedSignals s)
    (nextSignal s) (loadCleanup s) (listening s) (rafIdRef s) (rafQueue s)
    (nextRafId s) (calls s).
Definition set_mountAborted (v : bool) (s : State) : State :=
  mkState (session s) (mounted s) (app s) (appPending s) v (pixiAppRef s)
    (live2dModule s) (live2dModelRef s) (loads s) (abortedSignals s)
    (nextSignal s) (loadCleanup s) (listening s) (rafIdRef s) (rafQueue s)
    (nextRafId s) (calls s).
Definition set_pixiAppRef (v : bool) (s : State) : State :=
  mkState (session s) (mounted s) (app s) (appPending s) (mountAborted s) v
    (live2dModule s) (live2dModelRef s) (loads s) (abortedSignals s)
    (nextSignal s) (loadCleanup s) (listening s) (rafIdRef s) (rafQueue s)
    (nextRafId s) (calls s).
Definition set_live2dModule (v : option ModulePromise) (s : State) : State :=
  mkState (session s) (mounted s) (app s) (appPending s) (mountAborted s)
    (pixiAppRef s) v (live2dModelRef s) (loads s) (abortedSignals s)
    (nextSignal s) (loadCleanup s) (listening s) (rafIdRef s) (rafQueue s)
    (nextRafId s) (calls s).
Definition set_live2dModelRef (v : option Live2DModelHandle) (s : State)
  : State :=
  mkState (session s) (mounted s) (app s) (appPending s) (mountAborted s)
    (pixiAppRef s) (live2dModule s) v (loads s) (abortedSignals s)
    (nextSignal s) (loadCleanup s) (listening s) (rafIdRef s) (rafQueue s)
    (nextRafId s) (calls s).
Definition set_loads (v : list Load) (s : State) : State :=
  mkState (session s) (mounted s) (app s) (appPending s) (mountAborted s)
    (pixiAppRef s) (live2dModule s) (live2dModelRef s) v (abortedSignals s)
    (nextSignal s) (loadCleanup s) (listening s) (rafIdRef s) (rafQueue s)
    (nextRafId s) (calls s).
Definition set_abortedSignals (v : list nat) (s : State) : State :=
  mkState (session s) (mounted s) (app s) (appPending s) (mountAborted s)
    (pixiAppRef s) (live2dModule s) (live2dModelRef s) (loads s) v
    (nextSignal s) (loadCleanup s) (listening s) (rafIdRef s) (rafQueue s)
    (nextRafId s) (calls s).
Definition set_nextSignal (v : nat) (s : State) : State :=
  mkState (session s) (mounted s) (app s) (appPending s) (mountAborted s)
    (pixiAppRef s) (live2dModule s) (live2dModelRef s) (loads s)
    (abortedSignals s) v (loadCleanup s) (listening s) (rafIdRef s)
    (rafQueue s) (nextRafId s) (calls s).
Definition set_loadCleanup (v : option nat) (s : State) : State :=
  mkState (session s) (mounted s) (app s) (appPending s) (mountAborted s)
    (pixiAppRef s) (live2dModule s) (live2dModelRef s) (loads s)
    (abortedSignals s) (nextSignal s) v (listening s) (rafIdRef s)
    (rafQueue s) (nextRafId s) (calls s).
Definition set_listening (v : bool) (s : State) : State :=
  mkState (session s) (mounted s) (app s) (appPending s) (mountAborted s)
    (pixiAppRef s) (live2dModule s) (live2dModelRef s) (loads s)
    (abortedSignals s) (nextSignal s) (loadCleanup s) v (rafIdRef s)
    (rafQueue s) (nextRafId s) (calls s).
Definition set_rafIdRef (v : nat) (s : State) : State :=
  mkState (session s) (mounted s) (app s) (appPending s) (mountAborted s)
    (pixiAppRef s) (live2dModule s) (live2dModelRef s) (loads s)
    (abortedSignals s) (nextSignal s) (loadCleanup s) (listening s) v
    (rafQueue s) (nextRafId s) (calls s).
Definition set_rafQueue (v : list (nat * FrameCallback)) (s : State) : State :=
  mkState (session s) (mounted s) (app s) (appPending s) (mountAborted s)
    (pixiAppRef s) (live2dModule s) (live2dModelRef s) (loads s)
    (abortedSignals s) (nextSignal s) (loadCleanup s) (listening s)
    (rafIdRef s) v (nextRafId s) (calls s).
Definition set_nextRafId (v : nat) (s : State) : State :=
  mkState (session s) (mounted s) (app s) (appPending s) (mountAborted s)
    (pixiAppRef s) (live2dModule s) (live2dModelRef s) (loads s)
    (abortedSignals s) (nextSignal s) (loadCleanup s) (listening s)
    (rafIdRef s) (rafQueue s) v (calls s).
Definition set_calls (v : list (nat * HandleCall)) (s : State) : State :=
  mkState (session s) (mounted s) (app s) (appPending s) (mountAborted s)
    (pixiAppRef s) (live2dModule s) (live2dModelRef s) (loads s)
    (abortedSignals s) (nextSignal s) (loadCleanup s) (listening s)
    (rafIdRef s) (rafQueue s) (nextRafId s) v.

(** The setters [useState] returns. *)
Definition setSelectedModel (v : ModelName) (s : State) : State :=
  let c := session s in
  set_session (mkSession v (appReady c) (isLoading c) (error c)
                 (expressions c) (motions c)) s.
Definition setAppReady (v : bool) (s : State) : State :=
  let c := session s in
  set_session (mkSession (selectedModel c) v (isLoading c) (error c)
                 (expressions c) (motions c)) s.
Definition setIsLoading (v : bool) (s : State) : State :=
  let c := session s in
  set_session (mkSession (selectedModel c) (appReady c) v (error c)
                 (expressions c) (motions c)) s.
Definition setError (v : option string) (s : State) : State :=
  let c := session s in
  set_session (mkSession (selectedModel c) (appReady c) (isLoading c) v
                 (expressions c) (motions c)) s.
Definition setExpressions (v : list string) (s : State) : State :=
  let c := session s in
  set_session (mkSession (selectedModel c) (appReady c) (isLoading c)
                 (error c) v (motions c)) s.
Definition setMotions (v : list MotionEntry) (s : State) : State :=
  let c := session s in
  set_session (mkSession (selectedModel c) (appReady c) (isLoading c)
                 (error c) (expressions c) v) s.

(** Updates of the handle's own properties. *)
Definition scale_set (v : float) (m : Live2DModelHandle) : Live2DModelHandle :=
  mkHandle (hid m) (internalWidth m) (internalHeight m) v (x m) (y m)
    (internalModel m).
Definition set_x (v : float) (m : Live2DModelHandle) : Live2DModelHandle :=
  mkHandle (hid m) (internalWidth m) (internalHeight m) (scale m) v (y m)
    (internalModel m).
Definition set_y (v : float) (m : Live2DModelHandle) : Live2DModelHandle :=
  mkHandle (hid m) (internalWidth m) (internalHeight m) (scale m) (x m) v
    (internalModel m).

(** Two readings of the [width] and [height] properties of a handle.  A PIXI
    display object reports its size on screen, the intrinsic size times the
    current scale; a plain record would report a fixed number. *)
Definition display_width (m : Live2DModelHandle) : float :=
  (scale m * internalWidth m)%float.
Definition display_height (m : Live2DModelHandle) : float :=
  (scale m * internalHeight m)%float.
Definition fixed_width (m : Live2DModelHandle) : float := internalWidth m.
Definition fixed_height (m : Live2DModelHandle) : float := internalHeight m.

(** *** The stage, the abort controllers, the handle calls *)

(** [app.stage.removeChild(child)]: the child is found by identity. *)
Fixpoint removeChild (child : Live2DModelHandle)
    (children : list Live2DModelHandle) : list Live2DModelHandle :=
  match children with
  | [] => []
  | c :: r => if hid c =? hid child then r else c :: removeChild child r
  end.

Definition stage_removeChild (child : Live2DModelHandle) (s : State) : State :=
  let a := app s in
  set_app (mkPixiApp (screen_width a) (screen_height a)
             (removeChild child (stage a)) (destroy_calls a)) s.

(** [app.stage.addChild(child)] *)
Definition stage_addChild (child : Live2DModelHandle) (s : State) : State :=
  let a := app s in
  set_app (mkPixiApp (screen_width a) (screen_height a)
             (push (stage a) child) (destroy_calls a)) s.

(** [app.destroy(true)] *)
Definition app_destroy (s : State) : State :=
  let a := app s in
  set_app (mkPixiApp (screen_width a) (screen_height a) (stage a)
             (S (destroy_calls a))) s.

(** [signal.aborted] *)
Definition aborted (sig : nat) (s : State) : bool :=
  existsb (Nat.eqb sig) (abortedSignals s).

(** [abort.abort()]; aborting an aborted controller does nothing. *)
Definition abort (sig : nat) (s : State) : State :=
  if aborted sig s then s
  else set_abortedSignals (sig :: abortedSignals s) s.

(** A method call on a handle. *)
Definition call (m : Live2DModelHandle) (c : HandleCall) (s : State) : State :=
  set_calls (push (calls s) (hid m, c)) s.

Definition find_load (sig : nat) (s : State) : option Load :=
  find (fun l => signal l =? sig) (loads s).

(** The run of [loadLive2DModel] with this signal returns or moves on. *)
Definition remove_load (sig : nat) (s : State) : State :=
  set_loads (filter (fun l => negb (signal l =? sig)) (loads s)) s.

(** The double quote character. *)
Definition dquote : string := String "034"%char EmptyString.

(** The argument of [setError] in the [catch] block of [loadLive2DModel]. *)
Definition load_error_message (modelName : ModelName) : string :=
  "Failed to load " ++ dquote ++ ModelName_string modelName ++ dquote
  ++ ". The model may require a newer Cubism SDK version.".

(** The character [c] occurs in [s]. *)
Fixpoint occurs (c : ascii) (s : string) : Prop :=
  match s with
  | EmptyString => False
  | String a r => a = c \/ occurs c r
  end.

(** *** Sample data *)

(** A 400 x 800 model as the loader returns it, whose settings have neither
    an [expressions] nor a [motions] field. *)
Definition sample_handle : Live2DModelHandle :=
  mkHandle 1 400 800 1 0 0 (Some (mkInternalModel (Some (Settings.mk None None)))).

Definition sample_expressions : list Expr.t :=
  [Expr.mk (Some "smile") None; Expr.mk None (Some "angry");
   Expr.mk (Some "") (Some "sad"); Expr.mk (Some "smile") (Some "other")].

Definition sample_motions : list (string * list unknown) :=
  [("Idle", ["a"; "b"]); ("TapBody", ["c"])].

(* ------------------------------------------------------------------ *)
(** ** The hook [useLive2D] *)

Section UseLive2D.

(** What the [width] and [height] properties of a handle read.  They are
    accessors of the object [Live2DModel.from] returns; the hook's narrow
    interface only gives their type, and the hook reads them both before and
    after [model.scale.set].  The development is parametric in them; a
    property that depends on what they read says so in its statement. *)
Variables width height : Live2DModelHandle -> float.

(** [loadLive2DModel], "Scale & center" (lines 142-147).  [width] and
    [height] are read again after [model.scale.set]. *)
Definition scaleAndCenter (a : PixiApp) (model : Live2DModelHandle)
  : Live2DModelHandle :=
  let scaleX := (screen_width a / width model)%float in
  let scaleY := (screen_height a / height model)%float in
  let model := scale_set (Math_min scaleX scaleY * 0.8)%float model in
  let model := set_x ((screen_width a - width model) / 2)%float model in
  let model := set_y ((screen_height a - height model) / 2)%float model in
  model.

(** The same step of [loadModel] in the first version of the viewer (the
    [live2d-model] component, third part of [src/app/page.tsx], lines 83-89):
    the size read after [scale.set] is multiplied by the scale once more. *)
Definition loadModel_scaleAndCenter (a : PixiApp) (model : Live2DModelHandle)
  : Live2DModelHandle :=
  let scaleX := (screen_width a / width model)%float in
  let scaleY := (screen_height a / height model)%float in
  let scale := (Math_min scaleX scaleY * 0.8)%float in
  let model := scale_set scale model in
  let model := set_x ((screen_width a - width model * scale) / 2)%float model in
  let model := set_y ((screen_height a - height model * scale) / 2)%float model in
  model.

(** [live2dModule ??= import("pixi-live2d-display/cubism4")] *)
Definition getLive2DModule (s : State) : State :=
  match live2dModule s with
  | None => set_live2dModule (Some Pending) s
  | Some _ => s
  end.

(** [loadLive2DModel] up to its first [await] (lines 119-130). *)
Definition loadLive2DModel (modelName : ModelName) (sig : nat) (s : State)
  : State :=
  let s := setIsLoading true s in
  let s := setError None s in
  let s := match live2dModelRef s with
           | Some m =>
               set_live2dModelRef None
                 (call m Destroy (stage_removeChild m s))
           | None => s
           end in
  let s := getLive2DModule s in
  set_loads (push (loads s) (mkLoad sig modelName AwaitModule)) s.

(** The [catch] block and the [setIsLoading(false)] after it
    (lines 170-179). *)
Definition loadLive2DModel_catch (l : Load) (s : State) : State :=
  if aborted (signal l) s then s
  else
    let s := setExpressions [] s in
    let s := setMotions [] s in
    let s := setError (Some (load_error_message (modelName l))) s in
    setIsLoading false s.

Definition set_phase (sig : nat) (ph : LoadPhase) (ls : list Load)
  : list Load :=
  map (fun l => if signal l =? sig then mkLoad (signal l) (modelName l) ph
                else l) ls.

(** The run resumes after [await getLive2DModule()] (lines 130-136). *)
Definition loadLive2DModel_afterModule (l : Load) (s : State) : State :=
  match live2dModule s with
  | Some Fulfilled =>
      if aborted (signal l) s then remove_load (signal l) s
      else
        set_loads
          (set_phase (signal l) (AwaitModel (getModelPath (modelName l)))
             (loads s)) s
  | Some Rejected => loadLive2DModel_catch l (remove_load (signal l) s)
  | _ => s
  end.

(** The run resumes after [await Live2DModel.from(...)] (lines 137-179);
    [r = None] is a rejection. *)
Definition loadLive2DModel_afterModel (l : Load)
    (r : option Live2DModelHandle) (s : State) : State :=
  let s := remove_load (signal l) s in
  match r with
  | None => loadLive2DModel_catch l s
  | Some model =>
      if aborted (signal l) s then call model Destroy s
      else
        let model := scaleAndCenter (app s) model in
        let s := stage_addChild model s in
        let s := set_live2dModelRef (Some model) s in
        let st := settings_of model in
        let s := setExpressions (extractExpressions st) s in
        let s := setMotions (extractMotions st) s in
        setIsLoading false s
  end.

(** The cleanup the load effect returned last: [() => abort.abort()]. *)
Definition loadEffect_cleanup (s : State) : State :=
  match loadCleanup s with
  | Some sig => abort sig s
  | None => s
  end.

(** A run of the load effect (lines 217-223), after the cleanup of the
    previous run. *)
Definition loadEffect (s : State) : State :=
  let s := loadEffect_cleanup s in
  if appReady (session s) && pixiAppRef s then
    let sig := nextSignal s in
    let s := set_nextSignal (S sig) s in
    let s := loadLive2DModel (selectedModel (session s)) sig s in
    set_loadCleanup (Some sig) s
  else set_loadCleanup None s.

(** The dependency list [[appReady, selectedModel, loadLive2DModel]];
    [loadLive2DModel] is a [useCallback] with no dependencies and never
    changes. *)
Definition deps_changed (before after : Session) : bool :=
  negb (Bool.eqb (appReady before) (appReady after)
        && ModelName_eqb (selectedModel before) (selectedModel after)).

(** A state update is rendered: the load effect runs again when one of its
    dependencies changed. *)
Definition render (before after : State) : State :=
  if mounted after && deps_changed (session before) (session after)
  then loadEffect after
  else after.

(** [createPixiApp(container)] settles (lines 192-206). *)
Definition createPixiApp_fulfilled (W H : float) (s : State) : State :=
  let s0 := set_app (mkPixiApp W H [] 0) s in
  if mountAborted s0 then app_destroy s0
  else render s0 (setAppReady true (set_pixiAppRef true s0)).

Definition createPixiApp_rejected (s : State) : State :=
  if mountAborted s then s
  else
    setIsLoading false
      (setError (Some "Failed to initialize rendering engine.") s).

(** The cleanup of the mount effect (lines 208-212). *)
Definition mountEffect_cleanup (s : State) : State :=
  let s := set_mountAborted true s in
  let s := if pixiAppRef s then app_destroy s else s in
  set_pixiAppRef false s.

(** *** Pointer wiring (lines 227-255) *)

Definition cancelAnimationFrame (id : nat) (s : State) : State :=
  set_rafQueue (filter (fun p => negb (fst p =? id)) (rafQueue s)) s.

Definition requestAnimationFrame (cb : FrameCallback) (s : State)
  : nat * State :=
  let id := nextRafId s in
  (id, set_nextRafId (S id) (set_rafQueue (push (rafQueue s) (id, cb)) s)).

Definition handleMouseMove (e : MouseEvent) (s : State) : State :=
  match live2dModelRef s with
  | None => s
  | Some model =>
      let s := cancelAnimationFrame (rafIdRef s) s in
      let r := requestAnimationFrame (mkFrameCallback e model) s in
      set_rafIdRef (fst r) (snd r)
  end.

Definition handleClick (e : MouseEvent) (rect : DOMRect) (s : State) : State :=
  match live2dModelRef s with
  | None => s
  | Some model =>
      call model
        (Tap (clientX e - left rect)%float (clientY e - top rect)%float) s
  end.

(** The body of the closure given to [requestAnimationFrame]. *)
Definition frameCallback (rect : DOMRect) (cb : FrameCallback) (s : State)
  : State :=
  call (cb_model cb)
    (Focus (clientX (cb_event cb) - left rect)%float
           (clientY (cb_event cb) - top rect)%float) s.

(** A frame boundary: the browser runs the callbacks requested and not
    cancelled since the last one. *)
Definition animationFrame (rect : DOMRect) (s : State) : State :=
  fold_left (fun s p => frameCallback rect (snd p) s) (rafQueue s)
    (set_rafQueue [] s).

Definition pointerEffect_cleanup (s : State) : State :=
  set_listening false (cancelAnimationFrame (rafIdRef s) s).

(** *** Actions *)

Definition playExpression (name : string) (s : State) : State :=
  match live2dModelRef s with
  | Some m => call m (Expression name) s
  | None => s
  end.

Definition playMotion (group : string) (index : nat) (s : State) : State :=
  match live2dModelRef s with
  | Some m => call m (Motion group index) s
  | None => s
  end.

(** The three cleanups the hook registers, in the order of their effects. *)
Definition teardown (s : State) : State :=
  pointerEffect_cleanup (loadEffect_cleanup (mountEffect_cleanup s)).

(** *** The environment *)

Inductive Event : Type :=
| AppCreated (screen : option (float * float))   (* createPixiApp settles *)
| Resize (W H : float)                       (* the container is resized *)
| SelectModel (name : ModelName)         (* setSelectedModel(name) *)
| ModuleSettled (ok : bool)              (* the dynamic import settles *)
| ModuleAwaited (sig : nat)              (* a run resumes after the import *)
| ModelSettled (sig : nat) (r : option Live2DModelHandle)
| MouseMove (e : MouseEvent)
| Click (e : MouseEvent) (rect : DOMRect)
| AnimationFrame (rect : DOMRect)
| PlayExpression (name : string)
| PlayMotion (group : string) (index : nat)
| Unmount.

Definition step (ev : Event) (s : State) : State :=
  match ev with
  | AppCreated r =>
      if appPending s then
        match r with
        | Some (W, H) => createPixiApp_fulfilled W H (set_appPending false s)
        | None => createPixiApp_rejected (set_appPending false s)
        end
      else s
  | Resize W H =>
      let a := app s in
      set_app (mkPixiApp W H (stage a) (destroy_calls a)) s
  | SelectModel name =>
      if mounted s then render s (setSelectedModel name s) else s
  | ModuleSettled ok =>
      match live2dModule s with
      | Some Pending =>
          set_live2dModule (Some (if ok then Fulfilled else Rejected)) s
      | _ => s
      end
  | ModuleAwaited sig =>
      match find_load sig s with
      | Some l =>
          match phase l with
          | AwaitModule => loadLive2DModel_afterModule l s
          | AwaitModel _ => s
          end
      | None => s
      end
  | ModelSettled sig r =>
      match find_load sig s with
      | Some l =>
          match phase l with
          | AwaitModel _ => loadLive2DModel_afterModel l r s
          | AwaitModule => s
          end
      | None => s
      end
  | MouseMove e => if listening s then handleMouseMove e s else s
  | Click e rect => if listening s then handleClick e rect s else s
  | AnimationFrame rect => animationFrame rect s
  | PlayExpression name => playExpression name s
  | PlayMotion group index => playMotion group index s
  | Unmount => if mounted s then set_mounted false (teardown s) else s
  end.

(** The hook after its first render and the first run of its effects:
    [createPixiApp] is in flight, the load effect returned early
    ([appReady] is false), the pointer listeners are registered. *)
Definition init : State :=
  mkState (mkSession DEFAULT_MODEL false true None [] [])
    true (mkPixiApp 0 0 [] 0) true false false
    None None [] [] 0 None
    true 0 [] 1 [].

Definition run (evs : list Event) (s : State) : State :=
  fold_left (fun s ev => step ev s) evs s.

(** *** Sample runs

    The application is created on an 800 x 600 container, the import is
    fulfilled and the first run of [loadLive2DModel] waits for the model. *)
Definition sample_boot : list Event :=
  [AppCreated (Some (800%float, 600%float)); ModuleSettled true; ModuleAwaited 0].

(** ... and the model arrives. *)
Definition sample_loaded : list Event :=
  [AppCreated (Some (800%float, 600%float)); ModuleSettled true; ModuleAwaited 0;
   ModelSettled 0 (Some sample_handle)].

(** ... or another model is selected before it arrives. *)
Definition sample_superseded : list Event :=
  [AppCreated (Some (800%float, 600%float)); ModuleSettled true; ModuleAwaited 0;
   SelectModel Hiyori].

(** The handle [sample_loaded] attaches. *)
Definition sample_attached : Live2DModelHandle :=
  scaleAndCenter (mkPixiApp 800 600 [] 0) sample_handle.

(** The run of [loadLive2DModel] that [sample_boot] leaves suspended. *)
Definition sample_load : Load :=
  mkLoad 0 Haru (AwaitModel (getModelPath Haru)).

(** *** Predicates used to state the properties *)

(** [part] occurs in [msg]. *)
Definition contains (msg part : string) : Prop :=
  exists pre suf, msg = pre ++ part ++ suf.

Definition ref_list (r : option Live2DModelHandle) : list Live2DModelHandle :=
  match r with
  | Some m => [m]
  | None => []
  end.

(** What every state the hook can be in satisfies. *)
Record Inv (s : State) : Prop := mkInv {
  (* the stage holds the handle of [live2dModelRef], and nothing else *)
  inv_stage : stage (app s) = ref_list (live2dModelRef s);
  (* a run whose signal is not aborted belongs to the last run of the load
     effect, and nothing is attached while it is suspended *)
  inv_live : forall l, In l (loads s) -> aborted (signal l) s = false ->
             live2dModelRef s = None /\ loadCleanup s = Some (signal l);
  inv_nodup : NoDup (map signal (loads s));
  inv_load_fresh : forall l, In l (loads s) -> signal l < nextSignal s;
  inv_cleanup_fresh :
    forall sig, loadCleanup s = Some sig -> sig < nextSignal s;
  inv_aborted_fresh :
    forall sig, In sig (abortedSignals s) -> sig < nextSignal s;
  inv_pending : appPending s = true ->
                live2dModelRef s = None /\ loads s = [] /\
                loadCleanup s = None /\ appReady (session s) = false /\
                pixiAppRef s = false;
  inv_cleanup_live :
    forall sig, loadCleanup s = Some sig -> aborted sig s = false ->
    mounted s = true /\ appReady (session s) = true /\ pixiAppRef s = true;
  inv_unmounted : mounted s = false -> mountAborted s = true;
  inv_model_phase :
    forall l p, In l (loads s) -> phase l = AwaitModel p ->
    live2dModule s = Some Fulfilled;
  inv_destroy : destroy_calls (app s) <= 1 /\
                (pixiAppRef s = true -> destroy_calls (app s) = 0);
  (* at most one frame callback is pending, the one [rafIdRef] names *)
  inv_raf : forall p, In p (rafQueue s) -> fst p = rafIdRef s;
  inv_raf_len : List.length (rafQueue s) <= 1;
  inv_raf_fresh : rafIdRef s < nextRafId s
}.

(** Between [before] and [after] a run of [loadLive2DModel] for [name] was
    started: the session is loading with no error, and a run for [name] that
    was not there before is suspended, its signal not aborted. *)
Definition load_started (name : ModelName) (before after : State) : Prop :=
  isLoading (session after) = true
  /\ error (session after) = None
  /\ exists l, In l (loads after)
               /\ ~ In (signal l) (map signal (loads before))
               /\ modelName l = name
               /\ aborted (signal l) after = false.

(** The event [ev] resumes the run [l] with a rejection: while the run waits
    for the model, [Live2DModel.from] rejects; while it waits for the import,
    it resumes and the import is rejected.  Both awaits are in the one [try]
    block of [loadLive2DModel] (lines 129-136). *)
Definition load_rejects (sig : nat) (l : Load) (s : State) (ev : Event)
  : Prop :=
  match phase l with
  | AwaitModule => live2dModule s = Some Rejected /\ ev = ModuleAwaited sig
  | AwaitModel _ => ev = ModelSettled sig None
  end.

(** The events of a frame window that the user makes on the component:
    pointer moves, clicks, and the two actions of the sidebar. *)
Definition is_interaction (ev : Event) : bool :=
  match ev with
  | MouseMove _ | Click _ _ | PlayExpression _ | PlayMotion _ _ => true
  | _ => false
  end.

Definition is_move (ev : Event) : bool :=
  match ev with
  | MouseMove _ => true
  | _ => false
  end.

(** *** What the cells show, and the handles the loader delivered *)

(** What every state of the hook satisfies, whatever the signals are. *)
Record Inv2core (s : State) : Prop := mkInv2core {
  (* a run that waits for the model asked for the catalogue path of its
     model *)
  j_path : forall l p, In l (loads s) -> phase l = AwaitModel p ->
           p = getModelPath (modelName l);
  (* while a handle is attached the cells describe it *)
  j_attached : forall m, live2dModelRef s = Some m ->
               isLoading (session s) = false
               /\ error (session s) = None
               /\ expressions (session s) = extractExpressions (settings_of m)
               /\ motions (session s) = extractMotions (settings_of m);
  j_error : forall msg, error (session s) = Some msg ->
            isLoading (session s) = false;
  j_not_ready : appReady (session s) = false ->
                loads s = [] /\ live2dModelRef s = None
                /\ pixiAppRef s = false;
  j_surface : appReady (session s) = true ->
              if mounted s
              then pixiAppRef s = true /\ destroy_calls (app s) = 0
              else pixiAppRef s = false /\ destroy_calls (app s) = 1;
  j_unmounted : mounted s = false -> listening s = false /\ rafQueue s = [];
  j_mounted : mounted s = true -> mountAborted s = false
}.

Record Inv2 (s : State) : Prop := mkInv2 {
  j_core : Inv2core s;
  (* a run whose signal is not aborted loads the selected model *)
  j_selected : forall l, In l (loads s) -> aborted (signal l) s = false ->
               modelName l = selectedModel (session s);
  j_loading : forall l, In l (loads s) -> aborted (signal l) s = false ->
              isLoading (session s) = true /\ error (session s) = None
}.

(** The fields [Inv2] looks at. *)
Definition same_cells (s s' : State) : Prop :=
  session s' = session s /\ mounted s' = mounted s
  /\ loads s' = loads s /\ abortedSignals s' = abortedSignals s
  /\ live2dModelRef s' = live2dModelRef s /\ pixiAppRef s' = pixiAppRef s
  /\ destroy_calls (app s') = destroy_calls (app s)
  /\ listening s' = listening s /\ rafQueue s' = rafQueue s
  /\ mountAborted s' = mountAborted s.

Definition is_destroy (c : nat * HandleCall) : bool :=
  match snd c with
  | Destroy => true
  | _ => false
  end.

(** The handles on which [destroy()] was called, oldest first. *)
Definition destroyed (s : State) : list nat :=
  map fst (filter is_destroy (calls s)).

(** The handle [live2dModelRef] holds. *)
Definition attached (s : State) : list nat :=
  map hid (ref_list (live2dModelRef s)).

(** The handle an event delivers: [Live2DModel.from] fulfils for a run that
    waits for it. *)
Definition delivered_by (ev : Event) (s : State) : list nat :=
  match ev with
  | ModelSettled sig (Some h) =>
      match find_load sig s with
      | Some l =>
          match phase l with
          | AwaitModel _ => [hid h]
          | AwaitModule => []
          end
      | None => []
      end
  | _ => []
  end.

(** The handles delivered along a run, in order. *)
Fixpoint delivered (evs : list Event) (s : State) : list nat :=
  match evs with
  | [] => []
  | ev :: rest => delivered_by ev s ++ delivered rest (step ev s)
  end.

(** [tap], [expression] and [motion]: the calls an action or a click makes
    at once on the handle it reads. *)
Definition is_action (c : HandleCall) : bool :=
  match c with
  | Tap _ _ | Expression _ | Motion _ _ => true
  | Destroy | Focus _ _ => false
  end.

(** No [tap], [expression] or [motion] is called on a handle after its
    [destroy]. *)
Definition no_action_after_destroy (cs : list (nat * HandleCall)) : Prop :=
  forall pre h c post,
    cs = (pre ++ (h, c) :: post)%list -> is_action c = true ->
    ~ In (h, Destroy) pre.

(** *** The view ([live2d-canvas.tsx], [live2d-sidebar.tsx])

    [Live2DViewer] (the second part of [live2d-canvas.tsx], lines 40-71)
    passes the cells of the hook to the two components; what they render
    conditionally is kept, the styling is not.  A view is read between two
    events, when the state updates of the last one are all rendered. *)

(** [Live2DCanvas] (live2d-canvas.tsx, lines 19-30): the overlay
    "Loading model..." and the text of the error banner. *)
Record CanvasView : Type := mkCanvasView {
  loading_overlay : bool;
  error_banner : option string
}.

Definition Live2DCanvas (isLoading : bool) (error : option string)
  : CanvasView :=
  mkCanvasView isLoading
    (if Boolean error && negb isLoading then error else None).

(** A [<button>] of the sidebar. *)
Record Button : Type := mkButton {
  key : string;
  label : string;
  disabled : bool;
  onClick : Event
}.

(** The template literal [`${m.group}-${m.index}`]. *)
Definition motion_key (m : MotionEntry) : string :=
  group m ++ "-" ++ string_of_nat (index m).

Definition expression_button (isLoading : bool) (expr : string) : Button :=
  mkButton expr expr isLoading (PlayExpression expr).

Definition motion_button (isLoading : bool) (m : MotionEntry) : Button :=
  mkButton (motion_key m) (name m) isLoading
    (PlayMotion (group m) (index m)).

(** A [<section>] of buttons: the number in its heading and its buttons. *)
Definition ButtonSection : Type := (nat * list Button)%type.

(** [Live2DSidebar] (live2d-sidebar.tsx, lines 30-89). *)
Record SidebarView : Type := mkSidebarView {
  select_value : ModelName;
  select_disabled : bool;
  select_options : list ModelName;
  select_onChange : ModelName -> Event;
  expression_section : option ButtonSection;
  motion_section : option ButtonSection;
  empty_notice : bool
}.

Definition Live2DSidebar (selectedModel : ModelName)
    (expressions : list string) (motions : list MotionEntry)
    (isLoading : bool) : SidebarView :=
  mkSidebarView selectedModel isLoading MODEL_NAMES SelectModel
    (if 0 <? List.length expressions
     then Some (List.length expressions,
                map (expression_button isLoading) expressions)
     else None)
    (if 0 <? List.length motions
     then Some (List.length motions, map (motion_button isLoading) motions)
     else None)
    (negb isLoading && (List.length expressions =? 0)
     && (List.length motions =? 0)).

(** [Live2DViewer]: the hook's cells go to the two components. *)
Definition Live2DViewer (s : State) : CanvasView * SidebarView :=
  let c := session s in
  (Live2DCanvas (isLoading c) (error c),
   Live2DSidebar (selectedModel c) (expressions c) (motions c)
     (isLoading c)).

Definition buttons (sec : option ButtonSection) : list Button :=
  match sec with
  | Some (_, bs) => bs
  | None => []
  end.

(** What the cells hold besides [Inv2]: what the view relies on. *)
Record InvView (s : State) : Prop := mkInvView {
  v_pending : appPending s = true ->
              isLoading (session s) = true /\ error (session s) = None;
  v_blank : appReady (session s) = false ->
            expressions (session s) = [] /\ motions (session s) = [];
  v_idle : isLoading (session s) = false -> live2dModelRef s = None ->
           expressions (session s) = [] /\ motions (session s) = []
           /\ error (session s) <> None;
  v_error : forall msg, error (session s) = Some msg ->
            msg = if appReady (session s)
                  then load_error_message (selectedModel (session s))
                  else "Failed to initialize rendering engine.";
  v_module : forall m, live2dModelRef s = Some m ->
             live2dModule s = Some Fulfilled
}.

(** *** What a step does to the handles

    The calls a step adds to the log and what it does to [live2dModelRef]. *)
Inductive call_effect (ev : Event) (s s' : State) : Prop :=
| effect_focus (fs : list (nat * HandleCall)) :
    (* nothing, or the [focus] calls of a frame *)
    delivered_by ev s = [] ->
    Forall (fun c => is_destroy c = false /\ is_action (snd c) = false) fs ->
    calls s' = (calls s ++ fs)%list ->
    live2dModelRef s' = live2dModelRef s ->
    call_effect ev s s'
| effect_action (m : Live2DModelHandle) (c : HandleCall) :
    (* a click or an action reaches the attached handle *)
    delivered_by ev s = [] ->
    live2dModelRef s = Some m -> is_action c = true ->
    calls s' = (calls s ++ [(hid m, c)])%list ->
    live2dModelRef s' = live2dModelRef s ->
    call_effect ev s s'
| effect_detach (m : Live2DModelHandle) :
    (* a new run detaches and destroys the attached handle *)
    delivered_by ev s = [] ->
    live2dModelRef s = Some m ->
    calls s' = (calls s ++ [(hid m, Destroy)])%list ->
    live2dModelRef s' = None ->
    call_effect ev s s'
| effect_discard (h : nat) :
    (* a superseded run destroys the handle it receives *)
    delivered_by ev s = [h] ->
    calls s' = (calls s ++ [(h, Destroy)])%list ->
    live2dModelRef s' = live2dModelRef s ->
    call_effect ev s s'
| effect_attach (m' : Live2DModelHandle) :
    (* the current run attaches the handle it receives *)
    delivered_by ev s = [hid m'] ->
    live2dModelRef s = None ->
    calls s' = calls s ->
    live2dModelRef s' = Some m' ->
    call_effect ev s s'.

(** [focus] and [tap]: the calls the pointer listeners make. *)
Definition is_pointer (c : HandleCall) : bool :=
  match c with
  | Focus _ _ | Tap _ _ => true
  | Destroy | Expression _ | Motion _ _ => false
  end.

(** *** More sample runs *)

(** A 400 x 800 model whose settings list expressions and motions. *)
Definition sample_capable : Live2DModelHandle :=
  mkHandle 2 400 800 1 0 0
    (Some (mkInternalModel
             (Some (Settings.mk (Some sample_expressions)
                      (Some sample_motions))))).

(** [sample_boot], and that model arrives. *)
Definition sample_capable_loaded : list Event :=
  (sample_boot ++ [ModelSettled 0 (Some sample_capable)])%list.

(** The first model is loaded and clicked, then Hiyori is selected, its
    model arrives and one of its expressions is played. *)
Definition sample_switch : list Event :=
  (sample_loaded
   ++ [Click (mkMouseEvent 10 20) (mkDOMRect 5 5); SelectModel Hiyori;
       ModuleAwaited 1; ModelSettled 1 (Some sample_capable);
       PlayExpression "smile"])%list.

(** The first model is loaded and the component is unmounted. *)
Definition sample_unmounted : list Event :=
  (sample_loaded ++ [Unmount])%list.

(** The surface is ready and the import is rejected. *)
Definition sample_import_rejected : list Event :=
  [AppCreated (Some (800%float, 600%float)); ModuleSettled false].

(* ------------------------------------------------------------------ *)
(** ** Capability extraction: properties *)

Lemma Boolean_true (v : option string) :
  Boolean v = true <-> exists s, v = Some s /\ s <> "".
Proof.
  destruct v as [s|]; simpl.
  - rewrite negb_true_iff. split.
    + intros H. exists s. split; [reflexivity|].
      intros ->. simpl in H. discriminate.
    + intros (s' & [= <-] & Hne). apply String.eqb_neq. exact Hne.
  - split; [discriminate | intros (s & H & _); discriminate].
Qed.

Lemma js_or_spec (e : Expr.t) :
  Boolean (js_or (Expr.Name e) (Expr.name e)) = true ->
  js_or (Expr.Name e) (Expr.name e) = spec_expression_name e.
Proof.
  unfold js_or, spec_expression_name.
  destruct (Expr.Name e) as [s|]; simpl; [|reflexivity].
  destruct (String.eqb s ""); reflexivity.
Qed.

Lemma js_or_carries (e : Expr.t) :
  carries_name e <-> Boolean (js_or (Expr.Name e) (Expr.name e)) = true.
Proof.
  unfold carries_name, js_or.
  destruct (Boolean (Expr.Name e)) eqn:HN.
  - rewrite HN. tauto.
  - split; [intros [H|H]; [discriminate | exact H] | intros H; right; exact H].
Qed.

(** The names the extractor returns, as one pass over the entries. *)
Lemma extractExpressions_cons (e : Expr.t) (es : list Expr.t)
    (ms : option (list (string * list unknown))) :
  extractExpressions (Some (Settings.mk (Some (e :: es)) ms)) =
  (match js_or (Expr.Name e) (Expr.name e) with
   | Some s => if String.eqb s "" then [] else [s]
   | None => []
   end ++ extractExpressions (Some (Settings.mk (Some es) ms)))%list.
Proof.
  unfold extractExpressions. simpl.
  destruct (js_or (Expr.Name e) (Expr.name e)) as [s|]; simpl.
  - destruct (String.eqb s ""); reflexivity.
  - reflexivity.
Qed.

Lemma forEach_push_spec (g : string) (items : list unknown) :
  forall (i : nat) (entries : list MotionEntry),
  forEach_push g items i entries =
  (entries ++ map (fun k => mkMotionEntry g (motion_label g k) k)
                  (seq i (List.length items)))%list.
Proof.
  induction items as [|it rest IH]; intros i entries; simpl.
  - symmetry. apply app_nil_r.
  - rewrite IH. unfold push. rewrite <- app_assoc. reflexivity.
Qed.

Lemma fold_forEach_push_spec (ms : list (string * list unknown)) :
  forall entries : list MotionEntry,
  fold_left (fun acc gi => forEach_push (fst gi) (snd gi) 0 acc) ms entries =
  (entries ++ spec_motion_entries ms)%list.
Proof.
  induction ms as [|gi ms IH]; intros entries; simpl.
  - symmetry. apply app_nil_r.
  - rewrite IH, forEach_push_spec. unfold spec_group_entries.
    rewrite <- app_assoc. reflexivity.
Qed.

(** C6. The capability extractor is a function of the settings alone.  When
    each of the N expression entries carries a name under one of the two
    casings, it returns exactly N names, in input order and without
    deduplication, each taken from [Name] when that holds a name and from
    [name] otherwise.  For a motions map it returns one entry per item of each
    group in order, with a 0-based index and the label "{group} #{index+1}",
    the groups in the map's own key order; the groups A: [x, y], B: [z] give
    (A, 0, "A #1"), (A, 1, "A #2"), (B, 0, "B #1"). *)
Theorem extractor_round_trip :
  forall (es : list Expr.t) (ms : list (string * list unknown))
         (H : Forall carries_name es),
    (map Some (extractExpressions (Some (Settings.mk (Some es) (Some ms))))
       = map spec_expression_name es
     /\ List.length
          (extractExpressions (Some (Settings.mk (Some es) (Some ms))))
        = List.length es)
    /\ extractMotions (Some (Settings.mk (Some es) (Some ms)))
       = spec_motion_entries ms
    /\ (forall x y z : unknown,
          extractMotions
            (Some (Settings.mk (Some es)
                     (Some [("A", [x; y]); ("B", [z])])))
          = [mkMotionEntry "A" "A #1" 0; mkMotionEntry "A" "A #2" 1;
             mkMotionEntry "B" "B #1" 0]).
Proof.
  intros es ms H. split; [|split].
  - induction H as [|e es He Hes [IH1 IH2]].
    + split; reflexivity.
    + rewrite extractExpressions_cons.
      apply js_or_carries in He.
      pose proof (js_or_spec e He) as Hspec.
      apply Boolean_true in He. destruct He as (s & Hs & Hne).
      rewrite Hs in *. apply String.eqb_neq in Hne. rewrite Hne.
      simpl. rewrite IH1, IH2, <- Hspec. split; reflexivity.
  - unfold extractMotions. simpl. apply (fold_forEach_push_spec ms []).
  - intros x0 y0 z0. reflexivity.
Qed.

(** C9. Settings with neither an [expressions] nor a [motions] field give
    an empty expression list and an empty motion list; so do a handle without
    settings and a handle without an internal model. *)
Theorem extractor_absent_fields :
  forall (model : Live2DModelHandle),
    (forall st, settings_of model = Some st ->
                Settings.expressions st = None /\ Settings.motions st = None) ->
    extractExpressions (settings_of model) = []
    /\ extractMotions (settings_of model) = [].
Proof.
  intros model H. destruct (settings_of model) as [st|] eqn:E.
  - destruct (H st eq_refl) as [He Hm].
    unfold extractExpressions, extractMotions. rewrite He, Hm.
    split; reflexivity.
  - split; reflexivity.
Qed.

(** C10. An entry whose [Name] is the empty string falls back to [name];
    the extractor returns exactly the selected values that are present and
    not empty, so entries whose selected value is absent or empty are
    dropped, and the result can be strictly shorter than the list of entries
    although every entry has a name field. *)
Theorem extractExpressions_drops_empty :
  (forall e, Expr.Name e = Some "" ->
             js_or (Expr.Name e) (Expr.name e) = Expr.name e)
  /\ (forall es ms n,
        In n (extractExpressions (Some (Settings.mk (Some es) ms))) <->
        exists e, In e es /\ js_or (Expr.Name e) (Expr.name e) = Some n
                  /\ n <> "")
  /\ (forall es ms,
        List.length (extractExpressions (Some (Settings.mk (Some es) ms)))
        = List.length
            (filter (fun e => Boolean (js_or (Expr.Name e) (Expr.name e))) es))
  /\ (exists es,
        Forall (fun e => Expr.Name e <> None \/ Expr.name e <> None) es
        /\ List.length
             (extractExpressions (Some (Settings.mk (Some es) None)))
           < List.length es).
Proof.
  split; [|split; [|split]].
  - intros e H. unfold js_or. rewrite H. reflexivity.
  - intros es ms n. induction es as [|e es IH].
    + simpl. split; [tauto | intros (e & [] & _)].
    + rewrite extractExpressions_cons, in_app_iff, IH. split.
      * intros [H | (e' & Hin & Hp & Hne)].
        -- exists e. destruct (js_or (Expr.Name e) (Expr.name e)) as [s|];
             [|destruct H].
           destruct (String.eqb s "") eqn:Es; [destruct H|].
           destruct H as [<-|[]]. apply String.eqb_neq in Es.
           repeat split; [left; reflexivity | exact Es].
        -- exists e'. repeat split; [right; exact Hin | exact Hp | exact Hne].
      * intros (e' & [<-|Hin] & Hp & Hne).
        -- left. rewrite Hp. apply String.eqb_neq in Hne. rewrite Hne.
           left. reflexivity.
        -- right. exists e'. repeat split; assumption.
  - intros es ms. induction es as [|e es IH]; [reflexivity|].
    rewrite extractExpressions_cons, length_app, IH. simpl.
    destruct (js_or (Expr.Name e) (Expr.name e)) as [s|]; simpl;
      [destruct (String.eqb s "")|]; reflexivity.
  - exists [Expr.mk (Some "") (Some "")]. split.
    + constructor; [left; discriminate | constructor].
    + simpl. lia.
Qed.

(* ------------------------------------------------------------------ *)
(** ** Scale and center *)

Lemma scaleAndCenter_formula (a : PixiApp) (model : Live2DModelHandle) :
  let m' := scaleAndCenter a model in
  scale m' = (Math_min (screen_width a / width model)
                       (screen_height a / height model) * 0.8)%float
  /\ x m' = ((screen_width a - width (scale_set (scale m') model)) / 2)%float
  /\ y m' = ((screen_height a
              - height (set_x (x m') (scale_set (scale m') model))) / 2)%float
  /\ hid m' = hid model
  /\ internalModel m' = internalModel model.
Proof.
  cbv zeta. unfold scaleAndCenter.
  cbn [scale x y hid internalModel scale_set set_x set_y]. repeat split.
Qed.

(** With handles that report their size on screen, the handle is centred
    with the size read after [scale.set]: the scale times the intrinsic
    size, each operation rounded as the code rounds it. *)
Lemma scaleAndCenter_display (a : PixiApp) (model : Live2DModelHandle) :
  (forall m, width m = (scale m * internalWidth m)%float) ->
  (forall m, height m = (scale m * internalHeight m)%float) ->
  let m' := scaleAndCenter a model in
  scale m' = (Math_min (screen_width a / width model)
                       (screen_height a / height model) * 0.8)%float
  /\ x m' = ((screen_width a - scale m' * internalWidth model) / 2)%float
  /\ y m' = ((screen_height a - scale m' * internalHeight model) / 2)%float.
Proof.
  intros Hw Hh. cbv zeta.
  destruct (scaleAndCenter_formula a model) as (Hs & Hx & Hy & _).
  cbv zeta in Hs, Hx, Hy. rewrite Hx, Hy. clear Hx Hy.
  rewrite (Hw (scale_set _ _)), (Hh (set_x _ _)).
  cbn [scale internalWidth internalHeight scale_set set_x].
  split; [exact Hs|]. split; reflexivity.
Qed.

(** With handles that report their size on screen, [loadModel_scaleAndCenter]
    computes the same scale and multiplies the size read after [scale.set]
    by the scale once more. *)
Lemma loadModel_scaleAndCenter_display (a : PixiApp)
    (model : Live2DModelHandle) :
  (forall m, width m = (scale m * internalWidth m)%float) ->
  (forall m, height m = (scale m * internalHeight m)%float) ->
  let m' := loadModel_scaleAndCenter a model in
  scale m' = scale (scaleAndCenter a model)
  /\ x m' = ((screen_width a - scale m' * internalWidth model * scale m') / 2)
            %float
  /\ y m' = ((screen_height a - scale m' * internalHeight model * scale m')
             / 2)%float.
Proof.
  intros Hw Hh. cbv zeta. unfold loadModel_scaleAndCenter, scaleAndCenter.
  cbn [scale x y scale_set set_x set_y].
  rewrite (Hw (scale_set _ _)), (Hh (set_x _ _)).
  cbn [scale internalWidth internalHeight scale_set set_x].
  repeat split.
Qed.

(** With handles whose size were a fixed number, [scaleAndCenter] would
    centre the unscaled size, and [loadModel_scaleAndCenter] the scaled
    one. *)
Remark scaleAndCenter_fixed (a : PixiApp) (model : Live2DModelHandle) :
  (forall m, width m = internalWidth m) ->
  x (scaleAndCenter a model)
  = ((screen_width a - internalWidth model) / 2)%float
  /\ x (loadModel_scaleAndCenter a model)
     = ((screen_width a
         - internalWidth model * scale (loadModel_scaleAndCenter a model))
        / 2)%float.
Proof.
  intros Hw. unfold scaleAndCenter, loadModel_scaleAndCenter.
  cbn [scale x y scale_set set_x set_y].
  rewrite !(Hw (scale_set _ _)). cbn [internalWidth scale_set].
  split; reflexivity.
Qed.

(* ------------------------------------------------------------------ *)
(** ** The invariant *)

Ltac destruct_state s :=
  destruct s as [[? ? ? ? ? ?] ? [? ? ? ?] ? ? ? ? ? ? ? ? ? ? ? ? ? ?].

Ltac hsimpl :=
  cbn -[Nat.eqb set_phase Math_min] in *.

Lemma ModelName_eqb_eq (a b : ModelName) :
  ModelName_eqb a b = true <-> a = b.
Proof.
  unfold ModelName_eqb. rewrite String.eqb_eq. split.
  - destruct a, b; simpl; intros H; try reflexivity; discriminate.
  - intros ->. reflexivity.
Qed.

Lemma aborted_abort (sig sig' : nat) (s : State) :
  aborted sig (abort sig' s) = (sig =? sig') || aborted sig s.
Proof.
  unfold abort. destruct (aborted sig' s) eqn:E.
  - destruct (sig =? sig') eqn:E'; [|reflexivity].
    apply Nat.eqb_eq in E'. subst. rewrite E. reflexivity.
  - destruct_state s. unfold aborted. hsimpl. reflexivity.
Qed.

Lemma Inv_init : Inv init.
Proof.
  constructor; hsimpl; try tauto; try discriminate; try lia;
    try constructor; auto.
Qed.

Lemma Inv_abort (sig : nat) (s : State) :
  Inv s -> sig < nextSignal s -> Inv (abort sig s).
Proof.
  intros I Hlt.
  assert (Hab : forall g, aborted g (abort sig s) = false -> aborted g s = false).
  { intros g. rewrite aborted_abort. intros H.
    apply orb_false_iff in H. tauto. }
  unfold abort in *. destruct (aborted sig s) eqn:E; [exact I|].
  destruct I. destruct_state s. constructor; hsimpl; eauto.
  intros g [<-|H]; auto.
Qed.

Lemma loadEffect_cleanup_Inv (s : State) :
  Inv s ->
  Inv (loadEffect_cleanup s)
  /\ (forall l, In l (loads (loadEffect_cleanup s)) ->
                aborted (signal l) (loadEffect_cleanup s) = true).
Proof.
  intros I. unfold loadEffect_cleanup.
  destruct (loadCleanup s) as [sig|] eqn:E.
  - split.
    + apply Inv_abort; [exact I | apply (inv_cleanup_fresh s I); exact E].
    + intros l Hl. rewrite aborted_abort.
      assert (Hl' : In l (loads s)).
      { unfold abort in Hl. destruct (aborted sig s); [exact Hl|].
        destruct_state s. exact Hl. }
      destruct (aborted (signal l) s) eqn:Ea; [apply orb_true_r|].
      destruct (inv_live s I l Hl' Ea) as [_ Hc].
      rewrite E in Hc. injection Hc as ->. rewrite Nat.eqb_refl. reflexivity.
  - split; [exact I|]. intros l Hl.
    destruct (aborted (signal l) s) eqn:Ea; [reflexivity|].
    destruct (inv_live s I l Hl Ea) as [_ Hc]. congruence.
Qed.

Lemma removeChild_single (m : Live2DModelHandle) : removeChild m [m] = [].
Proof. simpl. rewrite Nat.eqb_refl. reflexivity. Qed.

Lemma not_aborted_fresh (s : State) :
  Inv s -> aborted (nextSignal s) s = false.
Proof.
  intros I. unfold aborted.
  destruct (existsb (Nat.eqb (nextSignal s)) (abortedSignals s)) eqn:E;
    [|reflexivity].
  apply existsb_exists in E. destruct E as (g & Hg & Heq).
  apply Nat.eqb_eq in Heq. subst g.
  apply (inv_aborted_fresh s I) in Hg. lia.
Qed.

Lemma NoDup_push_signal (ls : list Load) (l : Load) :
  NoDup (map signal ls) ->
  (forall l', In l' ls -> signal l' < signal l) ->
  NoDup (map signal (ls ++ [l])).
Proof.
  intros Hnd Hlt. rewrite map_app. apply NoDup_app; [exact Hnd | |].
  - simpl. constructor; [intros Hx; destruct Hx | constructor].
  - intros g Hg [<-|[]]. apply in_map_iff in Hg.
    destruct Hg as (l' & Heq & Hl). apply Hlt in Hl. lia.
Qed.

(** The body of the load effect, once the previous run has been cleaned. *)
Lemma loadEffect_body_Inv (s : State) :
  Inv s ->
  (forall l, In l (loads s) -> aborted (signal l) s = true) ->
  mounted s = true ->
  Inv (if appReady (session s) && pixiAppRef s then
         set_loadCleanup (Some (nextSignal s))
           (loadLive2DModel (selectedModel (session s)) (nextSignal s)
              (set_nextSignal (S (nextSignal s)) s))
       else set_loadCleanup None s).
Proof.
  intros I Hall Hm. pose proof (not_aborted_fresh s I) as Hfresh.
  destruct I. destruct_state s. unfold aborted in *. hsimpl. subst.
  destruct (appReady0 && pixiAppRef0) eqn:Hready.
  2:{ constructor; hsimpl; eauto; try discriminate;
        try (intros l Hl Ha; rewrite (Hall l Hl) in Ha; discriminate).
      intros Hp. destruct (inv_pending0 Hp) as (? & ? & _ & ? & ?). auto. }
  apply andb_true_iff in Hready. destruct Hready as [-> ->].
  unfold loadLive2DModel. hsimpl.
  destruct live2dModelRef0 as [m|]; unfold getLive2DModule; hsimpl;
    (destruct live2dModule0 as [mp|]; hsimpl; constructor; hsimpl).
  all: try (rewrite Nat.eqb_refl; reflexivity).
  all: try exact inv_stage0.
  all: try (intros l Hl; apply in_app_iff in Hl; destruct Hl as [Hl|[<-|[]]];
            [intros Ha; rewrite (Hall l Hl) in Ha; discriminate | auto]).
  all: try (apply NoDup_push_signal; [exact inv_nodup0 | exact inv_load_fresh0]).
  all: try (intros l Hl; apply in_app_iff in Hl; destruct Hl as [Hl|[<-|[]]];
            [apply inv_load_fresh0 in Hl; lia | hsimpl; lia]).
  all: try (intros g [= <-]; lia).
  all: try (intros g Hg; apply inv_aborted_fresh0 in Hg; lia).
  all: try (intros Hp; destruct (inv_pending0 Hp) as (_ & _ & _ & Hx & _);
            discriminate).
  all: try (intros; repeat split; reflexivity).
  all: try exact inv_unmounted0.
  all: try (intros l q Hl; apply in_app_iff in Hl;
            destruct Hl as [Hl|[<-|[]]];
            [intros Hq; try exact (inv_model_phase0 l q Hl Hq);
             try (specialize (inv_model_phase0 l q Hl Hq); discriminate)
            |hsimpl; discriminate]).
  all: try exact inv_destroy0.
  all: try exact inv_raf0.
  all: try exact inv_raf_len0.
  all: try exact inv_raf_fresh0.
Qed.

Lemma loadEffect_cleanup_mounted (s : State) :
  mounted (loadEffect_cleanup s) = mounted s.
Proof.
  unfold loadEffect_cleanup, abort. destruct (loadCleanup s); [|reflexivity].
  destruct (aborted n s); [reflexivity|]. destruct_state s. reflexivity.
Qed.

Lemma loadEffect_Inv (s : State) :
  Inv s -> mounted s = true -> Inv (loadEffect s).
Proof.
  intros I Hm. destruct (loadEffect_cleanup_Inv s I) as [I1 Hall].
  rewrite <- (loadEffect_cleanup_mounted s) in Hm.
  exact (loadEffect_body_Inv _ I1 Hall Hm).
Qed.

Lemma render_Inv (before after : State) :
  Inv after -> Inv (render before after).
Proof.
  intros I. unfold render.
  destruct (mounted after) eqn:Hm; [|exact I].
  destruct (deps_changed (session before) (session after)); [|exact I].
  apply loadEffect_Inv; assumption.
Qed.

(** Updates the invariant does not look at. *)
Lemma Inv_session (s : State) (c : Session) :
  appReady c = appReady (session s) -> Inv s -> Inv (set_session c s).
Proof.
  intros Hc I. destruct I. destruct_state s. hsimpl.
  constructor; hsimpl; try rewrite Hc; auto.
Qed.

Lemma Inv_calls (s : State) (cs : list (nat * HandleCall)) :
  Inv s -> Inv (set_calls cs s).
Proof.
  intros I. destruct I. destruct_state s. hsimpl.
  constructor; hsimpl; auto.
Qed.

Lemma Inv_call (s : State) (m : Live2DModelHandle) (c : HandleCall) :
  Inv s -> Inv (call m c s).
Proof. apply Inv_calls. Qed.

Lemma find_load_In (sig : nat) (s : State) (l : Load) :
  find_load sig s = Some l -> In l (loads s) /\ signal l = sig.
Proof.
  unfold find_load. intros H. apply find_some in H.
  destruct H as [Hin Heq]. apply Nat.eqb_eq in Heq. auto.
Qed.

Lemma NoDup_map_filter (f : Load -> bool) (ls : list Load) :
  NoDup (map signal ls) -> NoDup (map signal (filter f ls)).
Proof.
  induction ls as [|l ls IH]; simpl; intros H; [constructor|].
  inversion H as [|? ? Hnot Hnd]; subst.
  destruct (f l); simpl; auto. constructor; auto.
  intros Hin. apply Hnot. apply in_map_iff in Hin.
  destruct Hin as (l' & Heq & Hl'). apply filter_In in Hl'.
  apply in_map_iff. exists l'. tauto.
Qed.

Lemma remove_load_Inv (sig : nat) (s : State) :
  Inv s -> Inv (remove_load sig s).
Proof.
  intros I. destruct I. destruct_state s. unfold remove_load, aborted in *.
  hsimpl. constructor; hsimpl; auto.
  - intros l Hl. apply filter_In in Hl. destruct Hl as [Hl _]. auto.
  - apply NoDup_map_filter. assumption.
  - intros l Hl. apply filter_In in Hl. destruct Hl as [Hl _]. auto.
  - intros Hp. destruct (inv_pending0 Hp) as (? & -> & ? & ? & ?). auto.
  - intros l p Hl. apply filter_In in Hl. destruct Hl as [Hl _]. eauto.
Qed.

Lemma remove_load_loads (sig : nat) (s : State) (l : Load) :
  In l (loads (remove_load sig s)) <-> In l (loads s) /\ signal l <> sig.
Proof.
  destruct_state s. unfold remove_load. hsimpl. rewrite filter_In.
  rewrite negb_true_iff, Nat.eqb_neq. tauto.
Qed.

Lemma set_phase_signal (sig : nat) (ph : LoadPhase) (ls : list Load) :
  map signal (set_phase sig ph ls) = map signal ls.
Proof.
  unfold set_phase. rewrite map_map. apply map_ext.
  intros l. destruct (signal l =? sig); reflexivity.
Qed.

Lemma set_phase_In (sig : nat) (ph : LoadPhase) (ls : list Load) (l' : Load) :
  In l' (set_phase sig ph ls) ->
  exists l, In l ls /\ signal l' = signal l
            /\ (l' = l \/ phase l' = ph).
Proof.
  unfold set_phase. intros H. apply in_map_iff in H.
  destruct H as (l & Heq & Hl). exists l. split; [exact Hl|].
  destruct (signal l =? sig); subst l'; simpl; auto.
Qed.

Lemma catch_Inv (l : Load) (s : State) :
  Inv s -> Inv (loadLive2DModel_catch l s).
Proof.
  intros I. unfold loadLive2DModel_catch.
  destruct (aborted (signal l) s); [exact I|].
  unfold setIsLoading, setError, setMotions, setExpressions.
  repeat (apply Inv_session; [destruct_state s; reflexivity|]). exact I.
Qed.

Lemma afterModule_Inv (l : Load) (s : State) :
  Inv s -> Inv (loadLive2DModel_afterModule l s).
Proof.
  intros I. unfold loadLive2DModel_afterModule.
  destruct (live2dModule s) as [[| |]|] eqn:Hmod; try exact I.
  - destruct (aborted (signal l) s); [apply remove_load_Inv; exact I|].
    destruct I. destruct_state s. unfold aborted in *. hsimpl.
    constructor; hsimpl; auto.
    + intros l' Hl'. apply set_phase_In in Hl'.
      destruct Hl' as (l0 & Hl0 & -> & _). auto.
    + rewrite set_phase_signal. assumption.
    + intros l' Hl'. apply set_phase_In in Hl'.
      destruct Hl' as (l0 & Hl0 & -> & _). auto.
    + intros Hp. destruct (inv_pending0 Hp) as (? & -> & ? & ? & ?). auto.
  - apply catch_Inv, remove_load_Inv. exact I.
Qed.

Lemma afterModel_Inv (l : Load) (r : option Live2DModelHandle) (s : State) :
  Inv s -> In l (loads s) -> Inv (loadLive2DModel_afterModel l r s).
Proof.
  intros I Hl. unfold loadLive2DModel_afterModel. cbv zeta.
  pose proof (remove_load_Inv (signal l) s I) as I1.
  destruct r as [model|]; [|apply catch_Inv; exact I1].
  destruct (aborted (signal l) (remove_load (signal l) s)) eqn:Ha;
    [apply Inv_call; exact I1|].
  assert (Ha' : aborted (signal l) s = false).
  { destruct_state s. exact Ha. }
  destruct (inv_live s I l Hl Ha') as [Hnone Hclean].
  assert (Hothers : forall l', In l' (loads (remove_load (signal l) s)) ->
                               aborted (signal l') s = true).
  { intros l' Hl'. apply remove_load_loads in Hl'. destruct Hl' as [Hl' Hne].
    destruct (aborted (signal l') s) eqn:Ea; [reflexivity|].
    destruct (inv_live s I l' Hl' Ea) as [_ Hc]. congruence. }
  unfold setIsLoading, setMotions, setExpressions.
  repeat (apply Inv_session; [destruct_state s; reflexivity|]).
  clear Ha. destruct I1. destruct_state s. unfold aborted, remove_load in *.
  hsimpl. subst. constructor; hsimpl; auto.
  - intros l' Hl' Hf. rewrite (Hothers l' Hl') in Hf. discriminate.
  - intros Hp. destruct (inv_pending0 Hp) as (_ & _ & ? & _). discriminate.
Qed.

Lemma cancelAnimationFrame_Inv (s : State) :
  Inv s -> Inv (cancelAnimationFrame (rafIdRef s) s)
           /\ rafQueue (cancelAnimationFrame (rafIdRef s) s) = [].
Proof.
  intros I. destruct I. destruct_state s. unfold cancelAnimationFrame.
  hsimpl.
  assert (Hq : filter (fun p => negb (fst p =? rafIdRef0)) rafQueue0 = []).
  { destruct rafQueue0 as [|p [|q r]]; [reflexivity| |simpl in *; lia].
    simpl. rewrite (inv_raf0 p (or_introl eq_refl)), Nat.eqb_refl.
    reflexivity. }
  rewrite Hq. split; [|reflexivity].
  constructor; hsimpl; auto; try lia; try (intros p []).
Qed.

Lemma handleMouseMove_Inv (e : MouseEvent) (s : State) :
  Inv s -> Inv (handleMouseMove e s).
Proof.
  intros I. unfold handleMouseMove.
  destruct (live2dModelRef s) as [m|]; [|exact I].
  destruct (cancelAnimationFrame_Inv s I) as [I1 Hq].
  cbv zeta. unfold requestAnimationFrame.
  destruct I1. destruct (cancelAnimationFrame (rafIdRef s) s) as
    [[? ? ? ? ? ?] ? [? ? ? ?] ? ? ? ? ? ? ? ? ? ? ? ? ? ?].
  hsimpl. subst. constructor; hsimpl; auto.
  intros p [<-|[]]. reflexivity.
Qed.

Lemma handleClick_Inv (e : MouseEvent) (rect : DOMRect) (s : State) :
  Inv s -> Inv (handleClick e rect s).
Proof.
  intros I. unfold handleClick.
  destruct (live2dModelRef s); [apply Inv_call|]; exact I.
Qed.

Lemma fold_frameCallback_calls (rect : DOMRect)
    (q : list (nat * FrameCallback)) :
  forall s,
    fold_left (fun s p => frameCallback rect (snd p) s) q s =
    set_calls
      (calls s ++
       map (fun p =>
              (hid (cb_model (snd p)),
               Focus (clientX (cb_event (snd p)) - left rect)%float
                     (clientY (cb_event (snd p)) - top rect)%float)) q)%list s.
Proof.
  induction q as [|p q IH]; intros s.
  - simpl. rewrite app_nil_r. destruct_state s. reflexivity.
  - simpl fold_left. rewrite IH. destruct_state s.
    unfold frameCallback, call, push, set_calls. hsimpl.
    rewrite <- app_assoc. reflexivity.
Qed.

Lemma animationFrame_Inv (rect : DOMRect) (s : State) :
  Inv s -> Inv (animationFrame rect s).
Proof.
  intros I. unfold animationFrame. rewrite fold_frameCallback_calls.
  apply Inv_calls. destruct I. destruct_state s. hsimpl.
  constructor; hsimpl; auto; try lia; try (intros p []).
Qed.

Lemma playExpression_Inv (n : string) (s : State) :
  Inv s -> Inv (playExpression n s).
Proof.
  intros I. unfold playExpression.
  destruct (live2dModelRef s); [apply Inv_call|]; exact I.
Qed.

Lemma playMotion_Inv (g : string) (i : nat) (s : State) :
  Inv s -> Inv (playMotion g i s).
Proof.
  intros I. unfold playMotion.
  destruct (live2dModelRef s); [apply Inv_call|]; exact I.
Qed.

Lemma pointerEffect_cleanup_Inv (s : State) :
  Inv s -> Inv (pointerEffect_cleanup s).
Proof.
  intros I. destruct (cancelAnimationFrame_Inv s I) as [I1 _].
  unfold pointerEffect_cleanup. destruct I1.
  destruct (cancelAnimationFrame (rafIdRef s) s) as
    [[? ? ? ? ? ?] ? [? ? ? ?] ? ? ? ? ? ? ? ? ? ? ? ? ? ?].
  hsimpl. constructor; hsimpl; auto.
Qed.

Lemma unmount_order (s : State) :
  set_mounted false (teardown s) =
  pointerEffect_cleanup
    (set_mounted false (mountEffect_cleanup (loadEffect_cleanup s))).
Proof.
  destruct_state s.
  unfold teardown, pointerEffect_cleanup, loadEffect_cleanup,
    mountEffect_cleanup, cancelAnimationFrame, abort, aborted, app_destroy.
  destruct pixiAppRef0, loadCleanup0 as [sig|]; hsimpl;
    try destruct (existsb (Nat.eqb sig) abortedSignals0); reflexivity.
Qed.

Lemma mountEffect_cleanup_Inv (s : State) :
  Inv s ->
  (forall sig, loadCleanup s = Some sig -> aborted sig s = true) ->
  Inv (set_mounted false (mountEffect_cleanup s)).
Proof.
  intros I Hc. destruct I. destruct_state s.
  unfold mountEffect_cleanup, app_destroy, aborted in *. hsimpl.
  assert (Hd : destroy_calls (if pixiAppRef0
                then mkPixiApp screen_width0 screen_height0 stage0
                       (S destroy_calls0)
                else mkPixiApp screen_width0 screen_height0 stage0
                       destroy_calls0) <= 1).
  { destruct pixiAppRef0; hsimpl; [|tauto].
    destruct inv_destroy0 as [_ H0]. rewrite (H0 eq_refl). lia. }
  destruct pixiAppRef0; hsimpl; constructor; hsimpl; auto;
    try (intros sig Hs Ha; rewrite (Hc sig Hs) in Ha; discriminate);
    try (split; [exact Hd | discriminate]).
  intros Hp. destruct (inv_pending0 Hp) as (_ & _ & _ & _ & ?). discriminate.
Qed.

Lemma unmount_Inv (s : State) :
  Inv s -> Inv (set_mounted false (teardown s)).
Proof.
  intros I. rewrite unmount_order. apply pointerEffect_cleanup_Inv.
  destruct (loadEffect_cleanup_Inv s I) as [I1 _].
  apply mountEffect_cleanup_Inv; [exact I1|].
  intros sig Hs. unfold loadEffect_cleanup in *.
  destruct (loadCleanup s) as [g|] eqn:E.
  - assert (Hg : loadCleanup (abort g s) = Some g).
    { unfold abort. destruct (aborted g s); [exact E|].
      destruct_state s. exact E. }
    rewrite Hg in Hs. injection Hs as <-.
    rewrite aborted_abort, Nat.eqb_refl. reflexivity.
  - congruence.
Qed.

Lemma createPixiApp_fulfilled_Inv (W H : float) (s : State) :
  Inv s -> appPending s = true ->
  Inv (createPixiApp_fulfilled W H (set_appPending false s)).
Proof.
  intros I Hp. unfold createPixiApp_fulfilled. cbv zeta.
  destruct (inv_pending s I Hp) as (Href & Hloads & Hclean & Hready & Hpix).
  pose proof (inv_unmounted s I) as Hun.
  assert (I0 : Inv (set_app (mkPixiApp W H [] 0) (set_appPending false s))).
  { destruct I. destruct_state s. hsimpl. subst.
    constructor; hsimpl; auto; try discriminate. }
  destruct (mountAborted (set_app (mkPixiApp W H [] 0)
                            (set_appPending false s))) eqn:Hab.
  - destruct I0. destruct_state s. unfold app_destroy. hsimpl. subst.
    constructor; hsimpl; auto; try discriminate;
      try (split; [lia | discriminate]).
  - apply render_Inv. destruct I0. destruct_state s. hsimpl. subst.
    constructor; hsimpl; auto; try discriminate.
Qed.

Lemma createPixiApp_rejected_Inv (s : State) :
  Inv s -> Inv (createPixiApp_rejected (set_appPending false s)).
Proof.
  intros I. unfold createPixiApp_rejected.
  assert (I0 : Inv (set_appPending false s)).
  { destruct I. destruct_state s. hsimpl.
    constructor; hsimpl; auto; discriminate. }
  destruct (mountAborted (set_appPending false s)); [exact I0|].
  unfold setIsLoading, setError.
  repeat (apply Inv_session; [destruct_state s; reflexivity|]). exact I0.
Qed.

Theorem step_Inv (ev : Event) (s : State) : Inv s -> Inv (step ev s).
Proof.
  intros I. destruct ev as [r|W H|nm|ok|sig|sig r|e|e rect|rect|n|g i|];
    unfold step.
  - destruct (appPending s) eqn:Hp; [|exact I].
    destruct r as [[W H]|].
    + apply createPixiApp_fulfilled_Inv; assumption.
    + apply createPixiApp_rejected_Inv; assumption.
  - destruct I. destruct_state s. hsimpl. constructor; hsimpl; auto.
  - destruct (mounted s); [|exact I]. apply render_Inv.
    unfold setSelectedModel. apply Inv_session; [reflexivity | exact I].
  - destruct (live2dModule s) as [[| |]|] eqn:Hmod; try exact I.
    destruct I. destruct_state s. hsimpl. subst.
    constructor; hsimpl; auto.
    intros l p Hl Hq. specialize (inv_model_phase0 l p Hl Hq). discriminate.
  - destruct (find_load sig s) as [l|] eqn:Hf; [|exact I].
    destruct (phase l); [|exact I]. apply afterModule_Inv. exact I.
  - destruct (find_load sig s) as [l|] eqn:Hf; [|exact I].
    destruct (phase l); [exact I|]. apply afterModel_Inv; [exact I|].
    apply find_load_In in Hf. tauto.
  - destruct (listening s); [apply handleMouseMove_Inv|]; exact I.
  - destruct (listening s); [apply handleClick_Inv|]; exact I.
  - apply animationFrame_Inv. exact I.
  - apply playExpression_Inv. exact I.
  - apply playMotion_Inv. exact I.
  - destruct (mounted s); [apply unmount_Inv|]; exact I.
Qed.

Lemma run_app (evs1 evs2 : list Event) (s : State) :
  run (evs1 ++ evs2) s = run evs2 (run evs1 s).
Proof. unfold run. apply fold_left_app. Qed.

Theorem run_Inv (evs : list Event) (s : State) : Inv s -> Inv (run evs s).
Proof.
  revert s. induction evs as [|ev evs IH]; intros s I; [exact I|].
  simpl. apply IH, step_Inv, I.
Qed.

Corollary reachable_Inv (evs : list Event) : Inv (run evs init).
Proof. apply run_Inv, Inv_init. Qed.

(* ------------------------------------------------------------------ *)
(** ** The load protocol *)

(** C1. Whatever the environment does (selections, settled imports and
    loads in any order, pointer events, unmount), at most one handle is on
    the stage: the stage holds exactly the handle of [live2dModelRef], if
    any; and a new run of [loadLive2DModel] first detaches that handle and
    destroys it. *)
Theorem at_most_one_attached :
  forall evs : list Event,
    let s := run evs init in
    List.length (stage (app s)) <= 1
    /\ stage (app s) = ref_list (live2dModelRef s)
    /\ (forall name sig m,
          live2dModelRef s = Some m ->
          let s' := loadLive2DModel name sig s in
          stage (app s') = [] /\ live2dModelRef s' = None
          /\ calls s' = (calls s ++ [(hid m, Destroy)])%list).
Proof.
  intros evs s. pose proof (reachable_Inv evs) as I. fold s in I.
  pose proof (inv_stage s I) as Hst. split; [|split].
  - rewrite Hst. destruct (live2dModelRef s); simpl; lia.
  - exact Hst.
  - intros nm sig m Hm. cbv zeta. clearbody s. destruct_state s.
    unfold loadLive2DModel, getLive2DModule. hsimpl. subst.
    destruct live2dModule0; hsimpl; rewrite Nat.eqb_refl;
      repeat split; reflexivity.
Qed.

(** C2. A run whose signal was aborted while [Live2DModel.from] was in
    flight changes nothing that can be seen when it resumes: the [useState]
    cells, the stage and [live2dModelRef] are as before; a handle it obtained
    is destroyed and was never attached; a rejection is dropped. *)
Theorem superseded_load_is_invisible :
  forall (s : State) (sig : nat) (l : Load) (p : string)
         (r : option Live2DModelHandle),
    find_load sig s = Some l ->
    phase l = AwaitModel p ->
    aborted sig s = true ->
    let s' := step (ModelSettled sig r) s in
    session s' = session s
    /\ stage (app s') = stage (app s)
    /\ live2dModelRef s' = live2dModelRef s
    /\ find_load sig s' = None
    /\ calls s' = match r with
                  | Some model => (calls s ++ [(hid model, Destroy)])%list
                  | None => calls s
                  end.
Proof.
  intros s sig l p r Hf Hp Ha. cbv zeta. unfold step. rewrite Hf, Hp.
  destruct (find_load_In sig s l Hf) as [_ Hsig]. subst sig.
  unfold loadLive2DModel_afterModel, loadLive2DModel_catch. cbv zeta.
  assert (Ha' : aborted (signal l) (remove_load (signal l) s) = true).
  { destruct_state s. exact Ha. }
  assert (Hnone : find_load (signal l) (remove_load (signal l) s) = None).
  { destruct_state s. unfold find_load, remove_load. hsimpl.
    destruct (find (fun l0 => signal l0 =? signal l)
                (filter (fun l0 => negb (signal l0 =? signal l)) loads0))
      as [l'|] eqn:E; [|reflexivity].
    apply find_some in E. destruct E as [E1 E2]. apply filter_In in E1.
    destruct E1 as [_ E1]. rewrite E2 in E1. discriminate. }
  rewrite Ha'. destruct r as [model|].
  - destruct_state s. unfold find_load, remove_load, call in *. hsimpl.
    repeat split; auto.
  - destruct_state s. unfold find_load, remove_load in *. hsimpl.
    repeat split; auto.
Qed.

(* ------------------------------------------------------------------ *)
(** ** Teardown *)

Lemma filter_idem {A : Type} (f : A -> bool) (l : list A) :
  filter f (filter f l) = filter f l.
Proof.
  induction l as [|a l IH]; simpl; [reflexivity|].
  destruct (f a) eqn:E; simpl; [rewrite E, IH|]; auto.
Qed.

(** [teardown], field by field. *)
Lemma teardown_eq (s : State) :
  teardown s =
  mkState (session s) (mounted s)
    (mkPixiApp (screen_width (app s)) (screen_height (app s)) (stage (app s))
       (if pixiAppRef s then S (destroy_calls (app s))
        else destroy_calls (app s)))
    (appPending s) true false (live2dModule s) (live2dModelRef s) (loads s)
    match loadCleanup s with
    | Some sig => if aborted sig s then abortedSignals s
                  else sig :: abortedSignals s
    | None => abortedSignals s
    end
    (nextSignal s) (loadCleanup s) false (rafIdRef s)
    (filter (fun p => negb (fst p =? rafIdRef s)) (rafQueue s))
    (nextRafId s) (calls s).
Proof.
  destruct_state s.
  destruct pixiAppRef0, loadCleanup0 as [sig|];
    unfold teardown, pointerEffect_cleanup, loadEffect_cleanup,
      mountEffect_cleanup, cancelAnimationFrame, abort, aborted, app_destroy;
    cbn -[Nat.eqb];
    try destruct (existsb (Nat.eqb sig) abortedSignals0); reflexivity.
Qed.

(** C7. Running the cleanups a second time changes nothing: the second run
    is the identity on the state the first run left.  In particular the
    application is not destroyed a second time (in any reachable state it has
    been destroyed at most once after teardown) and no call is made on a
    handle; unmounting twice is unmounting once. *)
Theorem teardown_idempotent :
  forall s : State,
    teardown (teardown s) = teardown s
    /\ destroy_calls (app (teardown (teardown s)))
       = destroy_calls (app (teardown s))
    /\ calls (teardown (teardown s)) = calls s
    /\ step Unmount (step Unmount s) = step Unmount s
    /\ (forall evs, s = run evs init ->
          destroy_calls (app (teardown (teardown s))) <= 1).
Proof.
  intros s.
  assert (H1 : teardown (teardown s) = teardown s).
  { rewrite (teardown_eq (teardown s)). rewrite (teardown_eq s).
    unfold aborted.
    cbn [session mounted app appPending mountAborted pixiAppRef live2dModule
         live2dModelRef loads abortedSignals nextSignal loadCleanup listening
         rafIdRef rafQueue nextRafId calls screen_width screen_height stage
         destroy_calls].
    rewrite filter_idem. f_equal.
    destruct (loadCleanup s) as [sig|]; [|reflexivity].
    destruct (existsb (Nat.eqb sig) (abortedSignals s)) eqn:E.
    - rewrite E. reflexivity.
    - cbn [existsb]. rewrite Nat.eqb_refl. reflexivity. }
  assert (H2 : calls (teardown s) = calls s).
  { rewrite teardown_eq. reflexivity. }
  split; [exact H1|]. rewrite H1. split; [reflexivity|].
  split; [exact H2|]. split.
  - unfold step. destruct (mounted s) eqn:Hm; [|rewrite Hm; reflexivity].
    destruct_state s. reflexivity.
  - intros evs ->. pose proof (unmount_Inv _ (reachable_Inv evs)) as I.
    destruct (inv_destroy _ I) as [Hle _].
    rewrite teardown_eq in Hle. rewrite teardown_eq. exact Hle.
Qed.

(* ------------------------------------------------------------------ *)
(** ** Pointer wiring *)

Lemma handleMouseMove_attached (e : MouseEvent) (m : Live2DModelHandle)
    (s : State) :
  Inv s -> live2dModelRef s = Some m ->
  let s1 := handleMouseMove e s in
  rafQueue s1 = [(rafIdRef s1, mkFrameCallback e m)]
  /\ calls s1 = calls s
  /\ live2dModelRef s1 = Some m
  /\ listening s1 = listening s.
Proof.
  intros I Hm. cbv zeta. unfold handleMouseMove. rewrite Hm.
  destruct (cancelAnimationFrame_Inv s I) as [_ Hq]. cbv zeta.
  unfold requestAnimationFrame.
  assert (Hsame : live2dModelRef (cancelAnimationFrame (rafIdRef s) s)
                  = live2dModelRef s
                  /\ calls (cancelAnimationFrame (rafIdRef s) s) = calls s
                  /\ listening (cancelAnimationFrame (rafIdRef s) s)
                     = listening s).
  { destruct_state s. repeat split. }
  destruct Hsame as (H1 & H2 & H3).
  destruct (cancelAnimationFrame (rafIdRef s) s) as
    [[? ? ? ? ? ?] ? [? ? ? ?] ? ? ? ? ? ? ? ? ? ? ? ? ? ?].
  hsimpl. subst. repeat split; congruence.
Qed.

Lemma animationFrame_calls (rect : DOMRect) (s : State) :
  calls (animationFrame rect s) =
  (calls s ++
   map (fun p =>
          (hid (cb_model (snd p)),
           Focus (clientX (cb_event (snd p)) - left rect)%float
                 (clientY (cb_event (snd p)) - top rect)%float))
       (rafQueue s))%list
  /\ rafQueue (animationFrame rect s) = [].
Proof.
  unfold animationFrame. rewrite fold_frameCallback_calls.
  destruct_state s. split; reflexivity.
Qed.

(* ------------------------------------------------------------------ *)
(** ** Selecting a model *)

(** Reduction of projections applied to field updates, and nothing else. *)
Ltac psimpl :=
  cbn [session mounted app appPending mountAborted pixiAppRef live2dModule
       live2dModelRef loads abortedSignals nextSignal loadCleanup listening
       rafIdRef rafQueue nextRafId calls
       selectedModel appReady isLoading error expressions motions
       screen_width screen_height stage destroy_calls
       signal modelName phase
       set_session set_mounted set_app set_appPending set_mountAborted
       set_pixiAppRef set_live2dModule set_live2dModelRef set_loads
       set_abortedSignals set_nextSignal set_loadCleanup set_listening
       set_rafIdRef set_rafQueue set_nextRafId set_calls
       setSelectedModel setAppReady setIsLoading setError setExpressions
       setMotions remove_load stage_addChild stage_removeChild call
       app_destroy] in *.

Lemma ModelName_eqb_refl (a : ModelName) : ModelName_eqb a a = true.
Proof. apply ModelName_eqb_eq. reflexivity. Qed.

Lemma ModelName_eqb_neq (a b : ModelName) :
  a <> b -> ModelName_eqb a b = false.
Proof.
  intros H. destruct (ModelName_eqb a b) eqn:E; [|reflexivity].
  apply ModelName_eqb_eq in E. contradiction.
Qed.

Lemma select_same (s : State) :
  step (SelectModel (selectedModel (session s))) s = s.
Proof.
  unfold step, render, deps_changed. destruct_state s. psimpl.
  rewrite ModelName_eqb_refl, Bool.eqb_reflx. simpl.
  rewrite andb_false_r. destruct mounted0; reflexivity.
Qed.

Lemma select_other (id : ModelName) (s : State) :
  mounted s = true -> id <> selectedModel (session s) ->
  step (SelectModel id) s = loadEffect (setSelectedModel id s).
Proof.
  intros Hm Hne. unfold step, render, deps_changed. rewrite Hm. psimpl.
  rewrite Hm, (ModelName_eqb_neq _ _ (not_eq_sym Hne)), andb_false_r.
  reflexivity.
Qed.

Lemma abort_false (sig : nat) (s : State) :
  aborted sig s = false ->
  abort sig s = set_abortedSignals (sig :: abortedSignals s) s.
Proof. intros H. unfold abort. rewrite H. reflexivity. Qed.

Lemma abort_true (sig : nat) (s : State) :
  aborted sig s = true -> abort sig s = s.
Proof. intros H. unfold abort. rewrite H. reflexivity. Qed.

(** After the cleanup of the load effect only the set of aborted signals has
    changed, and it has grown by at most the signal the cleanup held. *)
Lemma loadEffect_cleanup_eq (s : State) :
  exists abs,
    loadEffect_cleanup s = set_abortedSignals abs s
    /\ (forall g, In g abs ->
                  In g (abortedSignals s) \/ loadCleanup s = Some g).
Proof.
  unfold loadEffect_cleanup. destruct (loadCleanup s) as [sig|].
  - destruct (aborted sig s) eqn:E.
    + exists (abortedSignals s). rewrite (abort_true _ _ E).
      split; [destruct_state s; reflexivity | auto].
    + exists (sig :: abortedSignals s). rewrite (abort_false _ _ E).
      split; [reflexivity|]. intros g [<-|Hg]; auto.
  - exists (abortedSignals s). split; [destruct_state s; reflexivity | auto].
Qed.

(** [loadLive2DModel] up to its first [await], field by field. *)
Lemma loadLive2DModel_eq (name : ModelName) (sig : nat) (s : State) :
  loadLive2DModel name sig s =
  mkState
    (mkSession (selectedModel (session s)) (appReady (session s)) true None
       (expressions (session s)) (motions (session s)))
    (mounted s)
    (mkPixiApp (screen_width (app s)) (screen_height (app s))
       match live2dModelRef s with
       | Some m => removeChild m (stage (app s))
       | None => stage (app s)
       end
       (destroy_calls (app s)))
    (appPending s) (mountAborted s) (pixiAppRef s)
    match live2dModule s with
    | Some p => Some p
    | None => Some Pending
    end
    None
    (loads s ++ [mkLoad sig name AwaitModule])
    (abortedSignals s) (nextSignal s) (loadCleanup s) (listening s)
    (rafIdRef s) (rafQueue s) (nextRafId s)
    match live2dModelRef s with
    | Some m => (calls s ++ [(hid m, Destroy)])%list
    | None => calls s
    end.
Proof.
  destruct_state s. unfold loadLive2DModel, getLive2DModule.
  destruct live2dModelRef0, live2dModule0; reflexivity.
Qed.

(** A run of the load effect when the application is ready. *)
Lemma loadEffect_ready (s : State) :
  appReady (session s) = true -> pixiAppRef s = true ->
  exists abs,
    (forall g, In g abs -> In g (abortedSignals s) \/ loadCleanup s = Some g)
    /\ loadEffect s =
       set_loadCleanup (Some (nextSignal s))
         (loadLive2DModel (selectedModel (session s)) (nextSignal s)
            (set_nextSignal (S (nextSignal s)) (set_abortedSignals abs s))).
Proof.
  intros Hr Hp. destruct (loadEffect_cleanup_eq s) as (abs & Hc & Habs).
  exists abs. split; [exact Habs|]. unfold loadEffect. rewrite Hc.
  destruct_state s. psimpl. subst. reflexivity.
Qed.

Lemma existsb_fresh (n : nat) (abs : list nat) :
  (forall g, In g abs -> g < n) -> existsb (Nat.eqb n) abs = false.
Proof.
  intros H. destruct (existsb (Nat.eqb n) abs) eqn:E; [|reflexivity].
  apply existsb_exists in E. destruct E as (g & Hg & Heq).
  apply Nat.eqb_eq in Heq. subst g. apply H in Hg. lia.
Qed.

(** C4, as the code has it.  Selecting the model that is already selected
    changes nothing: no run of the load protocol is started and the attached
    handle stays.  Selecting another model of the catalogue, once the
    application is ready, records the selection, detaches and destroys the
    attached handle and starts a run of the load protocol for that model. *)
Theorem select_reloads_on_change :
  forall (evs : list Event) (id : ModelName),
    let s := run evs init in
    mounted s = true -> appReady (session s) = true -> pixiAppRef s = true ->
    let s' := step (SelectModel id) s in
    (id = selectedModel (session s) -> s' = s)
    /\ (id <> selectedModel (session s) ->
        selectedModel (session s') = id
        /\ load_started id s s'
        /\ live2dModelRef s' = None
        /\ stage (app s') = []
        /\ calls s' = match live2dModelRef s with
                      | Some m => (calls s ++ [(hid m, Destroy)])%list
                      | None => calls s
                      end).
Proof.
  intros evs id s Hm Hr Hp s'. split.
  - intros ->. apply select_same.
  - intros Hne. pose proof (reachable_Inv evs) as I. fold s in I.
    pose proof (inv_aborted_fresh s I) as Haf.
    pose proof (inv_cleanup_fresh s I) as Hcf.
    pose proof (inv_load_fresh s I) as Hlf.
    pose proof (inv_stage s I) as Hst.
    subst s'. clearbody s. clear I.
    rewrite (select_other id s Hm Hne).
    destruct (loadEffect_ready (setSelectedModel id s)) as (abs & Habs & ->);
      [exact Hr | exact Hp |].
    rewrite loadLive2DModel_eq. unfold load_started, aborted. psimpl.
    assert (Hfresh : existsb (Nat.eqb (nextSignal s)) abs = false).
    { apply existsb_fresh. intros g Hg.
      destruct (Habs g Hg) as [H|H]; [apply Haf in H | apply Hcf in H]; lia. }
    split; [reflexivity|]. split; [|split; [reflexivity|split]].
    + split; [reflexivity|]. split; [reflexivity|].
      exists (mkLoad (nextSignal s) id AwaitModule). psimpl.
      split; [apply in_or_app; right; left; reflexivity|].
      split; [|split; [reflexivity | exact Hfresh]].
      intros Hin. apply in_map_iff in Hin. destruct Hin as (l & Heq & Hl).
      apply Hlf in Hl. lia.
    + rewrite Hst. destruct (live2dModelRef s) as [m|]; [|reflexivity].
      apply removeChild_single.
    + reflexivity.
Qed.

(* ------------------------------------------------------------------ *)
(** ** A load that fails *)

Lemma load_error_message_names (n : ModelName) :
  contains (load_error_message n) (ModelName_string n).
Proof.
  exists ("Failed to load " ++ dquote),
         (dquote ++ ". The model may require a newer Cubism SDK version.").
  unfold load_error_message. destruct n; reflexivity.
Qed.

Lemma find_push_fresh (L : list Load) (l : Load) :
  (forall l', In l' L -> signal l' < signal l) ->
  find (fun l' => signal l' =? signal l) (L ++ [l]) = Some l.
Proof.
  intros H. induction L as [|a L IH]; simpl.
  - rewrite Nat.eqb_refl. reflexivity.
  - assert (Ha : (signal a =? signal l) = false).
    { apply Nat.eqb_neq. specialize (H a (or_introl eq_refl)). lia. }
    rewrite Ha. apply IH. intros l' Hl'. apply H. right. exact Hl'.
Qed.

Lemma set_phase_push_fresh (L : list Load) (l : Load) (ph : LoadPhase) :
  (forall l', In l' L -> signal l' < signal l) ->
  set_phase (signal l) ph (L ++ [l]) =
  (L ++ [mkLoad (signal l) (modelName l) ph])%list.
Proof.
  intros H. unfold set_phase. rewrite map_app. simpl.
  rewrite Nat.eqb_refl. f_equal.
  rewrite <- (map_id L) at 2. apply map_ext_in. intros a Ha.
  assert (Hne : (signal a =? signal l) = false).
  { apply Nat.eqb_neq. specialize (H a Ha). lia. }
  rewrite Hne. reflexivity.
Qed.

(** The three ways a run resumes, as equations. *)
Lemma rejected_eq (sig : nat) (l : Load) (p : string) (s : State) :
  find_load sig s = Some l -> phase l = AwaitModel p ->
  aborted sig s = false ->
  step (ModelSettled sig None) s =
  setIsLoading false
    (setError (Some (load_error_message (modelName l)))
       (setMotions [] (setExpressions [] (remove_load sig s)))).
Proof.
  intros Hf Hp Ha. unfold step. rewrite Hf, Hp.
  destruct (find_load_In sig s l Hf) as [_ <-].
  unfold loadLive2DModel_afterModel, loadLive2DModel_catch. cbv zeta.
  replace (aborted (signal l) (remove_load (signal l) s)) with false
    by (rewrite <- Ha; destruct_state s; reflexivity).
  reflexivity.
Qed.

Lemma module_awaited_eq (sig : nat) (l : Load) (s : State) :
  find_load sig s = Some l -> phase l = AwaitModule ->
  live2dModule s = Some Fulfilled -> aborted sig s = false ->
  step (ModuleAwaited sig) s =
  set_loads
    (set_phase sig (AwaitModel (getModelPath (modelName l))) (loads s)) s.
Proof.
  intros Hf Hp Hmod Ha. unfold step. rewrite Hf, Hp.
  destruct (find_load_In sig s l Hf) as [_ <-].
  unfold loadLive2DModel_afterModule. rewrite Hmod, Ha. reflexivity.
Qed.

Lemma import_rejected_eq (sig : nat) (l : Load) (s : State) :
  find_load sig s = Some l -> phase l = AwaitModule ->
  live2dModule s = Some Rejected -> aborted sig s = false ->
  step (ModuleAwaited sig) s =
  setIsLoading false
    (setError (Some (load_error_message (modelName l)))
       (setMotions [] (setExpressions [] (remove_load sig s)))).
Proof.
  intros Hf Hp Hmod Ha. unfold step. rewrite Hf, Hp.
  destruct (find_load_In sig s l Hf) as [_ <-].
  unfold loadLive2DModel_afterModule, loadLive2DModel_catch. rewrite Hmod.
  replace (aborted (signal l) (remove_load (signal l) s)) with false
    by (rewrite <- Ha; destruct_state s; reflexivity).
  reflexivity.
Qed.

Lemma fulfilled_eq (sig : nat) (l : Load) (p : string)
    (model : Live2DModelHandle) (s : State) :
  find_load sig s = Some l -> phase l = AwaitModel p ->
  aborted sig s = false ->
  step (ModelSettled sig (Some model)) s =
  let m' := scaleAndCenter (app s) model in
  setIsLoading false
    (setMotions (extractMotions (settings_of m'))
       (setExpressions (extractExpressions (settings_of m'))
          (set_live2dModelRef (Some m')
             (stage_addChild m' (remove_load sig s))))).
Proof.
  intros Hf Hp Ha. unfold step. rewrite Hf, Hp.
  destruct (find_load_In sig s l Hf) as [_ <-].
  unfold loadLive2DModel_afterModel. cbv zeta.
  replace (aborted (signal l) (remove_load (signal l) s)) with false
    by (rewrite <- Ha; destruct_state s; reflexivity).
  destruct_state s. reflexivity.
Qed.

Lemma settings_of_scaleAndCenter (a : PixiApp) (model : Live2DModelHandle) :
  settings_of (scaleAndCenter a model) = settings_of model.
Proof. reflexivity. Qed.

(** When [Live2DModel.from] rejects and the signal of the run is not
    aborted, the run empties [expressions] and [motions], sets [error] to a
    message that contains the name of the model, sets [isLoading] to false,
    and raises nothing: the result is a state of the hook, with no handle
    attached.  From that state, selecting another model and a fulfilled load
    of it attach the new handle with no error. *)
Lemma rejected_model_is_local :
  forall (evs : list Event) (sig : nat) (l : Load) (p : string),
    let s := run evs init in
    find_load sig s = Some l ->
    phase l = AwaitModel p ->
    aborted sig s = false ->
    let s1 := step (ModelSettled sig None) s in
    (expressions (session s1) = []
     /\ motions (session s1) = []
     /\ error (session s1) = Some (load_error_message (modelName l))
     /\ contains (load_error_message (modelName l))
          (ModelName_string (modelName l))
     /\ isLoading (session s1) = false
     /\ live2dModelRef s1 = None
     /\ stage (app s1) = [])
    /\ forall (id' : ModelName) (h : Live2DModelHandle),
         id' <> selectedModel (session s1) ->
         let sig' := nextSignal s1 in
         let s2 := run [SelectModel id'; ModuleAwaited sig';
                        ModelSettled sig' (Some h)] s1 in
         selectedModel (session s2) = id'
         /\ live2dModelRef s2 = Some (scaleAndCenter (app s1) h)
         /\ stage (app s2) = [scaleAndCenter (app s1) h]
         /\ error (session s2) = None
         /\ isLoading (session s2) = false
         /\ expressions (session s2) = extractExpressions (settings_of h)
         /\ motions (session s2) = extractMotions (settings_of h).
Proof.
  intros evs sig l p s Hf Hp Ha.
  pose proof (reachable_Inv evs) as I. fold s in I.
  destruct (find_load_In sig s l Hf) as [Hin Hsig].
  rewrite <- Hsig in Ha.
  destruct (inv_live s I l Hin Ha) as [Href Hclean].
  destruct (inv_cleanup_live s I _ Hclean Ha) as (Hm & Hr & Hpx).
  pose proof (inv_model_phase s I l p Hin Hp) as Hmod.
  pose proof (inv_stage s I) as Hst. rewrite Href in Hst.
  pose proof (inv_aborted_fresh s I) as Haf.
  pose proof (inv_cleanup_fresh s I) as Hcf.
  pose proof (inv_load_fresh s I) as Hlf.
  rewrite Hsig in Ha. clearbody s. clear I.
  cbv zeta. rewrite (rejected_eq sig l p s Hf Hp Ha).
  set (s1 := setIsLoading false _). split.
  - subst s1. psimpl. repeat split; auto. apply load_error_message_names.
  - intros id' h Hne. unfold run. cbn [fold_left].
    (* the selection starts a run *)
    rewrite (select_other id' s1); [|subst s1; psimpl; exact Hm | exact Hne].
    destruct (loadEffect_ready (setSelectedModel id' s1))
      as (abs & Habs & ->); [subst s1; psimpl; assumption ..|].
    rewrite loadLive2DModel_eq.
    assert (Hfresh : existsb (Nat.eqb (nextSignal s)) abs = false).
    { apply existsb_fresh. intros g Hg. subst s1. psimpl.
      destruct (Habs g Hg) as [H|H]; [apply Haf in H | apply Hcf in H]; lia. }
    set (L := filter (fun l0 => negb (signal l0 =? sig)) (loads s)).
    assert (HL : forall l', In l' L -> signal l' < nextSignal s).
    { intros l' Hl'. apply filter_In in Hl'. apply Hlf. tauto. }
    subst s1. psimpl. fold L. rewrite Href, Hmod.
    (* the run resumes after the import *)
    match goal with |- context [step (ModuleAwaited _) ?S] =>
      set (s2 := S) end.
    rewrite (module_awaited_eq (nextSignal s)
               (mkLoad (nextSignal s) id' AwaitModule) s2);
      [|exact (find_push_fresh L (mkLoad (nextSignal s) id' AwaitModule) HL)
       |reflexivity | reflexivity | exact Hfresh].
    subst s2. psimpl.
    rewrite (set_phase_push_fresh L (mkLoad (nextSignal s) id' AwaitModule) _
               HL). psimpl.
    (* the model is loaded *)
    match goal with |- context [step (ModelSettled _ _) ?S] =>
      set (s3 := S) end.
    rewrite (fulfilled_eq (nextSignal s)
               (mkLoad (nextSignal s) id'
                  (AwaitModel (getModelPath id')))
               (getModelPath id') h s3);
      [|exact (find_push_fresh L
                 (mkLoad (nextSignal s) id' (AwaitModel (getModelPath id')))
                 HL)
       |reflexivity | exact Hfresh].
    subst s3. cbv zeta. psimpl. rewrite settings_of_scaleAndCenter.
    unfold push. rewrite Hst. repeat split.
Qed.

(** C5, as the code has it.  Whichever of its two awaits rejects, the
    dynamic import or [Live2DModel.from], a run whose signal is not aborted
    empties [expressions] and [motions], sets [error] to a message that
    contains the name of the model, sets [isLoading] to false, and raises
    nothing: the result is a state of the hook, with no handle attached.
    When it is [Live2DModel.from] that rejected, selecting another model
    and a fulfilled load of it attach the new handle with no error. *)
Theorem failed_load_is_local :
  forall (evs : list Event) (sig : nat) (l : Load) (ev : Event),
    let s := run evs init in
    find_load sig s = Some l ->
    aborted sig s = false ->
    load_rejects sig l s ev ->
    let s1 := step ev s in
    (expressions (session s1) = []
     /\ motions (session s1) = []
     /\ error (session s1) = Some (load_error_message (modelName l))
     /\ contains (load_error_message (modelName l))
          (ModelName_string (modelName l))
     /\ isLoading (session s1) = false
     /\ live2dModelRef s1 = None
     /\ stage (app s1) = [])
    /\ forall (p : string) (id' : ModelName) (h : Live2DModelHandle),
         phase l = AwaitModel p ->
         id' <> selectedModel (session s1) ->
         let sig' := nextSignal s1 in
         let s2 := run [SelectModel id'; ModuleAwaited sig';
                        ModelSettled sig' (Some h)] s1 in
         selectedModel (session s2) = id'
         /\ live2dModelRef s2 = Some (scaleAndCenter (app s1) h)
         /\ stage (app s2) = [scaleAndCenter (app s1) h]
         /\ error (session s2) = None
         /\ isLoading (session s2) = false
         /\ expressions (session s2) = extractExpressions (settings_of h)
         /\ motions (session s2) = extractMotions (settings_of h).
Proof.
  intros evs sig l ev s Hf Ha Hrej. unfold load_rejects in Hrej.
  destruct (phase l) as [|p] eqn:Hp.
  - destruct Hrej as [Hmod ->]. cbv zeta.
    pose proof (reachable_Inv evs) as I. fold s in I.
    destruct (find_load_In sig s l Hf) as [Hin Hsig].
    rewrite <- Hsig in Ha.
    destruct (inv_live s I l Hin Ha) as [Href _].
    pose proof (inv_stage s I) as Hst. rewrite Href in Hst.
    rewrite Hsig in Ha.
    rewrite (import_rejected_eq sig l s Hf Hp Hmod Ha). split.
    + psimpl. repeat split; auto. apply load_error_message_names.
    + intros q id' h Hq. discriminate Hq.
  - subst ev. cbv zeta.
    destruct (rejected_model_is_local evs sig l p Hf Hp Ha) as [Hcells Hnext].
    split; [exact Hcells|].
    intros q id' h _ Hne. exact (Hnext id' h Hne).
Qed.

(* ------------------------------------------------------------------ *)
(** ** A load that succeeds *)

(** C3, as the code computes it.  When [Live2DModel.from] fulfils with a
    handle that reports the size (w, h) and the signal of the run is not
    aborted, on a surface of size (W, H), the handle that is attached has
    scale min(W/w, H/h) * 0.8 and position ((W - scale*w')/2,
    (H - scale*h')/2), where (w', h') is its intrinsic size and every
    operation is the IEEE double operation of the code, rounded: on an
    800 x 600 surface a 400 x 800 handle loaded at scale 1 gets scale
    0.6000000000000001 and position (280, 59.99999999999997).  This holds
    for handles whose [width] and [height] report the size on screen
    (current scale times intrinsic size), as the display objects of the
    rendering library do.  Under the same reading [loadModel] of the first
    version of the viewer computes the same scale and multiplies the size
    by it once more: it places that handle at (328, 155.99999999999997). *)
Theorem load_scales_and_centers :
  forall (s : State) (sig : nat) (l : Load) (p : string)
         (model : Live2DModelHandle),
    (forall m, width m = (scale m * internalWidth m)%float) ->
    (forall m, height m = (scale m * internalHeight m)%float) ->
    find_load sig s = Some l ->
    phase l = AwaitModel p ->
    aborted sig s = false ->
    let W := screen_width (app s) in
    let H := screen_height (app s) in
    let s' := step (ModelSettled sig (Some model)) s in
    let old := loadModel_scaleAndCenter (app s) model in
    exists m',
      live2dModelRef s' = Some m'
      /\ In m' (stage (app s'))
      /\ hid m' = hid model
      /\ scale m'
         = (Math_min (W / width model) (H / height model) * 0.8)%float
      /\ x m' = ((W - scale m' * internalWidth model) / 2)%float
      /\ y m' = ((H - scale m' * internalHeight model) / 2)%float
      /\ scale old = scale m'
      /\ x old
         = ((W - scale m' * internalWidth model * scale m') / 2)%float
      /\ y old
         = ((H - scale m' * internalHeight model * scale m') / 2)%float
      /\ (W = 800%float -> H = 600%float -> scale model = 1%float ->
          internalWidth model = 400%float ->
          internalHeight model = 800%float ->
          (scale m' = 0.6000000000000001%float
           /\ x m' = 280%float /\ y m' = 59.99999999999997%float)
          /\ (x old = 328%float /\ y old = 155.99999999999997%float)).
Proof.
  intros s sig l p model Hw Hh Hf Hp Ha W H s' old.
  exists (scaleAndCenter (app s) model).
  destruct (find_load_In sig s l Hf) as [_ Hsig]. subst sig.
  destruct (scaleAndCenter_display (app s) model Hw Hh) as (Hs & Hx & Hy).
  destruct (loadModel_scaleAndCenter_display (app s) model Hw Hh)
    as (Hos & Hox & Hoy).
  destruct (scaleAndCenter_formula (app s) model) as (_ & _ & _ & Hid & _).
  cbv zeta in Hs, Hx, Hy, Hid, Hos, Hox, Hoy.
  fold W H old in Hs, Hx, Hy, Hos, Hox, Hoy.
  assert (Hstate : live2dModelRef s' = Some (scaleAndCenter (app s) model)
                   /\ In (scaleAndCenter (app s) model) (stage (app s'))).
  { subst s'. rewrite (fulfilled_eq (signal l) l p model s Hf Hp Ha).
    cbv zeta. psimpl. unfold push.
    split; [reflexivity | apply in_or_app; right; left; reflexivity]. }
  destruct Hstate as [Hr Hin]. rewrite Hos in Hox, Hoy.
  split; [exact Hr|]. split; [exact Hin|]. split; [exact Hid|].
  split; [exact Hs|]. split; [exact Hx|]. split; [exact Hy|].
  split; [exact Hos|]. split; [exact Hox|]. split; [exact Hoy|].
  intros EW EH E1 Ew Eh.
  rewrite Hox, Hoy, Hx, Hy, Hs, (Hw model), (Hh model), E1, EW, EH, Ew, Eh.
  repeat split; reflexivity.
Qed.

(* ------------------------------------------------------------------ *)
(** ** What the cells show *)

Lemma Inv2_same_cells (s s' : State) :
  same_cells s s' -> Inv2 s -> Inv2 s'.
Proof.
  intros (Hs & Hm & Hl & Ha & Hr & Hp & Hd & Hli & Hq & Hma)
    [[J1 J2 J3 J4 J5 J6 J9] J7 J8].
  unfold aborted in *.
  constructor; [constructor|..]; unfold aborted;
    rewrite ?Hs, ?Hm, ?Hl, ?Ha, ?Hr, ?Hp, ?Hd, ?Hli, ?Hq, ?Hma; assumption.
Qed.

Lemma Inv2core_setSelectedModel (n : ModelName) (s : State) :
  Inv2core s -> Inv2core (setSelectedModel n s).
Proof.
  intros [J1 J2 J3 J4 J5 J6 J9]. constructor; psimpl; assumption.
Qed.

Lemma Inv2core_set_abortedSignals (abs : list nat) (s : State) :
  Inv2core s -> Inv2core (set_abortedSignals abs s).
Proof.
  intros [J1 J2 J3 J4 J5 J6 J9]. constructor; psimpl; assumption.
Qed.

Lemma in_push {A : Type} (a x : A) (l : list A) :
  In x (l ++ [a]) -> In x l \/ x = a.
Proof.
  intros H. apply in_app_iff in H. destruct H as [H|[H|[]]]; auto.
Qed.

(** A run of the load effect, in both cases, after its cleanup. *)
Lemma loadEffect_eq (s : State) :
  exists abs,
    (forall g, In g abs -> In g (abortedSignals s) \/ loadCleanup s = Some g)
    /\ loadEffect_cleanup s = set_abortedSignals abs s
    /\ loadEffect s =
       if appReady (session s) && pixiAppRef s then
         set_loadCleanup (Some (nextSignal s))
           (loadLive2DModel (selectedModel (session s)) (nextSignal s)
              (set_nextSignal (S (nextSignal s)) (set_abortedSignals abs s)))
       else set_loadCleanup None (set_abortedSignals abs s).
Proof.
  destruct (loadEffect_cleanup_eq s) as (abs & Hc & Habs).
  exists abs. split; [exact Habs|]. split; [exact Hc|].
  unfold loadEffect. rewrite Hc. destruct_state s. reflexivity.
Qed.

Lemma loadEffect_Inv2 (s : State) :
  Inv s -> mounted s = true -> Inv2core s -> Inv2 (loadEffect s).
Proof.
  intros I Hm C. destruct (loadEffect_eq s) as (abs & Habs & Hc & ->).
  destruct (loadEffect_cleanup_Inv s I) as [_ Hall]. rewrite Hc in Hall.
  unfold aborted in Hall. psimpl.
  destruct C as [J1 J2 J3 J4 J5 J6 J9].
  destruct (appReady (session s) && pixiAppRef s) eqn:Hready.
  - apply andb_true_iff in Hready. destruct Hready as [Hr Hp].
    rewrite loadLive2DModel_eq.
    constructor; [constructor|..]; unfold aborted; psimpl.
    + intros l p Hl Hph. apply in_push in Hl. destruct Hl as [Hl| ->].
      * exact (J1 l p Hl Hph).
      * discriminate Hph.
    + discriminate.
    + discriminate.
    + rewrite Hr. discriminate.
    + exact J5.
    + exact J6.
    + exact J9.
    + intros l Hl Ha. apply in_push in Hl. destruct Hl as [Hl| ->].
      * rewrite (Hall l Hl) in Ha. discriminate.
      * reflexivity.
    + intros l _ _. split; reflexivity.
  - constructor; [constructor|..]; unfold aborted; psimpl; try assumption.
    + intros l Hl Ha. rewrite (Hall l Hl) in Ha. discriminate.
    + intros l Hl Ha. rewrite (Hall l Hl) in Ha. discriminate.
Qed.

Lemma select_Inv2 (n : ModelName) (s : State) :
  Inv s -> Inv2 s -> Inv2 (step (SelectModel n) s).
Proof.
  intros I J. destruct (ModelName_eqb n (selectedModel (session s))) eqn:E.
  - apply ModelName_eqb_eq in E. subst n. rewrite select_same. exact J.
  - assert (Hne : n <> selectedModel (session s)).
    { intros ->. rewrite ModelName_eqb_refl in E. discriminate. }
    destruct (mounted s) eqn:Hm.
    + rewrite (select_other n s Hm Hne). apply loadEffect_Inv2.
      * unfold setSelectedModel. apply Inv_session; [reflexivity | exact I].
      * destruct_state s. exact Hm.
      * apply Inv2core_setSelectedModel, J.
    + unfold step. rewrite Hm. exact J.
Qed.

Lemma remove_load_Inv2 (sig : nat) (s : State) :
  Inv2 s -> Inv2 (remove_load sig s).
Proof.
  intros [[J1 J2 J3 J4 J5 J6 J9] J7 J8].
  constructor; [constructor|..]; unfold aborted in *; psimpl;
    try assumption.
  - intros l p Hl. apply filter_In in Hl. apply J1. tauto.
  - intros Hr. destruct (J4 Hr) as (-> & H2 & H3). auto.
  - intros l Hl. apply filter_In in Hl. apply J7. tauto.
  - intros l Hl. apply filter_In in Hl. apply J8. tauto.
Qed.

(** The runs in flight beside one whose signal is not aborted are all
    aborted. *)
Lemma others_aborted (l : Load) (s : State) :
  Inv s -> In l (loads s) -> aborted (signal l) s = false ->
  forall l', In l' (loads s) -> signal l' <> signal l ->
             aborted (signal l') s = true.
Proof.
  intros I Hl Ha l' Hl' Hne.
  destruct (aborted (signal l') s) eqn:Ea; [reflexivity|].
  destruct (inv_live s I l Hl Ha) as [_ Hc].
  destruct (inv_live s I l' Hl' Ea) as [_ Hc']. congruence.
Qed.

Lemma NoDup_map_inj {A B : Type} (f : A -> B) (ls : list A) (a b : A) :
  NoDup (map f ls) -> In a ls -> In b ls -> f a = f b -> a = b.
Proof.
  induction ls as [|c ls IH]; simpl; intros Hnd Ha Hb Hf; [destruct Ha|].
  inversion Hnd as [|? ? Hnot Hnd']; subst.
  destruct Ha as [->|Ha], Hb as [->|Hb]; auto.
  - exfalso. apply Hnot. rewrite Hf. apply in_map. exact Hb.
  - exfalso. apply Hnot. rewrite <- Hf. apply in_map. exact Ha.
Qed.

Lemma catch_Inv2 (l : Load) (s : State) :
  Inv s -> Inv2 s -> In l (loads s) ->
  Inv2 (loadLive2DModel_catch l (remove_load (signal l) s)).
Proof.
  intros I J Hl. unfold loadLive2DModel_catch.
  replace (aborted (signal l) (remove_load (signal l) s))
    with (aborted (signal l) s) by (destruct_state s; reflexivity).
  destruct (aborted (signal l) s) eqn:Ha; [apply remove_load_Inv2, J|].
  destruct (inv_live s I l Hl Ha) as [Href _].
  pose proof (others_aborted l s I Hl Ha) as Hoth.
  destruct J as [[J1 J2 J3 J4 J5 J6 J9] J7 J8].
  constructor; [constructor|..]; unfold aborted in *; psimpl;
    try assumption.
  - intros l' p Hl'. apply filter_In in Hl'. apply J1. tauto.
  - rewrite Href. discriminate.
  - reflexivity.
  - intros Hr. destruct (J4 Hr) as (-> & H2 & H3). auto.
  - intros l' Hl' Ha'. apply filter_In in Hl'. destruct Hl' as [Hl' Hne].
    apply negb_true_iff, Nat.eqb_neq in Hne.
    rewrite (Hoth l' Hl' Hne) in Ha'. discriminate.
  - intros l' Hl' Ha'. apply filter_In in Hl'. destruct Hl' as [Hl' Hne].
    apply negb_true_iff, Nat.eqb_neq in Hne.
    rewrite (Hoth l' Hl' Hne) in Ha'. discriminate.
Qed.

Lemma set_phase_In2 (sig : nat) (ph : LoadPhase) (ls : list Load) (l' : Load) :
  In l' (set_phase sig ph ls) ->
  (In l' ls /\ signal l' <> sig)
  \/ exists l0, In l0 ls /\ signal l0 = sig
                /\ l' = mkLoad (signal l0) (modelName l0) ph.
Proof.
  unfold set_phase. intros H. apply in_map_iff in H.
  destruct H as (l0 & Heq & Hl0).
  destruct (signal l0 =? sig) eqn:E.
  - right. exists l0. apply Nat.eqb_eq in E. auto.
  - left. subst l'. apply Nat.eqb_neq in E. auto.
Qed.

Lemma afterModule_Inv2 (l : Load) (s : State) :
  Inv s -> Inv2 s -> In l (loads s) ->
  Inv2 (loadLive2DModel_afterModule l s).
Proof.
  intros I J Hl. unfold loadLive2DModel_afterModule.
  destruct (live2dModule s) as [[| |]|]; try exact J.
  - destruct (aborted (signal l) s) eqn:Ha; [apply remove_load_Inv2, J|].
    pose proof (inv_nodup s I) as Hnd.
    destruct J as [[J1 J2 J3 J4 J5 J6 J9] J7 J8].
    assert (Hsame : forall l', In l' (set_phase (signal l)
                       (AwaitModel (getModelPath (modelName l))) (loads s)) ->
              (In l' (loads s))
              \/ (l' = mkLoad (signal l) (modelName l)
                         (AwaitModel (getModelPath (modelName l))))).
    { intros l' Hl'. apply set_phase_In2 in Hl'.
      destruct Hl' as [[H _]|(l0 & H0 & Hs0 & ->)]; [left; exact H|].
      right. rewrite (NoDup_map_inj signal (loads s) l0 l Hnd H0 Hl Hs0).
      reflexivity. }
    constructor; [constructor|..]; unfold aborted in *; psimpl;
      try assumption.
    + intros l' p Hl' Hp. destruct (Hsame l' Hl') as [H| ->].
      * exact (J1 l' p H Hp).
      * injection Hp as <-. reflexivity.
    + intros Hr. destruct (J4 Hr) as (Hnil & _). rewrite Hnil in Hl.
      destruct Hl.
    + intros l' Hl' Ha'. destruct (Hsame l' Hl') as [H| ->].
      * exact (J7 l' H Ha').
      * exact (J7 l Hl Ha).
    + intros l' Hl' Ha'. destruct (Hsame l' Hl') as [H| ->].
      * exact (J8 l' H Ha').
      * exact (J8 l Hl Ha).
  - apply catch_Inv2; assumption.
Qed.

Lemma afterModel_Inv2 (l : Load) (r : option Live2DModelHandle) (s : State) :
  Inv s -> Inv2 s -> In l (loads s) ->
  Inv2 (loadLive2DModel_afterModel l r s).
Proof.
  intros I J Hl. unfold loadLive2DModel_afterModel. cbv zeta.
  destruct r as [model|]; [|apply catch_Inv2; assumption].
  replace (aborted (signal l) (remove_load (signal l) s))
    with (aborted (signal l) s) by (destruct_state s; reflexivity).
  destruct (aborted (signal l) s) eqn:Ha.
  - apply (Inv2_same_cells (remove_load (signal l) s));
      [|apply remove_load_Inv2, J].
    destruct_state s. repeat split.
  - pose proof (others_aborted l s I Hl Ha) as Hoth.
    destruct J as [[J1 J2 J3 J4 J5 J6 J9] J7 J8].
    destruct (J8 l Hl Ha) as [_ Herr].
    constructor; [constructor|..]; unfold aborted in *; psimpl;
      try assumption.
    + intros l' p Hl'. apply filter_In in Hl'. apply J1. tauto.
    + intros m [= <-]. rewrite settings_of_scaleAndCenter. auto.
    + reflexivity.
    + intros Hr. destruct (J4 Hr) as (Hnil & _). rewrite Hnil in Hl.
      destruct Hl.
    + intros l' Hl' Ha'. apply filter_In in Hl'. destruct Hl' as [Hl' Hne].
      apply negb_true_iff, Nat.eqb_neq in Hne.
      rewrite (Hoth l' Hl' Hne) in Ha'. discriminate.
    + intros l' Hl' Ha'. apply filter_In in Hl'. destruct Hl' as [Hl' Hne].
      apply negb_true_iff, Nat.eqb_neq in Hne.
      rewrite (Hoth l' Hl' Hne) in Ha'. discriminate.
Qed.

Lemma app_ready_Inv (W H : float) (s : State) :
  Inv s -> appPending s = true -> mountAborted s = false ->
  Inv (setAppReady true
         (set_pixiAppRef true
            (set_app (mkPixiApp W H [] 0) (set_appPending false s)))).
Proof.
  intros I Hp Hab.
  destruct (inv_pending s I Hp) as (Href & Hloads & Hclean & Hready & Hpix).
  destruct I. destruct_state s. hsimpl. subst.
  constructor; hsimpl; auto; try discriminate.
Qed.

Lemma createPixiApp_fulfilled_Inv2 (W H : float) (s : State) :
  Inv s -> Inv2 s -> appPending s = true ->
  Inv2 (createPixiApp_fulfilled W H (set_appPending false s)).
Proof.
  intros I J Hp. unfold createPixiApp_fulfilled. cbv zeta.
  destruct (inv_pending s I Hp) as (Href & Hloads & Hclean & Hready & Hpix).
  pose proof (inv_unmounted s I) as Hun.
  replace (mountAborted (set_app (mkPixiApp W H [] 0)
                            (set_appPending false s)))
    with (mountAborted s) by (destruct_state s; reflexivity).
  destruct J as [[J1 J2 J3 J4 J5 J6 J9] J7 J8].
  destruct (mountAborted s) eqn:Hab.
  - constructor; [constructor|..]; unfold aborted in *; psimpl;
      try assumption.
    all: try (rewrite Hready; discriminate).
    intros Hmt. specialize (J9 Hmt). discriminate.
  - assert (Hm : mounted s = true).
    { destruct (mounted s); [reflexivity|].
      pose proof (Hun eq_refl) as Hx. congruence. }
    unfold render. psimpl. rewrite Hm. cbn [andb].
    assert (C : Inv2core (setAppReady true
                  (set_pixiAppRef true
                     (set_app (mkPixiApp W H [] 0)
                        (set_appPending false s))))).
    { constructor; psimpl; try assumption; try discriminate;
        try (intros _; exact Hab).
      intros _. rewrite Hm. split; reflexivity. }
    destruct (deps_changed _ _).
    + apply loadEffect_Inv2; [apply app_ready_Inv; assumption | | exact C].
      destruct_state s. exact Hm.
    + constructor; [exact C|..]; unfold aborted; psimpl;
        rewrite Hloads; intros l [].
Qed.

Lemma createPixiApp_rejected_Inv2 (s : State) :
  Inv s -> Inv2 s -> appPending s = true ->
  Inv2 (createPixiApp_rejected (set_appPending false s)).
Proof.
  intros I J Hp. unfold createPixiApp_rejected.
  destruct (inv_pending s I Hp) as (Href & Hloads & Hclean & Hready & Hpix).
  replace (mountAborted (set_appPending false s)) with (mountAborted s)
    by (destruct_state s; reflexivity).
  destruct (mountAborted s).
  - apply (Inv2_same_cells s); [destruct_state s; repeat split | exact J].
  - destruct J as [[J1 J2 J3 J4 J5 J6 J9] J7 J8].
    constructor; [constructor|..]; unfold aborted in *; psimpl;
      try assumption; try reflexivity;
      try (rewrite Href; discriminate);
      try (rewrite Hloads; intros l []).
Qed.

Lemma unmount_Inv2 (s : State) :
  Inv s -> Inv2 s -> mounted s = true ->
  Inv2 (set_mounted false (teardown s)).
Proof.
  intros I J Hm. rewrite teardown_eq.
  destruct (cancelAnimationFrame_Inv s I) as [_ Hq].
  unfold cancelAnimationFrame in Hq. psimpl.
  destruct J as [[J1 J2 J3 J4 J5 J6 J9] J7 J8].
  assert (Hab : forall g,
            existsb (Nat.eqb g)
              match loadCleanup s with
              | Some sig => if aborted sig s then abortedSignals s
                            else sig :: abortedSignals s
              | None => abortedSignals s
              end = false ->
            existsb (Nat.eqb g) (abortedSignals s) = false).
  { intros g. destruct (loadCleanup s) as [sig|]; [|auto].
    destruct (aborted sig s); [auto|]. cbn [existsb]. intros H.
    apply orb_false_iff in H. tauto. }
  constructor; [constructor|..]; unfold aborted in *; psimpl;
    try assumption.
  - intros Hr. destruct (J4 Hr) as (H1 & H2 & _). auto.
  - intros Hr. specialize (J5 Hr). rewrite Hm in J5.
    destruct J5 as [-> ->]. split; reflexivity.
  - intros _. split; [reflexivity | exact Hq].
  - discriminate.
  - intros l Hl Ha. apply (J7 l Hl), Hab, Ha.
  - intros l Hl Ha. apply (J8 l Hl), Hab, Ha.
Qed.

Lemma handleMouseMove_Inv2 (e : MouseEvent) (s : State) :
  Inv2 s -> listening s = true -> Inv2 (handleMouseMove e s).
Proof.
  intros J Hl. unfold handleMouseMove.
  destruct (live2dModelRef s) as [m|] eqn:Hm; [|exact J].
  destruct J as [[J1 J2 J3 J4 J5 J6 J9] J7 J8].
  unfold requestAnimationFrame, cancelAnimationFrame.
  constructor; [constructor|..]; unfold aborted in *; psimpl;
    try assumption.
  intros Hmt. destruct (J6 Hmt) as [Hf _]. congruence.
Qed.

Lemma animationFrame_Inv2 (rect : DOMRect) (s : State) :
  Inv2 s -> Inv2 (animationFrame rect s).
Proof.
  intros J. unfold animationFrame. rewrite fold_frameCallback_calls.
  destruct J as [[J1 J2 J3 J4 J5 J6 J9] J7 J8].
  constructor; [constructor|..]; unfold aborted in *; psimpl;
    try assumption.
  intros Hmt. destruct (J6 Hmt) as [Hf _]. auto.
Qed.

Lemma Inv2_init : Inv2 init.
Proof.
  constructor; [constructor|..]; unfold aborted, init;
    cbn [session mounted app appPending mountAborted pixiAppRef
         live2dModule live2dModelRef loads abortedSignals listening rafQueue
         appReady isLoading error expressions motions selectedModel
         destroy_calls].
  - intros l p [].
  - discriminate.
  - discriminate.
  - auto.
  - discriminate.
  - discriminate.
  - reflexivity.
  - intros l [].
  - intros l [].
Qed.

Lemma step_Inv2 (ev : Event) (s : State) :
  Inv s -> Inv2 s -> Inv2 (step ev s).
Proof.
  intros I J.
  destruct ev as [r|W H|nm|ok|sig|sig r|e|e rect|rect|n|g i|].
  - unfold step. destruct (appPending s) eqn:Hp; [|exact J].
    destruct r as [[W H]|].
    + apply createPixiApp_fulfilled_Inv2; assumption.
    + apply createPixiApp_rejected_Inv2; assumption.
  - apply (Inv2_same_cells s); [destruct_state s; repeat split | exact J].
  - apply select_Inv2; assumption.
  - unfold step. destruct (live2dModule s) as [[| |]|]; try exact J.
    apply (Inv2_same_cells s); [destruct_state s; repeat split | exact J].
  - unfold step. destruct (find_load sig s) as [l|] eqn:Hf; [|exact J].
    destruct (phase l); [|exact J]. apply afterModule_Inv2; try assumption.
    apply find_load_In in Hf. tauto.
  - unfold step. destruct (find_load sig s) as [l|] eqn:Hf; [|exact J].
    destruct (phase l); [exact J|]. apply afterModel_Inv2; try assumption.
    apply find_load_In in Hf. tauto.
  - unfold step. destruct (listening s) eqn:Hl; [|exact J].
    apply handleMouseMove_Inv2; assumption.
  - unfold step, handleClick. destruct (listening s); [|exact J].
    destruct (live2dModelRef s); [|exact J].
    apply (Inv2_same_cells s); [destruct_state s; repeat split | exact J].
  - apply animationFrame_Inv2. exact J.
  - unfold step, playExpression. destruct (live2dModelRef s); [|exact J].
    apply (Inv2_same_cells s); [destruct_state s; repeat split | exact J].
  - unfold step, playMotion. destruct (live2dModelRef s); [|exact J].
    apply (Inv2_same_cells s); [destruct_state s; repeat split | exact J].
  - unfold step. destruct (mounted s) eqn:Hm; [|exact J].
    apply unmount_Inv2; assumption.
Qed.

Lemma reachable_Inv2 (evs : list Event) : Inv2 (run evs init).
Proof.
  induction evs as [|ev evs IH] using rev_ind; [exact Inv2_init|].
  rewrite run_app. apply step_Inv2; [apply reachable_Inv | exact IH].
Qed.
(* ------------------------------------------------------------------ *)
(** ** What the view relies on *)

Lemma InvView_same (s s' : State) :
  session s' = session s -> appPending s' = appPending s ->
  live2dModelRef s' = live2dModelRef s ->
  live2dModule s' = live2dModule s -> InvView s -> InvView s'.
Proof.
  intros Hs Hp Hr Hmo [V1 V2 V3 V4 V5].
  constructor; rewrite ?Hs, ?Hp, ?Hr, ?Hmo; assumption.
Qed.

Lemma loadEffect_InvView_ready (s : State) :
  appReady (session s) = true -> pixiAppRef s = true ->
  InvView (loadEffect s).
Proof.
  intros Hr Hp. destruct (loadEffect_eq s) as (abs & _ & _ & ->).
  rewrite Hr, Hp. cbn [andb]. rewrite loadLive2DModel_eq.
  constructor; psimpl.
  - intros _. split; reflexivity.
  - rewrite Hr. discriminate.
  - discriminate.
  - discriminate.
  - discriminate.
Qed.

Lemma loadEffect_InvView_idle (s : State) :
  appReady (session s) && pixiAppRef s = false ->
  InvView s -> InvView (loadEffect s).
Proof.
  intros Hr V. destruct (loadEffect_eq s) as (abs & _ & _ & ->).
  rewrite Hr. apply (InvView_same s); [| | | |exact V];
    destruct_state s; reflexivity.
Qed.

Lemma select_InvView (n : ModelName) (s : State) :
  Inv2 s -> InvView s -> InvView (step (SelectModel n) s).
Proof.
  intros J V. destruct (ModelName_eqb n (selectedModel (session s))) eqn:E.
  - apply ModelName_eqb_eq in E. subst n. rewrite select_same. exact V.
  - assert (Hne : n <> selectedModel (session s)).
    { intros ->. rewrite ModelName_eqb_refl in E. discriminate. }
    destruct (mounted s) eqn:Hm; [|unfold step; rewrite Hm; exact V].
    rewrite (select_other n s Hm Hne).
    destruct (appReady (session s)) eqn:Hr.
    + pose proof (j_surface s (j_core s J) Hr) as Hsurf. rewrite Hm in Hsurf.
      destruct Hsurf as [Hpix _].
      apply loadEffect_InvView_ready; destruct_state s; assumption.
    + apply loadEffect_InvView_idle.
      { destruct_state s. psimpl. cbn in Hr. rewrite Hr. reflexivity. }
      destruct V as [V1 V2 V3 V4 V5].
      constructor; psimpl; try assumption.
      intros msg Hmsg. specialize (V4 msg Hmsg). rewrite Hr in *. exact V4.
Qed.

Lemma remove_load_InvView (sig : nat) (s : State) :
  InvView s -> InvView (remove_load sig s).
Proof.
  apply InvView_same; destruct_state s; reflexivity.
Qed.

(** A run whose signal is not aborted was started on a ready surface. *)
Lemma live_run_ready (l : Load) (s : State) :
  Inv s -> In l (loads s) -> aborted (signal l) s = false ->
  live2dModelRef s = None /\ mounted s = true
  /\ appReady (session s) = true /\ pixiAppRef s = true
  /\ appPending s = false.
Proof.
  intros I Hl Ha. destruct (inv_live s I l Hl Ha) as [Href Hc].
  destruct (inv_cleanup_live s I _ Hc Ha) as (Hm & Hr & Hp).
  repeat split; try assumption.
  destruct (appPending s) eqn:E; [|reflexivity].
  destruct (inv_pending s I E) as (_ & _ & _ & Hr' & _). congruence.
Qed.

Lemma catch_InvView (l : Load) (s : State) :
  Inv s -> Inv2 s -> InvView s -> In l (loads s) ->
  InvView (loadLive2DModel_catch l (remove_load (signal l) s)).
Proof.
  intros I J V Hl. unfold loadLive2DModel_catch.
  replace (aborted (signal l) (remove_load (signal l) s))
    with (aborted (signal l) s) by (destruct_state s; reflexivity).
  destruct (aborted (signal l) s) eqn:Ha; [apply remove_load_InvView, V|].
  destruct (live_run_ready l s I Hl Ha) as (Href & Hm & Hr & Hp & Hpe).
  pose proof (j_selected s J l Hl Ha) as Hsel.
  constructor; psimpl.
  - rewrite Hpe. discriminate.
  - rewrite Hr. discriminate.
  - intros _ _. repeat split. discriminate.
  - intros msg [= <-]. rewrite Hr, Hsel. reflexivity.
  - rewrite Href. discriminate.
Qed.

Lemma afterModule_InvView (l : Load) (s : State) :
  Inv s -> Inv2 s -> InvView s -> In l (loads s) ->
  InvView (loadLive2DModel_afterModule l s).
Proof.
  intros I J V Hl. unfold loadLive2DModel_afterModule.
  destruct (live2dModule s) as [[| |]|]; try exact V.
  - destruct (aborted (signal l) s); [apply remove_load_InvView, V|].
    apply (InvView_same s); [| | | |exact V]; destruct_state s; reflexivity.
  - apply catch_InvView; assumption.
Qed.

Lemma afterModel_InvView (l : Load) (p : string)
    (r : option Live2DModelHandle) (s : State) :
  Inv s -> Inv2 s -> InvView s -> In l (loads s) ->
  phase l = AwaitModel p ->
  InvView (loadLive2DModel_afterModel l r s).
Proof.
  intros I J V Hl Hph. unfold loadLive2DModel_afterModel. cbv zeta.
  destruct r as [model|]; [|apply catch_InvView; assumption].
  replace (aborted (signal l) (remove_load (signal l) s))
    with (aborted (signal l) s) by (destruct_state s; reflexivity).
  destruct (aborted (signal l) s) eqn:Ha.
  - apply (InvView_same s); [| | | |exact V]; destruct_state s; reflexivity.
  - destruct (live_run_ready l s I Hl Ha) as (Href & Hm & Hr & Hp & Hpe).
    destruct (j_loading s J l Hl Ha) as [_ Herr].
    constructor; psimpl.
    + rewrite Hpe. discriminate.
    + rewrite Hr. discriminate.
    + discriminate.
    + rewrite Herr. discriminate.
    + intros _ _. exact (inv_model_phase s I l p Hl Hph).
Qed.

Lemma createPixiApp_fulfilled_InvView (W H : float) (s : State) :
  Inv s -> InvView s -> appPending s = true ->
  InvView (createPixiApp_fulfilled W H (set_appPending false s)).
Proof.
  intros I V Hp. unfold createPixiApp_fulfilled. cbv zeta.
  destruct (inv_pending s I Hp) as (Href & Hloads & Hclean & Hready & Hpix).
  destruct (v_pending s V Hp) as [Hload Herr].
  replace (mountAborted (set_app (mkPixiApp W H [] 0)
                            (set_appPending false s)))
    with (mountAborted s) by (destruct_state s; reflexivity).
  destruct (mountAborted s) eqn:Hab.
  - destruct V as [V1 V2 V3 V4 V5].
    constructor; psimpl; try assumption. discriminate.
  - unfold render.
    destruct (_ && _).
    + apply loadEffect_InvView_ready; destruct_state s; reflexivity.
    + constructor; psimpl.
      * discriminate.
      * discriminate.
      * rewrite Hload. discriminate.
      * rewrite Herr. discriminate.
      * rewrite Href. discriminate.
Qed.

Lemma createPixiApp_rejected_InvView (s : State) :
  Inv s -> InvView s -> appPending s = true ->
  InvView (createPixiApp_rejected (set_appPending false s)).
Proof.
  intros I V Hp. unfold createPixiApp_rejected.
  destruct (inv_pending s I Hp) as (Href & Hloads & Hclean & Hready & Hpix).
  destruct (v_blank s V Hready) as [He Hmo].
  replace (mountAborted (set_appPending false s)) with (mountAborted s)
    by (destruct_state s; reflexivity).
  destruct V as [V1 V2 V3 V4 V5].
  destruct (mountAborted s).
  - constructor; psimpl; try assumption. discriminate.
  - constructor; psimpl; try assumption.
    + discriminate.
    + intros _ _. repeat split; try assumption. discriminate.
    + intros msg [= <-]. rewrite Hready. reflexivity.
Qed.

Lemma InvView_init : InvView init.
Proof.
  constructor; unfold init;
    cbn [session appPending live2dModelRef live2dModule appReady isLoading
         error expressions motions selectedModel].
  - intros _. split; reflexivity.
  - intros _. split; reflexivity.
  - discriminate.
  - discriminate.
  - discriminate.
Qed.

Lemma step_InvView (ev : Event) (s : State) :
  Inv s -> Inv2 s -> InvView s -> InvView (step ev s).
Proof.
  intros I J V. destruct ev as [r|W H|nm|ok|sig|sig r|e|e rect|rect|n|g i|].
  - unfold step. destruct (appPending s) eqn:Hp; [|exact V].
    destruct r as [[W H]|].
    + apply createPixiApp_fulfilled_InvView; assumption.
    + apply createPixiApp_rejected_InvView; assumption.
  - apply (InvView_same s); [| | | |exact V]; destruct_state s; reflexivity.
  - apply select_InvView; assumption.
  - unfold step. destruct (live2dModule s) as [[| |]|] eqn:Hmo; try exact V.
    destruct V as [V1 V2 V3 V4 V5].
    constructor; psimpl; try assumption.
    intros m Hm. specialize (V5 m Hm). congruence.
  - unfold step. destruct (find_load sig s) as [l|] eqn:Hf; [|exact V].
    destruct (find_load_In sig s l Hf) as [Hl _].
    destruct (phase l); [|exact V].
    apply afterModule_InvView; assumption.
  - unfold step. destruct (find_load sig s) as [l|] eqn:Hf; [|exact V].
    destruct (find_load_In sig s l Hf) as [Hl _].
    destruct (phase l) as [|p] eqn:Hph; [exact V|].
    apply (afterModel_InvView l p); assumption.
  - unfold step. destruct (listening s); [|exact V].
    unfold handleMouseMove. destruct (live2dModelRef s) eqn:Hm; [|exact V].
    apply (InvView_same s); [| | | |exact V]; destruct_state s; reflexivity.
  - unfold step. destruct (listening s); [|exact V].
    unfold handleClick. destruct (live2dModelRef s) eqn:Hm; [|exact V].
    apply (InvView_same s); [| | | |exact V]; destruct_state s; reflexivity.
  - unfold step, animationFrame. rewrite fold_frameCallback_calls.
    apply (InvView_same s); [| | | |exact V]; destruct_state s; reflexivity.
  - unfold step, playExpression.
    destruct (live2dModelRef s) eqn:Hm; [|exact V].
    apply (InvView_same s); [| | | |exact V]; destruct_state s; reflexivity.
  - unfold step, playMotion.
    destruct (live2dModelRef s) eqn:Hm; [|exact V].
    apply (InvView_same s); [| | | |exact V]; destruct_state s; reflexivity.
  - unfold step. destruct (mounted s); [|exact V]. rewrite teardown_eq.
    apply (InvView_same s); [| | | |exact V]; reflexivity.
Qed.

(** The three invariants hold together in every state the hook reaches. *)
Lemma reachable_all (evs : list Event) :
  Inv (run evs init) /\ Inv2 (run evs init) /\ InvView (run evs init).
Proof.
  induction evs as [|ev evs IH] using rev_ind.
  - split; [exact Inv_init|]. split; [exact Inv2_init | exact InvView_init].
  - rewrite run_app. simpl. destruct IH as (I & J & V).
    split; [apply step_Inv, I|].
    split; [apply step_Inv2; assumption | apply step_InvView; assumption].
Qed.

(* ------------------------------------------------------------------ *)
(** ** Every handle is accounted for *)

Lemma effect_none (ev : Event) (s s' : State) :
  delivered_by ev s = [] -> calls s' = calls s ->
  live2dModelRef s' = live2dModelRef s -> call_effect ev s s'.
Proof.
  intros Hd Hc Hr. apply (effect_focus ev s s' []); auto.
  rewrite app_nil_r. exact Hc.
Qed.

Lemma hid_scaleAndCenter (a : PixiApp) (model : Live2DModelHandle) :
  hid (scaleAndCenter a model) = hid model.
Proof. reflexivity. Qed.

(** What a run of the load effect does to the handles. *)
Lemma loadEffect_handles (s : State) :
  (calls (loadEffect s) = calls s
   /\ live2dModelRef (loadEffect s) = live2dModelRef s)
  \/ (exists m, live2dModelRef s = Some m
                /\ calls (loadEffect s) = (calls s ++ [(hid m, Destroy)])%list
                /\ live2dModelRef (loadEffect s) = None).
Proof.
  destruct (loadEffect_eq s) as (abs & _ & _ & ->).
  destruct (appReady (session s) && pixiAppRef s).
  - rewrite loadLive2DModel_eq. psimpl.
    destruct (live2dModelRef s) as [m|] eqn:Hm.
    + right. exists m. auto.
    + left. auto.
  - left. psimpl. auto.
Qed.

Lemma step_effect (ev : Event) (s : State) :
  Inv s -> call_effect ev s (step ev s).
Proof.
  intros I. destruct ev as [r|W H|nm|ok|sig|sig r|e|e rect|rect|n|g i|].
  - unfold step. destruct (appPending s) eqn:Hp;
      [|apply effect_none; reflexivity].
    destruct (inv_pending s I Hp) as (Href & _).
    destruct r as [[W H]|].
    + unfold createPixiApp_fulfilled. cbv zeta.
      match goal with
      | |- context [if ?b then _ else _] => destruct b
      end.
      * apply effect_none; destruct_state s; reflexivity.
      * unfold render.
        match goal with
        | |- context [if ?b then _ else _] => destruct b
        end.
        -- match goal with
           | |- call_effect _ _ (loadEffect ?X) =>
               destruct (loadEffect_handles X) as [[Hc Hr]|(m & Hm & _)]
           end.
           ++ apply effect_none; [reflexivity| |].
              ** rewrite Hc. destruct_state s. reflexivity.
              ** rewrite Hr. destruct_state s. reflexivity.
           ++ exfalso. psimpl. congruence.
        -- apply effect_none; destruct_state s; reflexivity.
    + unfold createPixiApp_rejected.
      match goal with
      | |- context [if ?b then _ else _] => destruct b
      end; apply effect_none; destruct_state s; reflexivity.
  - apply effect_none; destruct_state s; reflexivity.
  - destruct (ModelName_eqb nm (selectedModel (session s))) eqn:E.
    + apply ModelName_eqb_eq in E. subst nm. rewrite select_same.
      apply effect_none; reflexivity.
    + assert (Hne : nm <> selectedModel (session s)).
      { intros ->. rewrite ModelName_eqb_refl in E. discriminate. }
      destruct (mounted s) eqn:Hm;
        [|unfold step; rewrite Hm; apply effect_none; reflexivity].
      rewrite (select_other nm s Hm Hne).
      destruct (loadEffect_handles (setSelectedModel nm s))
        as [[Hc Hr]|(m & Href & Hc & Hr)].
      * apply effect_none; [reflexivity| |].
        -- rewrite Hc. destruct_state s. reflexivity.
        -- rewrite Hr. destruct_state s. reflexivity.
      * apply (effect_detach _ _ _ m); [reflexivity| | |exact Hr].
        -- rewrite <- Href. destruct_state s. reflexivity.
        -- rewrite Hc. destruct_state s. reflexivity.
  - unfold step. destruct (live2dModule s) as [[| |]|];
      apply effect_none; destruct_state s; reflexivity.
  - unfold step. destruct (find_load sig s) as [l|] eqn:Hf;
      [|apply effect_none; reflexivity].
    destruct (phase l); [|apply effect_none; reflexivity].
    unfold loadLive2DModel_afterModule, loadLive2DModel_catch.
    destruct (live2dModule s) as [[| |]|];
      try (apply effect_none; reflexivity).
    + destruct (aborted (signal l) s);
        apply effect_none; destruct_state s; reflexivity.
    + match goal with
      | |- context [if ?b then _ else _] => destruct b
      end; apply effect_none; destruct_state s; reflexivity.
  - unfold step. cbn [delivered_by].
    destruct (find_load sig s) as [l|] eqn:Hf; [|destruct r;
      apply effect_none; cbn [delivered_by]; rewrite ?Hf; reflexivity].
    destruct (find_load_In sig s l Hf) as [Hl Hsig].
    destruct (phase l) eqn:Hph; [destruct r;
      apply effect_none; cbn [delivered_by]; rewrite ?Hf, ?Hph; reflexivity|].
    unfold loadLive2DModel_afterModel, loadLive2DModel_catch. cbv zeta.
    replace (aborted (signal l) (remove_load (signal l) s))
      with (aborted (signal l) s) by (destruct_state s; reflexivity).
    destruct r as [model|].
    + destruct (aborted (signal l) s) eqn:Ha.
      * apply (effect_discard _ _ _ (hid model)).
        -- cbn [delivered_by]. rewrite Hf, Hph. reflexivity.
        -- destruct_state s. reflexivity.
        -- destruct_state s. reflexivity.
      * destruct (inv_live s I l Hl Ha) as [Href _].
        apply (effect_attach _ _ _
                 (scaleAndCenter (app (remove_load (signal l) s)) model)).
        -- cbn [delivered_by]. rewrite Hf, Hph. reflexivity.
        -- exact Href.
        -- destruct_state s. reflexivity.
        -- destruct_state s. reflexivity.
    + destruct (aborted (signal l) s);
        apply effect_none; cbn [delivered_by]; try reflexivity;
        destruct_state s; reflexivity.
  - unfold step. destruct (listening s); [|apply effect_none; reflexivity].
    unfold handleMouseMove. destruct (live2dModelRef s) eqn:Hm;
      [|apply effect_none; auto].
    apply effect_none; [reflexivity| |]; destruct_state s; reflexivity.
  - unfold step. destruct (listening s); [|apply effect_none; reflexivity].
    unfold handleClick. destruct (live2dModelRef s) as [m|] eqn:Hm;
      [|apply effect_none; auto].
    apply (effect_action _ _ _ m (Tap (clientX e - left rect)%float (clientY e - top rect)%float)); try reflexivity;
      try exact Hm; destruct_state s; reflexivity.
  - unfold step, animationFrame. rewrite fold_frameCallback_calls.
    eapply effect_focus; [reflexivity| |psimpl; reflexivity|
                          destruct_state s; reflexivity].
    apply Forall_forall. intros c Hc. apply in_map_iff in Hc.
    destruct Hc as (p & <- & _). split; reflexivity.
  - unfold step, playExpression.
    destruct (live2dModelRef s) as [m|] eqn:Hm; [|apply effect_none; auto].
    apply (effect_action _ _ _ m (Expression n)); try reflexivity;
      try exact Hm; destruct_state s; reflexivity.
  - unfold step, playMotion.
    destruct (live2dModelRef s) as [m|] eqn:Hm; [|apply effect_none; auto].
    apply (effect_action _ _ _ m (Motion g i)); try reflexivity;
      try exact Hm; destruct_state s; reflexivity.
  - unfold step. destruct (mounted s); [|apply effect_none; reflexivity].
    rewrite teardown_eq. apply effect_none; reflexivity.
Qed.

Lemma destroyed_calls (s s' : State) (fs : list (nat * HandleCall)) :
  calls s' = (calls s ++ fs)%list ->
  destroyed s' = (destroyed s ++ map fst (filter is_destroy fs))%list.
Proof.
  intros H. unfold destroyed. rewrite H, filter_app, map_app. reflexivity.
Qed.

Lemma filter_quiet (fs : list (nat * HandleCall)) :
  Forall (fun c => is_destroy c = false /\ is_action (snd c) = false) fs ->
  filter is_destroy fs = [].
Proof.
  induction 1 as [|c fs [Hc _] _ IH]; simpl; [reflexivity|].
  rewrite Hc. exact IH.
Qed.

Lemma is_action_not_destroy (h : nat) (c : HandleCall) :
  is_action c = true -> is_destroy (h, c) = false.
Proof. destruct c; simpl; intros H; try reflexivity; discriminate H. Qed.

(** One step: what was destroyed or is attached after it is what was
    destroyed or attached before it, and the handle it delivered. *)
Lemma step_account (ev : Event) (s : State) :
  Inv s ->
  Permutation (destroyed (step ev s) ++ attached (step ev s))
              (destroyed s ++ attached s ++ delivered_by ev s).
Proof.
  intros I. unfold attached.
  destruct (step_effect ev s I)
    as [fs Hd Hq Hc Hr | m c Hd Hm Ha Hc Hr | m Hd Hm Hc Hr
        | h Hd Hc Hr | m' Hd Hm Hc Hr];
    rewrite Hd, Hr; try rewrite (destroyed_calls _ _ _ Hc).
  - rewrite (filter_quiet fs Hq). simpl. rewrite !app_nil_r. reflexivity.
  - simpl. rewrite (is_action_not_destroy _ _ Ha). simpl.
    rewrite !app_nil_r. reflexivity.
  - rewrite Hm. simpl. rewrite !app_nil_r. reflexivity.
  - simpl. rewrite <- app_assoc. apply Permutation_app_head.
    apply Permutation_app_comm.
  - unfold destroyed. rewrite Hc, Hm. reflexivity.
Qed.

Lemma delivered_snoc (evs : list Event) (ev : Event) :
  forall s0,
    delivered (evs ++ [ev]) s0 =
    (delivered evs s0 ++ delivered_by ev (run evs s0))%list.
Proof.
  induction evs as [|e evs IH]; intros s0; simpl.
  - rewrite app_nil_r. reflexivity.
  - rewrite IH, app_assoc. reflexivity.
Qed.

Lemma run_account (evs : list Event) :
  Permutation (delivered evs init)
    (destroyed (run evs init) ++ attached (run evs init)).
Proof.
  induction evs as [|ev evs IH] using rev_ind; [reflexivity|].
  rewrite delivered_snoc, run_app. simpl.
  rewrite (step_account ev _ (reachable_Inv evs)), IH.
  rewrite <- !app_assoc. reflexivity.
Qed.

(** *** No use after [destroy] *)

Lemma app_snoc_split {A : Type} (cs pre post : list A) (x y : A) :
  (cs ++ [x] = pre ++ y :: post)%list ->
  (post = [] /\ pre = cs /\ y = x)
  \/ (exists post', post = (post' ++ [x])%list
                    /\ cs = (pre ++ y :: post')%list).
Proof.
  intros H. destruct post as [|z post] using rev_ind.
  - left. apply app_inj_tail in H. destruct H as [-> ->]. auto.
  - right. clear IHpost. exists post.
    change (pre ++ y :: post ++ [z])%list
      with (pre ++ (y :: post) ++ [z])%list in H.
    rewrite app_assoc in H. apply app_inj_tail in H.
    destruct H as [-> ->]. auto.
Qed.

Lemma naad_nil : no_action_after_destroy [].
Proof. intros [|? pre] h c post H; discriminate H. Qed.

Lemma naad_snoc_action (cs : list (nat * HandleCall)) (h : nat)
    (c : HandleCall) :
  no_action_after_destroy cs -> ~ In (h, Destroy) cs ->
  no_action_after_destroy (cs ++ [(h, c)]).
Proof.
  intros Hcs Hnot pre h' c' post Heq Hact.
  apply app_snoc_split in Heq.
  destruct Heq as [(_ & -> & [= -> ->]) | (post' & _ & ->)].
  - exact Hnot.
  - exact (Hcs pre h' c' post' eq_refl Hact).
Qed.

Lemma naad_snoc_quiet (cs : list (nat * HandleCall)) (h : nat)
    (c : HandleCall) :
  no_action_after_destroy cs -> is_action c = false ->
  no_action_after_destroy (cs ++ [(h, c)]).
Proof.
  intros Hcs Hq pre h' c' post Heq Hact.
  apply app_snoc_split in Heq.
  destruct Heq as [(_ & -> & [= -> ->]) | (post' & _ & ->)].
  - congruence.
  - exact (Hcs pre h' c' post' eq_refl Hact).
Qed.

Lemma naad_app_quiet (cs fs : list (nat * HandleCall)) :
  no_action_after_destroy cs ->
  Forall (fun c => is_destroy c = false /\ is_action (snd c) = false) fs ->
  no_action_after_destroy (cs ++ fs).
Proof.
  intros Hcs Hq. induction fs as [|[h c] fs IH] using rev_ind.
  - rewrite app_nil_r. exact Hcs.
  - apply Forall_app in Hq. destruct Hq as [Hq Hx].
    inversion Hx as [|? ? [_ Hc] _]; subst. rewrite app_assoc.
    apply naad_snoc_quiet; [apply IH, Hq | exact Hc].
Qed.

Lemma in_destroyed (h : nat) (s : State) :
  In (h, Destroy) (calls s) <-> In h (destroyed s).
Proof.
  unfold destroyed. rewrite in_map_iff. split.
  - intros H. exists (h, Destroy). split; [reflexivity|].
    apply filter_In. auto.
  - intros ([h' c] & <- & H). apply filter_In in H. destruct H as [H Hd].
    destruct c; try discriminate Hd. exact H.
Qed.

Lemma run_naad (evs : list Event) :
  NoDup (delivered evs init) ->
  no_action_after_destroy (calls (run evs init)).
Proof.
  induction evs as [|ev evs IH] using rev_ind; intros Hnd;
    [exact naad_nil|].
  rewrite delivered_snoc in Hnd.
  pose proof (NoDup_app_remove_r _ _ Hnd) as Hnd0.
  specialize (IH Hnd0). rewrite run_app. simpl.
  pose proof (reachable_Inv evs) as I.
  pose proof (Permutation_NoDup (run_account evs) Hnd0) as Hacc.
  destruct (step_effect ev _ I)
    as [fs Hd Hq Hc Hr | m c Hd Hm Ha Hc Hr | m Hd Hm Hc Hr
        | h Hd Hc Hr | m' Hd Hm Hc Hr]; rewrite Hc.
  - apply naad_app_quiet; assumption.
  - apply naad_snoc_action; [exact IH|].
    rewrite in_destroyed. unfold attached in Hacc. rewrite Hm in Hacc.
    simpl in Hacc. apply NoDup_remove_2 in Hacc.
    rewrite app_nil_r in Hacc. exact Hacc.
  - apply naad_snoc_quiet; [exact IH | reflexivity].
  - apply naad_snoc_quiet; [exact IH | reflexivity].
  - exact IH.
Qed.

(* ------------------------------------------------------------------ *)
(** ** After unmount, and after a failed creation of the surface *)

(** Once the component is unmounted every run in flight is aborted. *)
Lemma unmounted_aborted (s : State) :
  Inv s -> mounted s = false ->
  forall l, In l (loads s) -> aborted (signal l) s = true.
Proof.
  intros I Hm l Hl. destruct (aborted (signal l) s) eqn:Ha; [reflexivity|].
  destruct (inv_live s I l Hl Ha) as [_ Hc].
  destruct (inv_cleanup_live s I _ Hc Ha) as (Hm' & _). congruence.
Qed.

Lemma step_unmounted (ev : Event) (s : State) :
  Inv s -> Inv2 s -> mounted s = false ->
  session (step ev s) = session s
  /\ live2dModelRef (step ev s) = live2dModelRef s
  /\ mounted (step ev s) = false
  /\ exists new, calls (step ev s) = (calls s ++ new)%list
                 /\ Forall (fun c => is_pointer (snd c) = false) new.
Proof.
  intros I J Hm.
  pose proof (inv_unmounted s I Hm) as Hab.
  pose proof (unmounted_aborted s I Hm) as Hall.
  destruct (j_unmounted s (j_core s J) Hm) as [Hli Hq].
  assert (Hsame : forall s', session s' = session s ->
            live2dModelRef s' = live2dModelRef s -> mounted s' = mounted s ->
            calls s' = calls s ->
            session s' = session s
            /\ live2dModelRef s' = live2dModelRef s
            /\ mounted s' = false
            /\ exists new, calls s' = (calls s ++ new)%list
                 /\ Forall (fun c => is_pointer (snd c) = false) new).
  { intros s' H1 H2 H3 H4. repeat split; try congruence.
    exists []. rewrite app_nil_r. auto. }
  assert (Hone : forall s' h c, session s' = session s ->
            live2dModelRef s' = live2dModelRef s -> mounted s' = mounted s ->
            calls s' = (calls s ++ [(h, c)])%list -> is_pointer c = false ->
            session s' = session s
            /\ live2dModelRef s' = live2dModelRef s
            /\ mounted s' = false
            /\ exists new, calls s' = (calls s ++ new)%list
                 /\ Forall (fun c => is_pointer (snd c) = false) new).
  { intros s' h c H1 H2 H3 H4 H5. repeat split; try congruence.
    exists [(h, c)]. auto. }
  pose proof (Hsame s eq_refl eq_refl eq_refl eq_refl) as Hs.
  destruct ev as [r|W H|nm|ok|sig|sig r|e|e rect|rect|n|g i|]; unfold step;
    rewrite ?Hli; try exact Hs;
    try (rewrite Hm; exact Hs).
  - destruct (appPending s); [|apply Hsame; reflexivity].
    destruct r as [[W H]|].
    + unfold createPixiApp_fulfilled. cbv zeta.
      replace (mountAborted (set_app (mkPixiApp W H [] 0)
                                (set_appPending false s)))
        with (mountAborted s) by (destruct_state s; reflexivity).
      rewrite Hab. apply Hsame; destruct_state s; reflexivity.
    + unfold createPixiApp_rejected.
      replace (mountAborted (set_appPending false s)) with (mountAborted s)
        by (destruct_state s; reflexivity).
      rewrite Hab. apply Hsame; destruct_state s; reflexivity.
  - destruct (live2dModule s) as [[| |]|];
      apply Hsame; destruct_state s; reflexivity.
  - destruct (find_load sig s) as [l|] eqn:Hf; [|apply Hsame; reflexivity].
    destruct (find_load_In sig s l Hf) as [Hl _].
    destruct (phase l); [|apply Hsame; reflexivity].
    unfold loadLive2DModel_afterModule, loadLive2DModel_catch.
    replace (aborted (signal l) (remove_load (signal l) s))
      with (aborted (signal l) s) by (destruct_state s; reflexivity).
    rewrite (Hall l Hl).
    destruct (live2dModule s) as [[| |]|];
      apply Hsame; destruct_state s; reflexivity.
  - destruct (find_load sig s) as [l|] eqn:Hf; [|apply Hsame; reflexivity].
    destruct (find_load_In sig s l Hf) as [Hl _].
    destruct (phase l); [apply Hsame; reflexivity|].
    unfold loadLive2DModel_afterModel, loadLive2DModel_catch. cbv zeta.
    replace (aborted (signal l) (remove_load (signal l) s))
      with (aborted (signal l) s) by (destruct_state s; reflexivity).
    rewrite (Hall l Hl). destruct r as [model|].
    + apply (Hone _ (hid model) Destroy);
        try reflexivity; destruct_state s; reflexivity.
    + apply Hsame; destruct_state s; reflexivity.
  - unfold animationFrame. rewrite fold_frameCallback_calls, Hq.
    apply Hsame; try (destruct_state s; reflexivity).
    psimpl. apply app_nil_r.
  - unfold playExpression. destruct (live2dModelRef s) as [m|] eqn:Href;
      [|apply Hsame; auto].
    apply (Hone _ (hid m) (Expression n)); try reflexivity;
      try (destruct_state s; reflexivity).
    destruct_state s. psimpl. exact Href.
  - unfold playMotion. destruct (live2dModelRef s) as [m|] eqn:Href;
      [|apply Hsame; auto].
    apply (Hone _ (hid m) (Motion g i)); try reflexivity;
      try (destruct_state s; reflexivity).
    destruct_state s. psimpl. exact Href.
Qed.

Lemma run_unmounted (evs2 evs1 : list Event) :
  mounted (run evs1 init) = false ->
  session (run (evs1 ++ evs2) init) = session (run evs1 init)
  /\ live2dModelRef (run (evs1 ++ evs2) init)
     = live2dModelRef (run evs1 init)
  /\ mounted (run (evs1 ++ evs2) init) = false
  /\ exists new,
       calls (run (evs1 ++ evs2) init) = (calls (run evs1 init) ++ new)%list
       /\ Forall (fun c => is_pointer (snd c) = false) new.
Proof.
  intros Hm. induction evs2 as [|ev evs2 IH] using rev_ind.
  - rewrite app_nil_r. repeat split; try assumption.
    exists []. rewrite app_nil_r. auto.
  - destruct IH as (Hs & Hr & Hm2 & new & Hc & Hnew).
    rewrite app_assoc, run_app. simpl.
    destruct (reachable_all (evs1 ++ evs2)) as (I & J & _).
    destruct (step_unmounted ev _ I J Hm2)
      as (Hs' & Hr' & Hm' & new' & Hc' & Hnew').
    repeat split; try congruence.
    exists (new ++ new')%list. split.
    + rewrite Hc', Hc, app_assoc. reflexivity.
    + apply Forall_app. auto.
Qed.

(** Before the surface is ready a step changes no cell but
    [selectedModel]. *)
Lemma step_not_ready (ev : Event) (s : State) :
  Inv2 s -> appPending s = false -> appReady (session s) = false ->
  appPending (step ev s) = false
  /\ appReady (session (step ev s)) = false
  /\ isLoading (session (step ev s)) = isLoading (session s)
  /\ error (session (step ev s)) = error (session s).
Proof.
  intros J Hp Hr.
  destruct (j_not_ready s (j_core s J) Hr) as (Hloads & Href & Hpix).
  assert (Hf : forall sig, find_load sig s = None).
  { intros sig. unfold find_load. rewrite Hloads. reflexivity. }
  assert (Hs : appPending s = false
               /\ appReady (session s) = false
               /\ isLoading (session s) = isLoading (session s)
               /\ error (session s) = error (session s)) by auto.
  destruct ev as [r|W H|nm|ok|sig|sig r|e|e rect|rect|n|g i|]; unfold step;
    rewrite ?Hf; try exact Hs.
  - rewrite Hp. exact Hs.
  - destruct (mounted s); [|exact Hs]. unfold render.
    match goal with
    | |- context [if ?b then _ else _] => destruct b
    end; [|exact Hs].
    destruct (loadEffect_eq (setSelectedModel nm s)) as (abs & _ & _ & ->).
    replace (appReady (session (setSelectedModel nm s)))
      with (appReady (session s)) by reflexivity.
    rewrite Hr. cbn [andb]. exact Hs.
  - destruct (live2dModule s) as [[| |]|]; exact Hs.
  - destruct (listening s); [|exact Hs]. unfold handleMouseMove.
    rewrite Href. exact Hs.
  - destruct (listening s); [|exact Hs]. unfold handleClick.
    rewrite Href. exact Hs.
  - unfold animationFrame. rewrite fold_frameCallback_calls. exact Hs.
  - unfold playExpression. rewrite Href. exact Hs.
  - unfold playMotion. rewrite Href. exact Hs.
  - destruct (mounted s); [|exact Hs]. rewrite teardown_eq. exact Hs.
Qed.

(* ------------------------------------------------------------------ *)
(** ** The cached import *)

Lemma loadEffect_module (s : State) (p : ModulePromise) :
  live2dModule s = Some p -> live2dModule (loadEffect s) = Some p.
Proof.
  intros H. destruct (loadEffect_eq s) as (abs & _ & _ & ->).
  destruct (appReady (session s) && pixiAppRef s).
  - rewrite loadLive2DModel_eq. psimpl. rewrite H. reflexivity.
  - exact H.
Qed.

(** A settled import stays as it settled. *)
Lemma step_module_settled (ev : Event) (s : State) (p : ModulePromise) :
  p <> Pending -> live2dModule s = Some p ->
  live2dModule (step ev s) = Some p.
Proof.
  intros Hp H.
  destruct ev as [r|W H0|nm|ok|sig|sig r|e|e rect|rect|n|g i|]; unfold step;
    try exact H.
  - destruct (appPending s); [|exact H]. destruct r as [[W H0]|].
    + unfold createPixiApp_fulfilled. cbv zeta.
      match goal with
      | |- context [if ?b then _ else _] => destruct b
      end; [exact H|]. unfold render.
      match goal with
      | |- context [if ?b then _ else _] => destruct b
      end; [|exact H]. apply loadEffect_module. exact H.
    + unfold createPixiApp_rejected.
      match goal with
      | |- context [if ?b then _ else _] => destruct b
      end; exact H.
  - destruct (mounted s); [|exact H]. unfold render.
    match goal with
    | |- context [if ?b then _ else _] => destruct b
    end; [|exact H]. apply loadEffect_module. exact H.
  - rewrite H. destruct p; [congruence| |]; exact H.
  - destruct (find_load sig s) as [l|]; [|exact H].
    destruct (phase l); [|exact H].
    unfold loadLive2DModel_afterModule, loadLive2DModel_catch. rewrite H.
    destruct p; [congruence| |].
    + destruct (aborted (signal l) s); exact H.
    + match goal with
      | |- context [if ?b then _ else _] => destruct b
      end; exact H.
  - destruct (find_load sig s) as [l|]; [|exact H].
    destruct (phase l); [exact H|].
    unfold loadLive2DModel_afterModel, loadLive2DModel_catch. cbv zeta.
    destruct r as [model|];
      match goal with
      | |- context [if ?b then _ else _] => destruct b
      end; exact H.
  - destruct (listening s); [|exact H]. unfold handleMouseMove.
    destruct (live2dModelRef s); exact H.
  - destruct (listening s); [|exact H]. unfold handleClick.
    destruct (live2dModelRef s); exact H.
  - unfold animationFrame. rewrite fold_frameCallback_calls. exact H.
  - unfold playExpression. destruct (live2dModelRef s); exact H.
  - unfold playMotion. destruct (live2dModelRef s); exact H.
  - destruct (mounted s); [|exact H]. rewrite teardown_eq. exact H.
Qed.

Lemma run_module_settled (evs : list Event) :
  forall (s : State) (p : ModulePromise),
    p <> Pending -> live2dModule s = Some p ->
    live2dModule (run evs s) = Some p.
Proof.
  induction evs as [|ev evs IH]; intros s p Hp H; [exact H|].
  simpl. apply IH; [exact Hp|]. apply step_module_settled; assumption.
Qed.

(* ------------------------------------------------------------------ *)
(** ** Motion entries and their keys *)

Lemma in_spec_motion_entries (ms : list (string * list unknown))
    (e : MotionEntry) :
  In e (spec_motion_entries ms) <->
  exists items, In (group e, items) ms
                /\ index e < List.length items
                /\ name e = motion_label (group e) (index e).
Proof.
  unfold spec_motion_entries, spec_group_entries. rewrite in_flat_map.
  split.
  - intros ([g items] & Hin & He). apply in_map_iff in He.
    destruct He as (i & <- & Hi). apply in_seq in Hi. simpl in *.
    exists items. repeat split; [exact Hin | lia].
  - intros (items & Hin & Hi & Hn). exists (group e, items).
    split; [exact Hin|]. apply in_map_iff. exists (index e). simpl. split.
    + destruct e as [g n i]. simpl in *. subst n. reflexivity.
    + apply in_seq. lia.
Qed.

Lemma length_spec_motion_entries (ms : list (string * list unknown)) :
  List.length (spec_motion_entries ms)
  = list_sum (map (fun gi => List.length (snd gi)) ms).
Proof.
  induction ms as [|gi ms IH]; [reflexivity|].
  simpl. rewrite length_app, IH. unfold spec_group_entries.
  rewrite length_map, length_seq. reflexivity.
Qed.

Lemma extractMotions_spec (es : option (list Expr.t))
    (ms : list (string * list unknown)) :
  extractMotions (Some (Settings.mk es (Some ms))) = spec_motion_entries ms.
Proof. unfold extractMotions. simpl. apply (fold_forEach_push_spec ms []). Qed.

Lemma string_of_uint_no_dash (d : Decimal.uint) :
  ~ occurs "-" (NilEmpty.string_of_uint d).
Proof.
  induction d; simpl; try tauto; intros [H|H];
    try discriminate H; auto.
Qed.

Lemma occurs_app (c : ascii) (a b : string) :
  occurs c (a ++ String c b).
Proof. induction a; simpl; auto. Qed.

(** A key determines its group and its index: the digits of the index hold
    no dash. *)
Lemma key_split (a a' d d' : string) :
  ~ occurs "-" d -> ~ occurs "-" d' ->
  a ++ "-" ++ d = a' ++ "-" ++ d' -> a = a' /\ d = d'.
Proof.
  revert a'. induction a as [|c a IH]; intros [|c' a'] Hd Hd' H; simpl in H.
  - injection H as H. auto.
  - injection H as Hc H. exfalso. apply Hd. rewrite H.
    apply (occurs_app "-" a' d').
  - injection H as Hc H. exfalso. apply Hd'. rewrite <- H.
    apply (occurs_app "-" a d).
  - injection H as Hc H. destruct (IH a' Hd Hd' H) as [-> ->].
    subst c'. auto.
Qed.

Lemma string_of_nat_inj (n m : nat) :
  string_of_nat n = string_of_nat m -> n = m.
Proof.
  unfold string_of_nat. intros H. apply Unsigned.to_uint_inj.
  pose proof (NilEmpty.usu (Nat.to_uint n)) as Hn.
  pose proof (NilEmpty.usu (Nat.to_uint m)) as Hm.
  rewrite H in Hn. congruence.
Qed.

Lemma motion_key_inj (e1 e2 : MotionEntry) :
  motion_key e1 = motion_key e2 ->
  group e1 = group e2 /\ index e1 = index e2.
Proof.
  unfold motion_key. intros H. apply key_split in H.
  - destruct H as [Hg Hi]. split; [exact Hg|].
    apply string_of_nat_inj, Hi.
  - apply string_of_uint_no_dash.
  - apply string_of_uint_no_dash.
Qed.

Lemma NoDup_map_on {A B : Type} (f : A -> B) (l : list A) :
  (forall a b, In a l -> In b l -> f a = f b -> a = b) ->
  NoDup l -> NoDup (map f l).
Proof.
  intros Hinj Hnd. induction Hnd as [|a l Hnot Hnd IH]; simpl;
    constructor.
  - intros Hin. apply in_map_iff in Hin. destruct Hin as (b & Hb & Hin).
    apply Hnot. rewrite (Hinj a b); auto; [left; reflexivity | right; auto].
  - apply IH. intros x y Hx Hy. apply Hinj; right; assumption.
Qed.

Lemma NoDup_spec_motion_entries (ms : list (string * list unknown)) :
  NoDup (map fst ms) -> NoDup (spec_motion_entries ms).
Proof.
  induction ms as [|[g items] ms IH]; simpl; intros Hnd; [constructor|].
  inversion Hnd as [|? ? Hnot Hnd']; subst. apply NoDup_app.
  - unfold spec_group_entries. simpl. apply NoDup_map_on.
    + intros i j _ _ [= _ H]. exact H.
    + apply seq_NoDup.
  - apply IH, Hnd'.
  - intros e He Hin. unfold spec_group_entries in He. simpl in He.
    apply in_map_iff in He. destruct He as (i & <- & _).
    apply in_spec_motion_entries in Hin. destruct Hin as (its & Hin & _).
    simpl in Hin. apply Hnot. apply in_map_iff. exists (g, its). auto.
Qed.

(* ------------------------------------------------------------------ *)
(** ** The model catalogue *)

Lemma ModelName_string_inj (a b : ModelName) :
  ModelName_string a = ModelName_string b -> a = b.
Proof. destruct a, b; intros H; try reflexivity; discriminate H. Qed.

Lemma MODEL_NAMES_all (n : ModelName) : In n MODEL_NAMES.
Proof. destruct n; simpl; tauto. Qed.

(* ------------------------------------------------------------------ *)
(** ** The view *)

Lemma extractMotions_some (st : Settings.t) :
  extractMotions (Some st) =
  match Settings.motions st with
  | Some ms => spec_motion_entries ms
  | None => []
  end.
Proof.
  unfold extractMotions. destruct (Settings.motions st) as [ms|];
    [|reflexivity].
  apply (fold_forEach_push_spec ms []).
Qed.

Lemma in_expression_buttons (b : Button) (sel : ModelName)
    (es : list string) (ms : list MotionEntry) (ld : bool) :
  In b (buttons (expression_section (Live2DSidebar sel es ms ld))) ->
  exists e, In e es /\ b = expression_button ld e.
Proof.
  unfold Live2DSidebar. cbn [expression_section].
  destruct (0 <? List.length es); cbn [buttons]; [|intros []].
  intros H. apply in_map_iff in H. destruct H as (e & <- & He). eauto.
Qed.

Lemma in_motion_buttons (b : Button) (sel : ModelName)
    (es : list string) (ms : list MotionEntry) (ld : bool) :
  In b (buttons (motion_section (Live2DSidebar sel es ms ld))) ->
  exists m, In m ms /\ b = motion_button ld m.
Proof.
  unfold Live2DSidebar. cbn [motion_section].
  destruct (0 <? List.length ms); cbn [buttons]; [|intros []].
  intros H. apply in_map_iff in H. destruct H as (m & <- & Hm). eauto.
Qed.

Lemma motion_buttons_keys (sel : ModelName) (es : list string)
    (ms : list MotionEntry) (ld : bool) :
  map key (buttons (motion_section (Live2DSidebar sel es ms ld)))
  = map motion_key ms.
Proof.
  unfold Live2DSidebar. cbn [motion_section].
  destruct ms as [|m ms]; [reflexivity|].
  cbn [List.length Nat.ltb Nat.leb buttons]. rewrite map_map. reflexivity.
Qed.

Lemma load_error_message_truthy (n : ModelName) :
  Boolean (Some (load_error_message n)) = true.
Proof. destruct n; reflexivity. Qed.

(* ------------------------------------------------------------------ *)
(** ** The hook in every state it reaches *)

(** X1. The latest selection wins.  In a state the hook reaches, a run of
    [loadLive2DModel] whose signal is not aborted loads the model that is
    selected now, it asked [Live2DModel.from] for the path of that model, it
    is the run the load effect started last, and no other run in flight has
    a signal that is not aborted. *)
Theorem latest_selection_wins :
  forall (evs : list Event) (l : Load),
    let s := run evs init in
    In l (loads s) -> aborted (signal l) s = false ->
    modelName l = selectedModel (session s)
    /\ (forall p, phase l = AwaitModel p ->
                  p = getModelPath (selectedModel (session s)))
    /\ loadCleanup s = Some (signal l)
    /\ (forall l', In l' (loads s) -> aborted (signal l') s = false ->
                   l' = l).
Proof.
  intros evs l s Hl Ha. subst s.
  destruct (reachable_all evs) as (I & J & _).
  pose proof (j_selected _ J l Hl Ha) as Hsel.
  destruct (inv_live _ I l Hl Ha) as [_ Hc].
  split; [exact Hsel|]. split; [|split; [exact Hc|]].
  - intros p Hp. rewrite <- Hsel. exact (j_path _ (j_core _ J) l p Hl Hp).
  - intros l' Hl' Ha'. destruct (inv_live _ I l' Hl' Ha') as [_ Hc'].
    apply (NoDup_map_inj signal _ l' l (inv_nodup _ I) Hl' Hl). congruence.
Qed.

(** X2. While a run whose signal is not aborted is in flight, the session
    is loading and shows no error, no handle is attached and the stage is
    empty; the view shows the loading overlay and no error banner, and the
    model select and every button of the sidebar are disabled. *)
Theorem live_run_shows_loading :
  forall (evs : list Event) (l : Load),
    let s := run evs init in
    In l (loads s) -> aborted (signal l) s = false ->
    (isLoading (session s) = true /\ error (session s) = None
     /\ live2dModelRef s = None /\ stage (app s) = []
     /\ mounted s = true /\ appReady (session s) = true)
    /\ Live2DCanvas (isLoading (session s)) (error (session s))
       = mkCanvasView true None
    /\ select_disabled (snd (Live2DViewer s)) = true
    /\ Forall (fun b => disabled b = true)
         (buttons (expression_section (snd (Live2DViewer s)))
          ++ buttons (motion_section (snd (Live2DViewer s)))).
Proof.
  intros evs l s Hl Ha. subst s.
  destruct (reachable_all evs) as (I & J & _).
  destruct (j_loading _ J l Hl Ha) as [Hload Herr].
  destruct (live_run_ready l _ I Hl Ha) as (Href & Hm & Hr & _).
  pose proof (inv_stage _ I) as Hst. rewrite Href in Hst.
  split; [repeat split; assumption|].
  unfold Live2DViewer, Live2DSidebar, Live2DCanvas. cbv zeta.
  cbn [snd select_disabled expression_section motion_section].
  rewrite Hload, Herr. split; [reflexivity|]. split; [reflexivity|].
  apply Forall_app. split.
  - destruct (0 <? _); [|constructor]. cbn [buttons].
    apply Forall_forall. intros b Hb. apply in_map_iff in Hb.
    destruct Hb as (e & <- & _). reflexivity.
  - destruct (0 <? _); [|constructor]. cbn [buttons].
    apply Forall_forall. intros b Hb. apply in_map_iff in Hb.
    destruct Hb as (e & <- & _). reflexivity.
Qed.

(** X3. While a handle is attached, the cells describe that handle: the
    session is not loading and shows no error, the expressions and motions
    are the ones extracted from the settings of the attached handle, the
    stage holds that handle alone, the import is fulfilled, and every run
    still in flight is aborted. *)
Theorem attached_handle_is_described :
  forall (evs : list Event) (m : Live2DModelHandle),
    let s := run evs init in
    live2dModelRef s = Some m ->
    isLoading (session s) = false
    /\ error (session s) = None
    /\ expressions (session s) = extractExpressions (settings_of m)
    /\ motions (session s) = extractMotions (settings_of m)
    /\ stage (app s) = [m]
    /\ appReady (session s) = true
    /\ live2dModule s = Some Fulfilled
    /\ (forall l, In l (loads s) -> aborted (signal l) s = true).
Proof.
  intros evs m s Hm. subst s.
  destruct (reachable_all evs) as (I & J & V).
  destruct (j_attached _ (j_core _ J) m Hm) as (H1 & H2 & H3 & H4).
  pose proof (inv_stage _ I) as Hst. rewrite Hm in Hst.
  repeat split; try assumption.
  - destruct (appReady (session (run evs init))) eqn:Hr; [reflexivity|].
    destruct (j_not_ready _ (j_core _ J) Hr) as (_ & Hnone & _). congruence.
  - exact (v_module _ V m Hm).
  - intros l Hl. destruct (aborted (signal l) (run evs init)) eqn:Ha;
      [reflexivity|].
    destruct (inv_live _ I l Hl Ha) as [Hnone _]. congruence.
Qed.

(** X4. The rendering surface.  [app.destroy(true)] is called at most once.
    Until the surface is ready nothing is loaded, attached or listed.  Once
    it is ready, the hook holds it undestroyed for as long as the component
    is mounted, and after unmount it is released and was destroyed exactly
    once; after unmount the pointer listeners are removed and no frame
    callback is pending. *)
Theorem surface_lifecycle :
  forall evs : list Event,
    let s := run evs init in
    destroy_calls (app s) <= 1
    /\ (appReady (session s) = false ->
        loads s = [] /\ live2dModelRef s = None /\ pixiAppRef s = false
        /\ expressions (session s) = [] /\ motions (session s) = [])
    /\ (appReady (session s) = true ->
        if mounted s
        then pixiAppRef s = true /\ destroy_calls (app s) = 0
        else pixiAppRef s = false /\ destroy_calls (app s) = 1)
    /\ (mounted s = false -> listening s = false /\ rafQueue s = []).
Proof.
  intros evs s. subst s. destruct (reachable_all evs) as (I & J & V).
  split; [exact (proj1 (inv_destroy _ I))|]. split; [|split].
  - intros Hr. destruct (j_not_ready _ (j_core _ J) Hr) as (H1 & H2 & H3).
    destruct (v_blank _ V Hr) as [H4 H5]. repeat split; assumption.
  - exact (j_surface _ (j_core _ J)).
  - exact (j_unmounted _ (j_core _ J)).
Qed.

(** X5. When the component is unmounted before [createPixiApp] settles, a
    surface that arrives afterwards is destroyed at once and never stored,
    a rejection is dropped, and in both cases no cell changes and nothing is
    loaded. *)
Theorem creation_after_unmount_is_discarded :
  forall (evs : list Event) (r : option (float * float)),
    let s := run evs init in
    mounted s = false -> appPending s = true ->
    let s' := step (AppCreated r) s in
    session s' = session s
    /\ isLoading (session s') = true /\ error (session s') = None
    /\ appReady (session s') = false
    /\ pixiAppRef s' = false /\ loads s' = [] /\ live2dModelRef s' = None
    /\ destroy_calls (app s') = match r with
                                | Some _ => 1
                                | None => destroy_calls (app s)
                                end.
Proof.
  intros evs r s Hm Hp s'. subst s s'.
  destruct (reachable_all evs) as (I & J & V).
  destruct (inv_pending _ I Hp) as (Href & Hloads & _ & Hr & Hpix).
  destruct (v_pending _ V Hp) as [Hload Herr].
  pose proof (inv_unmounted _ I Hm) as Hab.
  unfold step. rewrite Hp. destruct r as [[W H]|].
  - unfold createPixiApp_fulfilled. cbv zeta.
    replace (mountAborted (set_app (mkPixiApp W H [] 0)
                              (set_appPending false (run evs init))))
      with (mountAborted (run evs init)) by reflexivity.
    rewrite Hab. psimpl. repeat split; assumption.
  - unfold createPixiApp_rejected.
    replace (mountAborted (set_appPending false (run evs init)))
      with (mountAborted (run evs init)) by reflexivity.
    rewrite Hab. psimpl. repeat split; assumption.
Qed.

(** X6. A failed creation of the surface is final.  When [createPixiApp]
    rejects while the component is mounted, the session stops loading and
    shows "Failed to initialize rendering engine."; whatever happens
    afterwards, that error stays, the surface is never ready, no run of
    [loadLive2DModel] is started, nothing is attached, and the view shows
    the banner with that text. *)
Theorem creation_failure_is_final :
  forall evs1 evs2 : list Event,
    let s := run evs1 init in
    mounted s = true -> appPending s = true ->
    let s' := run evs2 (step (AppCreated None) s) in
    error (session s') = Some "Failed to initialize rendering engine."
    /\ isLoading (session s') = false
    /\ appReady (session s') = false
    /\ loads s' = [] /\ live2dModelRef s' = None /\ stage (app s') = []
    /\ expressions (session s') = [] /\ motions (session s') = []
    /\ Live2DCanvas (isLoading (session s')) (error (session s'))
       = mkCanvasView false (Some "Failed to initialize rendering engine.").
Proof.
  intros evs1 evs2 s Hm Hp s'. subst s s'.
  destruct (reachable_all evs1) as (I & J & V).
  destruct (inv_pending _ I Hp) as (_ & _ & _ & Hr & _).
  pose proof (j_mounted _ (j_core _ J) Hm) as Hab.
  assert (H0 : let s0 := step (AppCreated None) (run evs1 init) in
               appPending s0 = false /\ appReady (session s0) = false
               /\ isLoading (session s0) = false
               /\ error (session s0)
                  = Some "Failed to initialize rendering engine.").
  { cbv zeta. unfold step. rewrite Hp. unfold createPixiApp_rejected.
    replace (mountAborted (set_appPending false (run evs1 init)))
      with (mountAborted (run evs1 init)) by reflexivity.
    rewrite Hab. psimpl. auto. }
  assert (Hrun : forall evs,
            let s' := run (evs1 ++ AppCreated None :: evs) init in
            appPending s' = false /\ appReady (session s') = false
            /\ isLoading (session s') = false
            /\ error (session s')
               = Some "Failed to initialize rendering engine.").
  { induction evs as [|ev evs IH] using rev_ind.
    - cbv zeta. rewrite run_app. exact H0.
    - cbv zeta in *. destruct IH as (P1 & P2 & P3 & P4).
      change (evs1 ++ AppCreated None :: evs ++ [ev])%list
        with (evs1 ++ (AppCreated None :: evs) ++ [ev])%list.
      rewrite app_assoc, run_app. simpl.
      destruct (reachable_all (evs1 ++ AppCreated None :: evs))
        as (_ & J' & _).
      destruct (step_not_ready ev _ J' P1 P2) as (Q1 & Q2 & Q3 & Q4).
      repeat split; congruence. }
  specialize (Hrun evs2). cbv zeta in Hrun.
  replace (run evs2 (step (AppCreated None) (run evs1 init)))
    with (run (evs1 ++ AppCreated None :: evs2) init)
    by (rewrite run_app; reflexivity).
  destruct Hrun as (P1 & P2 & P3 & P4).
  destruct (reachable_all (evs1 ++ AppCreated None :: evs2))
    as (I' & J' & V').
  destruct (j_not_ready _ (j_core _ J') P2) as (H1 & H2 & _).
  destruct (v_blank _ V' P2) as [H4 H5].
  pose proof (inv_stage _ I') as Hst. rewrite H2 in Hst.
  repeat split; try assumption.
  rewrite P3, P4. reflexivity.
Qed.

(** X7. Every handle is accounted for.  The handles [Live2DModel.from]
    delivered along a run are, up to order, the handles on which [destroy]
    was called and the handle [live2dModelRef] holds, at most one: nothing
    is destroyed or held that was not delivered, and a delivered handle
    that is not held was destroyed.  No cleanup of the hook destroys the
    handle that is held: unmount calls no method of any handle, and after
    unmount the handle stays in [live2dModelRef] whatever happens. *)
Theorem handles_accounted_for :
  forall evs : list Event,
    let s := run evs init in
    Permutation (delivered evs init) (destroyed s ++ attached s)
    /\ List.length (attached s) <= 1
    /\ (calls (step Unmount s) = calls s
        /\ attached (step Unmount s) = attached s)
    /\ (mounted s = false -> forall ev, attached (step ev s) = attached s).
Proof.
  intros evs s. split; [apply run_account|]. split; [|split].
  - unfold attached. destruct (live2dModelRef s); simpl; lia.
  - unfold step, attached. destruct (mounted s); [|auto].
    rewrite teardown_eq. auto.
  - intros Hm ev. subst s. destruct (reachable_all evs) as (I & J & _).
    destruct (step_unmounted ev _ I J Hm) as (_ & Hr & _).
    unfold attached. rewrite Hr. reflexivity.
Qed.

(** X8. After [destroy], only [focus].  When the loader delivers a fresh
    handle each time, no handle is destroyed twice, the handle that is held
    has not been destroyed, and the only method the hook ever calls on a
    handle after its [destroy] is [focus]: [tap], [expression] and [motion]
    read [live2dModelRef] when they are called, while a frame callback
    keeps the handle it captured (the input of C8). *)
Theorem only_focus_after_destroy :
  forall evs : list Event,
    let s := run evs init in
    NoDup (delivered evs init) ->
    NoDup (destroyed s)
    /\ (forall m, live2dModelRef s = Some m -> ~ In (hid m) (destroyed s))
    /\ (forall pre h c post,
          calls s = (pre ++ (h, c) :: post)%list ->
          In (h, Destroy) pre ->
          exists fx fy, c = Focus fx fy).
Proof.
  intros evs s Hnd. subst s.
  pose proof (Permutation_NoDup (run_account evs) Hnd) as Hacc.
  pose proof (NoDup_app_remove_r _ _ Hacc) as Hd.
  split; [exact Hd|]. split.
  - intros m Hm. unfold attached in Hacc. rewrite Hm in Hacc. simpl in Hacc.
    apply NoDup_remove_2 in Hacc. rewrite app_nil_r in Hacc. exact Hacc.
  - intros pre h c post Heq Hin.
    destruct c as [|fx fy|tx ty|n|g i].
    + exfalso. unfold destroyed in Hd. rewrite Heq, filter_app, map_app in Hd.
      cbn [filter is_destroy snd map fst] in Hd.
      apply NoDup_remove_2 in Hd. apply Hd, in_or_app. left.
      apply in_map_iff. exists (h, Destroy). split; [reflexivity|].
      apply filter_In. split; [exact Hin | reflexivity].
    + eauto.
    + exfalso. exact (run_naad evs Hnd pre h _ post Heq eq_refl Hin).
    + exfalso. exact (run_naad evs Hnd pre h _ post Heq eq_refl Hin).
    + exfalso. exact (run_naad evs Hnd pre h _ post Heq eq_refl Hin).
Qed.

(** X9. Nothing changes after unmount.  Once the component is unmounted,
    whatever happens afterwards (a surface, an import or a model that
    settles late, pointer events, frames, selections), no cell changes, the
    attached handle and the stage stay as they are, the view is the same,
    and neither [focus] nor [tap] is called again. *)
Theorem nothing_changes_after_unmount :
  forall evs1 evs2 : list Event,
    let s := run evs1 init in
    mounted s = false ->
    let s' := run evs2 s in
    session s' = session s
    /\ live2dModelRef s' = live2dModelRef s
    /\ stage (app s') = stage (app s)
    /\ mounted s' = false
    /\ Live2DViewer s' = Live2DViewer s
    /\ exists new, calls s' = (calls s ++ new)%list
                   /\ Forall (fun c => is_pointer (snd c) = false) new.
Proof.
  intros evs1 evs2 s Hm s'. subst s s'. rewrite <- run_app.
  destruct (run_unmounted evs2 evs1 Hm) as (Hs & Hr & Hm' & Hc).
  pose proof (inv_stage _ (reachable_Inv (evs1 ++ evs2))) as Hst'.
  pose proof (inv_stage _ (reachable_Inv evs1)) as Hst.
  repeat split; try assumption.
  - rewrite Hst', Hst, Hr. reflexivity.
  - unfold Live2DViewer. rewrite Hs. reflexivity.
Qed.

(** X10. At most one [focus] per frame.  In a state the hook reaches at
    most one frame callback is pending, the one [rafIdRef] names; a frame
    therefore calls [focus] at most once, on the handle the callback
    captured and at the position of its event relative to the container as
    it is at that frame, and leaves no callback pending. *)
Theorem at_most_one_focus_per_frame :
  forall (evs : list Event) (rect : DOMRect),
    let s := run evs init in
    let s' := step (AnimationFrame rect) s in
    List.length (rafQueue s) <= 1
    /\ (forall p, In p (rafQueue s) -> fst p = rafIdRef s)
    /\ rafQueue s' = []
    /\ calls s'
       = (calls s
          ++ map (fun p =>
                    (hid (cb_model (snd p)),
                     Focus (clientX (cb_event (snd p)) - left rect)%float
                           (clientY (cb_event (snd p)) - top rect)%float))
               (rafQueue s))%list
    /\ List.length (calls s') <= S (List.length (calls s)).
Proof.
  intros evs rect s s'. subst s s'. pose proof (reachable_Inv evs) as I.
  pose proof (inv_raf_len _ I) as Hlen.
  split; [exact Hlen|]. split; [exact (inv_raf _ I)|].
  unfold step, animationFrame. rewrite fold_frameCallback_calls. psimpl.
  split; [reflexivity|]. split; [reflexivity|].
  rewrite length_app, length_map. lia.
Qed.

(** One interaction while a handle is attached: the handle stays attached,
    the listeners stay, the calls it adds are [tap], [expression] or [motion]
    on that handle, and only a pointer move touches the pending callback. *)
Lemma interaction_step (ev : Event) (m : Live2DModelHandle) (s : State) :
  Inv s -> live2dModelRef s = Some m -> listening s = true ->
  is_interaction ev = true ->
  let s1 := step ev s in
  (Inv s1 /\ live2dModelRef s1 = Some m /\ listening s1 = true)
  /\ (exists acts,
        calls s1 = (calls s ++ acts)%list
        /\ Forall (fun c => fst c = hid m /\ is_action (snd c) = true) acts)
  /\ (is_move ev = false -> rafQueue s1 = rafQueue s)
  /\ (forall e, ev = MouseMove e ->
                map snd (rafQueue s1) = [mkFrameCallback e m]).
Proof.
  intros I Hm Hl Hev. cbv zeta. pose proof (step_Inv ev s I) as I1.
  assert (Hone : forall c, is_action c = true ->
            exists acts,
              (calls s ++ [(hid m, c)])%list = (calls s ++ acts)%list
              /\ Forall (fun c => fst c = hid m /\ is_action (snd c) = true)
                   acts).
  { intros c Hc. exists [(hid m, c)]. split; [reflexivity|].
    constructor; [split; [reflexivity | exact Hc] | constructor]. }
  destruct ev as [r|W H|nm|ok|sig|sig r|e|e rect|rect|n|g i|];
    try discriminate Hev; unfold step in *; rewrite ?Hl in *.
  - destruct (handleMouseMove_attached e m s I Hm) as (Hq & Hc & Hr & Hli).
    cbv zeta in Hq, Hc, Hr, Hli.
    split; [split; [exact I1|]; split; [exact Hr | congruence]|].
    split; [exists []; rewrite app_nil_r; split; [exact Hc | constructor]|].
    split; [discriminate|].
    intros e' [= <-]. rewrite Hq. reflexivity.
  - unfold handleClick in *. rewrite Hm in *.
    split; [split; [exact I1|]; split; assumption|].
    split; [apply Hone; reflexivity|].
    split; [reflexivity | discriminate].
  - unfold playExpression in *. rewrite Hm in *.
    split; [split; [exact I1|]; split; assumption|].
    split; [apply Hone; reflexivity|].
    split; [reflexivity | discriminate].
  - unfold playMotion in *. rewrite Hm in *.
    split; [split; [exact I1|]; split; assumption|].
    split; [apply Hone; reflexivity|].
    split; [reflexivity | discriminate].
Qed.

Lemma interaction_run (w : list Event) (m : Live2DModelHandle) :
  forall s,
    Inv s -> live2dModelRef s = Some m -> listening s = true ->
    forallb is_interaction w = true ->
    (Inv (run w s) /\ live2dModelRef (run w s) = Some m
     /\ listening (run w s) = true)
    /\ (exists acts,
          calls (run w s) = (calls s ++ acts)%list
          /\ Forall (fun c => fst c = hid m /\ is_action (snd c) = true)
               acts)
    /\ (forallb (fun ev => negb (is_move ev)) w = true ->
        rafQueue (run w s) = rafQueue s).
Proof.
  induction w as [|ev w IH]; intros s I Hm Hl Hw.
  - split; [auto|]. split; [|reflexivity].
    exists []. rewrite app_nil_r. auto.
  - cbn [forallb] in Hw. apply andb_true_iff in Hw. destruct Hw as [Hev Hw].
    destruct (interaction_step ev m s I Hm Hl Hev)
      as ((I1 & Hm1 & Hl1) & (a1 & Hc1 & Ha1) & Hq1 & _).
    cbv zeta in *.
    destruct (IH (step ev s) I1 Hm1 Hl1 Hw)
      as (HP & (a2 & Hc2 & Ha2) & Hq2).
    change (run (ev :: w) s) with (run w (step ev s)).
    split; [exact HP|]. split.
    + exists (a1 ++ a2)%list. split.
      * rewrite Hc2, Hc1, app_assoc. reflexivity.
      * apply Forall_app. auto.
    + cbn [forallb]. intros Hnm. apply andb_true_iff in Hnm.
      destruct Hnm as [Hn1 Hn2]. apply negb_true_iff in Hn1.
      rewrite (Hq2 Hn2). exact (Hq1 Hn1).
Qed.

(** X20. The last pointer move of a frame window wins.  While a handle is
    attached and the listeners are registered, let pointer moves, clicks and
    actions arrive in any order before a frame boundary, and let [e] be the
    last pointer move among them.  Then exactly one callback is pending at
    the boundary, the one of [e]; the frame makes exactly one [focus] call,
    on the attached handle, with the coordinates of [e] translated by the
    container's rectangle; no coordinates of an earlier move are forwarded;
    and the calls made inside the window are [tap], [expression] and
    [motion] on the attached handle. *)
Theorem last_move_wins :
  forall (evs before after : list Event) (e : MouseEvent) (rect : DOMRect)
         (m : Live2DModelHandle),
    let s := run evs init in
    listening s = true ->
    live2dModelRef s = Some m ->
    forallb is_interaction before = true ->
    forallb (fun ev => is_interaction ev && negb (is_move ev)) after = true ->
    let s' := run (before ++ MouseMove e :: after) s in
    map snd (rafQueue s') = [mkFrameCallback e m]
    /\ calls (step (AnimationFrame rect) s')
       = (calls s' ++ [(hid m, Focus (clientX e - left rect)%float
                                     (clientY e - top rect)%float)])%list
    /\ rafQueue (step (AnimationFrame rect) s') = []
    /\ exists acts,
         calls s' = (calls s ++ acts)%list
         /\ Forall (fun c => fst c = hid m /\ is_action (snd c) = true) acts.
Proof.
  intros evs before after e rect m s Hl Hm Hb Ha s'.
  pose proof (reachable_Inv evs) as I. fold s in I.
  assert (Ha1 : forallb is_interaction after = true
                /\ forallb (fun ev => negb (is_move ev)) after = true).
  { clear -Ha. induction after as [|ev w IH]; [auto|].
    cbn [forallb] in *. apply andb_true_iff in Ha. destruct Ha as [H1 H2].
    apply andb_true_iff in H1. destruct H1 as [H1 H3].
    destruct (IH H2) as [H4 H5]. rewrite H1, H3, H4, H5. auto. }
  destruct Ha1 as [Hai Han].
  destruct (interaction_run before m s I Hm Hl Hb)
    as ((I1 & Hm1 & Hl1) & (a1 & Hc1 & Hf1) & _).
  destruct (interaction_step (MouseMove e) m _ I1 Hm1 Hl1 eq_refl)
    as ((I2 & Hm2 & Hl2) & (a2 & Hc2 & Hf2) & _ & Hq2).
  cbv zeta in I2, Hm2, Hl2, Hc2, Hq2. specialize (Hq2 e eq_refl).
  destruct (interaction_run after m _ I2 Hm2 Hl2 Hai)
    as ((I3 & Hm3 & Hl3) & (a3 & Hc3 & Hf3) & Hq3).
  specialize (Hq3 Han).
  assert (Es : s' = run after (step (MouseMove e) (run before s))).
  { subst s'. rewrite run_app. reflexivity. }
  rewrite Es. clear Es.
  set (S' := run after (step (MouseMove e) (run before s))) in *.
  assert (Hq : map snd (rafQueue S') = [mkFrameCallback e m]).
  { rewrite Hq3. exact Hq2. }
  split; [exact Hq|].
  change (step (AnimationFrame rect) S') with (animationFrame rect S').
  destruct (animationFrame_calls rect S') as [-> ->].
  split.
  - f_equal.
    rewrite <- (map_map snd
                  (fun cb => (hid (cb_model cb),
                              Focus (clientX (cb_event cb) - left rect)%float
                                    (clientY (cb_event cb) - top rect)%float))).
    rewrite Hq. reflexivity.
  - split; [reflexivity|].
    exists (a1 ++ a2 ++ a3)%list. split.
    + rewrite Hc3, Hc2, Hc1, <- !app_assoc. reflexivity.
    + repeat (apply Forall_app; split); assumption.
Qed.

(* ------------------------------------------------------------------ *)
(** ** The hook and its view *)

(** X11. An enabled button plays on the attached handle.  In a state the
    hook reaches, every button of the sidebar that is not disabled belongs
    to the handle that is attached: pressing an expression button calls
    [expression] on that handle with a name extracted from its settings, and
    pressing a motion button calls [motion] on it with a group of its
    settings and an index inside that group. *)
Theorem enabled_button_plays_attached_model :
  forall (evs : list Event) (b : Button),
    let s := run evs init in
    let v := snd (Live2DViewer s) in
    In b (buttons (expression_section v) ++ buttons (motion_section v)) ->
    disabled b = false ->
    exists m c,
      live2dModelRef s = Some m
      /\ calls (step (onClick b) s) = (calls s ++ [(hid m, c)])%list
      /\ ((exists e, c = Expression e /\ label b = e
                     /\ In e (extractExpressions (settings_of m)))
          \/ (exists g i st ms items,
                c = Motion g i /\ label b = motion_label g i
                /\ settings_of m = Some st
                /\ Settings.motions st = Some ms
                /\ In (g, items) ms /\ i < List.length items)).
Proof.
  intros evs b s v Hb Hd. subst v s.
  destruct (reachable_all evs) as (I & J & V).
  unfold Live2DViewer in Hb. cbv zeta in Hb. cbn [snd] in Hb.
  apply in_app_iff in Hb.
  assert (Hidle : isLoading (session (run evs init)) = false).
  { destruct Hb as [Hb|Hb];
      [apply in_expression_buttons in Hb | apply in_motion_buttons in Hb];
      destruct Hb as (e & _ & ->); exact Hd. }
  destruct (live2dModelRef (run evs init)) as [m|] eqn:Hm.
  - destruct (j_attached _ (j_core _ J) m Hm) as (_ & _ & He & Hmo).
    destruct Hb as [Hb|Hb].
    + apply in_expression_buttons in Hb. destruct Hb as (e & Hin & ->).
      exists m, (Expression e). split; [reflexivity|]. split.
      * cbn [onClick expression_button]. unfold step, playExpression.
        rewrite Hm. reflexivity.
      * left. exists e. rewrite <- He. auto.
    + apply in_motion_buttons in Hb. destruct Hb as (e & Hin & ->).
      exists m, (Motion (group e) (index e)). split; [reflexivity|]. split.
      * cbn [onClick motion_button]. unfold step, playMotion.
        rewrite Hm. reflexivity.
      * right. rewrite Hmo in Hin.
        destruct (settings_of m) as [st|] eqn:Hst; [|destruct Hin].
        rewrite extractMotions_some in Hin.
        destruct (Settings.motions st) as [ms|] eqn:Hms; [|destruct Hin].
        apply in_spec_motion_entries in Hin.
        destruct Hin as (items & H1 & H2 & H3).
        exists (group e), (index e), st, ms, items.
        cbn [label motion_button]. auto 10.
  - destruct (v_idle _ V Hidle Hm) as (He & Hmo & _). exfalso.
    destruct Hb as [Hb|Hb];
      [apply in_expression_buttons in Hb | apply in_motion_buttons in Hb];
      destruct Hb as (e & Hin & _).
    + rewrite He in Hin. destruct Hin.
    + rewrite Hmo in Hin. destruct Hin.
Qed.

(** X12. The notice "This model has no expressions or motions." is shown
    exactly when the session is not loading and either nothing is attached
    and an error is reported, or the attached handle has neither expressions
    nor motions. *)
Theorem empty_notice_meaning :
  forall evs : list Event,
    let s := run evs init in
    empty_notice (snd (Live2DViewer s)) = true <->
    isLoading (session s) = false
    /\ ((live2dModelRef s = None /\ error (session s) <> None)
        \/ (exists m, live2dModelRef s = Some m
                      /\ extractExpressions (settings_of m) = []
                      /\ extractMotions (settings_of m) = [])).
Proof.
  intros evs s. subst s. destruct (reachable_all evs) as (I & J & V).
  unfold Live2DViewer, Live2DSidebar. cbv zeta. cbn [snd empty_notice].
  rewrite !andb_true_iff, negb_true_iff, !Nat.eqb_eq, !length_zero_iff_nil.
  split.
  - intros [[Hl He] Hmo]. split; [exact Hl|].
    destruct (live2dModelRef (run evs init)) as [m|] eqn:Hm.
    + right. exists m.
      destruct (j_attached _ (j_core _ J) m Hm) as (_ & _ & He' & Hmo').
      rewrite <- He', <- Hmo'. auto.
    + left. destruct (v_idle _ V Hl Hm) as (_ & _ & Herr). auto.
  - intros [Hl [[Hm Herr]|(m & Hm & He & Hmo)]].
    + destruct (v_idle _ V Hl Hm) as (He & Hmo & _). auto.
    + destruct (j_attached _ (j_core _ J) m Hm) as (_ & _ & He' & Hmo').
      rewrite He', Hmo'. auto.
Qed.

(** X13. The error banner.  In a state the hook reaches the banner shows
    the error cell as it is: an error is never reported while the session is
    loading, and its text is never empty.  When an error is reported nothing
    is attached, the stage is empty, the capability lists are empty, every
    run in flight is aborted, and the text names the selected model, or is
    "Failed to initialize rendering engine." when the surface never became
    ready. *)
Theorem error_banner_text :
  forall evs : list Event,
    let s := run evs init in
    error_banner (fst (Live2DViewer s)) = error (session s)
    /\ (forall msg, error (session s) = Some msg ->
          isLoading (session s) = false
          /\ live2dModelRef s = None /\ stage (app s) = []
          /\ expressions (session s) = [] /\ motions (session s) = []
          /\ (forall l, In l (loads s) -> aborted (signal l) s = true)
          /\ msg = if appReady (session s)
                   then load_error_message (selectedModel (session s))
                   else "Failed to initialize rendering engine.").
Proof.
  intros evs s. subst s. destruct (reachable_all evs) as (I & J & V).
  assert (H : forall msg, error (session (run evs init)) = Some msg ->
          isLoading (session (run evs init)) = false
          /\ live2dModelRef (run evs init) = None
          /\ stage (app (run evs init)) = []
          /\ expressions (session (run evs init)) = []
          /\ motions (session (run evs init)) = []
          /\ (forall l, In l (loads (run evs init)) ->
                        aborted (signal l) (run evs init) = true)
          /\ msg = if appReady (session (run evs init))
                   then load_error_message
                          (selectedModel (session (run evs init)))
                   else "Failed to initialize rendering engine.").
  { intros msg Hmsg.
    pose proof (j_error _ (j_core _ J) msg Hmsg) as Hl.
    assert (Hm : live2dModelRef (run evs init) = None).
    { destruct (live2dModelRef (run evs init)) as [m|] eqn:Hm;
        [|reflexivity].
      destruct (j_attached _ (j_core _ J) m Hm) as (_ & Hnone & _).
      congruence. }
    destruct (v_idle _ V Hl Hm) as (He & Hmo & _).
    pose proof (inv_stage _ I) as Hst. rewrite Hm in Hst.
    repeat split; try assumption.
    - intros l Hin.
      destruct (aborted (signal l) (run evs init)) eqn:Ha; [reflexivity|].
      destruct (j_loading _ J l Hin Ha) as [_ Hnone]. congruence.
    - exact (v_error _ V msg Hmsg). }
  split; [|exact H].
  unfold Live2DViewer, Live2DCanvas. cbv zeta. cbn [fst error_banner].
  destruct (error (session (run evs init))) as [msg|] eqn:Hmsg;
    [|reflexivity].
  destruct (H msg eq_refl) as (Hl & _ & _ & _ & _ & _ & Htxt).
  rewrite Hl. cbn [negb]. rewrite andb_true_r.
  assert (Ht : Boolean (Some msg) = true).
  { rewrite Htxt. destruct (appReady _);
      [apply load_error_message_truthy | reflexivity]. }
  rewrite Ht. reflexivity.
Qed.

(* ------------------------------------------------------------------ *)
(** ** The cached import *)

(** X14. A rejected import is final.  [getLive2DModule] caches the promise
    of the dynamic import whatever its outcome.  Once it is rejected it
    stays rejected; from then on nothing is attached, no run ever reaches
    [Live2DModel.from], and every run of [loadLive2DModel] that resumes with
    a signal that is not aborted ends in the [catch] block, reporting a
    failure to load the selected model. *)
Theorem rejected_import_is_final :
  forall evs1 evs2 : list Event,
    live2dModule (run evs1 init) = Some Rejected ->
    let s := run evs2 (run evs1 init) in
    live2dModule s = Some Rejected
    /\ live2dModelRef s = None /\ stage (app s) = []
    /\ (forall l, In l (loads s) -> phase l = AwaitModule)
    /\ (forall ev, delivered_by ev s = [])
    /\ (forall sig l,
          find_load sig s = Some l -> aborted sig s = false ->
          let s' := step (ModuleAwaited sig) s in
          error (session s')
          = Some (load_error_message (selectedModel (session s)))
          /\ isLoading (session s') = false
          /\ expressions (session s') = [] /\ motions (session s') = []
          /\ live2dModelRef s' = None).
Proof.
  intros evs1 evs2 Hrej s.
  assert (Hmod : live2dModule s = Some Rejected).
  { subst s. apply run_module_settled; [discriminate | exact Hrej]. }
  subst s. rewrite <- run_app in *.
  destruct (reachable_all (evs1 ++ evs2)) as (I & J & V).
  assert (Href : live2dModelRef (run (evs1 ++ evs2) init) = None).
  { destruct (live2dModelRef (run (evs1 ++ evs2) init)) as [m|] eqn:Hm;
      [|reflexivity].
    pose proof (v_module _ V m Hm). congruence. }
  assert (Hph : forall l, In l (loads (run (evs1 ++ evs2) init)) ->
                          phase l = AwaitModule).
  { intros l Hl. destruct (phase l) as [|p] eqn:Hp; [reflexivity|].
    pose proof (inv_model_phase _ I l p Hl Hp). congruence. }
  pose proof (inv_stage _ I) as Hst. rewrite Href in Hst.
  split; [exact Hmod|]. split; [exact Href|]. split; [exact Hst|].
  split; [exact Hph|]. split.
  - intros [r|W H|nm|ok|sig|sig [h|]|e|e rect|rect|n|g i|]; try reflexivity.
    cbn [delivered_by].
    destruct (find_load sig _) as [l|] eqn:Hf; [|reflexivity].
    destruct (find_load_In _ _ _ Hf) as [Hl _]. rewrite (Hph l Hl).
    reflexivity.
  - intros sig l Hf Ha. cbv zeta.
    destruct (find_load_In _ _ _ Hf) as [Hl Hsig]. subst sig.
    pose proof (j_selected _ J l Hl Ha) as Hsel.
    unfold step. rewrite Hf, (Hph l Hl).
    unfold loadLive2DModel_afterModule, loadLive2DModel_catch.
    rewrite Hmod.
    replace (aborted (signal l)
               (remove_load (signal l) (run (evs1 ++ evs2) init)))
      with (aborted (signal l) (run (evs1 ++ evs2) init)) by reflexivity.
    rewrite Ha. psimpl. rewrite Hsel. auto.
Qed.

(* ------------------------------------------------------------------ *)
(** ** Motion entries, their keys, and the catalogue *)

(** X15. The motion entries of a motions map are exactly the pairs of a
    group of the map and an index inside that group, labelled
    "{group} #{index+1}"; there are as many as items in all groups. *)
Theorem extractMotions_membership :
  forall (es : option (list Expr.t)) (ms : list (string * list unknown)),
    let entries := extractMotions (Some (Settings.mk es (Some ms))) in
    (forall e, In e entries <->
               exists items, In (group e, items) ms
                             /\ index e < List.length items
                             /\ name e = motion_label (group e) (index e))
    /\ List.length entries
       = list_sum (map (fun gi => List.length (snd gi)) ms).
Proof.
  intros es ms entries. subst entries. rewrite extractMotions_spec. split.
  - intros e. apply in_spec_motion_entries.
  - apply length_spec_motion_entries.
Qed.

(** X16. When the groups of a motions map have distinct names, as the keys
    of a JavaScript object do, the motion entries are pairwise distinct and
    the motion buttons of the sidebar have pairwise distinct React keys
    "{group}-{index}". *)
Theorem motion_keys_distinct :
  forall (es : option (list Expr.t)) (ms : list (string * list unknown))
         (sel : ModelName) (exprs : list string) (ld : bool),
    NoDup (map fst ms) ->
    let entries := extractMotions (Some (Settings.mk es (Some ms))) in
    NoDup entries
    /\ NoDup (map key
                (buttons (motion_section
                            (Live2DSidebar sel exprs entries ld)))).
Proof.
  intros es ms sel exprs ld Hnd entries. subst entries.
  rewrite extractMotions_spec, motion_buttons_keys.
  pose proof (NoDup_spec_motion_entries ms Hnd) as Hent.
  split; [exact Hent|]. apply NoDup_map_on; [|exact Hent].
  intros a b Ha Hb Hk. apply motion_key_inj in Hk. destruct Hk as [Hg Hi].
  apply in_spec_motion_entries in Ha. destruct Ha as (_ & _ & _ & Hna).
  apply in_spec_motion_entries in Hb. destruct Hb as (_ & _ & _ & Hnb).
  destruct a as [ga na ia], b as [gb nb ib]. simpl in *. congruence.
Qed.

(** X17. Every model name has its own path, the options of the model select
    are all the model names, each once, and they include the selected value
    and the model selected at start. *)
Theorem catalogue_is_consistent :
  (forall a b : ModelName, getModelPath a = getModelPath b -> a = b)
  /\ (forall (sel : ModelName) (exprs : list string)
             (mots : list MotionEntry) (ld : bool),
        let v := Live2DSidebar sel exprs mots ld in
        In (select_value v) (select_options v)
        /\ NoDup (map ModelName_string (select_options v))
        /\ forall n, select_onChange v n = SelectModel n)
  /\ In DEFAULT_MODEL MODEL_NAMES
  /\ selectedModel (session init) = DEFAULT_MODEL.
Proof.
  split; [|split; [|split]].
  - intros a b H. destruct a, b; try reflexivity; discriminate H.
  - intros sel exprs mots ld v. subst v. unfold Live2DSidebar.
    cbn [select_value select_options select_onChange].
    split; [apply MODEL_NAMES_all|]. split; [|reflexivity].
    unfold MODEL_NAMES. cbn [map ModelName_string].
    repeat constructor; simpl; intuition discriminate.
  - apply MODEL_NAMES_all.
  - reflexivity.
Qed.

End UseLive2D.

(* ------------------------------------------------------------------ *)
(** ** The properties at concrete runs

    The runs below use handles that report their size on screen
    ([display_width], [display_height]). *)

Lemma extractor_round_trip_witness :
  Forall carries_name sample_expressions
  /\ extractExpressions
       (Some (Settings.mk (Some sample_expressions) (Some sample_motions)))
     = ["smile"; "angry"; "sad"; "smile"]
  /\ extractMotions
       (Some (Settings.mk (Some sample_expressions) (Some sample_motions)))
     = [mkMotionEntry "Idle" "Idle #1" 0; mkMotionEntry "Idle" "Idle #2" 1;
        mkMotionEntry "TapBody" "TapBody #1" 0].
Proof.
  assert (H : Forall carries_name sample_expressions).
  { unfold sample_expressions.
    apply Forall_cons; [left; reflexivity|].
    apply Forall_cons; [right; reflexivity|].
    apply Forall_cons; [right; reflexivity|].
    apply Forall_cons; [left; reflexivity|]. apply Forall_nil. }
  split; [exact H|].
  destruct (extractor_round_trip sample_expressions sample_motions H)
    as [[_ _] [Hm _]].
  split; [reflexivity | exact Hm].
Defined.

Lemma extractor_absent_fields_witness :
  settings_of sample_handle = Some (Settings.mk None None)
  /\ extractExpressions (settings_of sample_handle) = []
  /\ extractMotions (settings_of sample_handle) = [].
Proof.
  split; [reflexivity|].
  apply (extractor_absent_fields sample_handle).
  intros st H. injection H as <-. split; reflexivity.
Defined.

Lemma superseded_load_is_invisible_witness :
  find_load 0 (run display_width display_height sample_superseded init)
  = Some sample_load
  /\ aborted 0 (run display_width display_height sample_superseded init)
     = true
  /\ session (step display_width display_height
                (ModelSettled 0 (Some sample_handle))
                (run display_width display_height sample_superseded init))
     = session (run display_width display_height sample_superseded init)
  /\ calls (step display_width display_height
              (ModelSettled 0 (Some sample_handle))
              (run display_width display_height sample_superseded init))
     = [(1, Destroy)].
Proof.
  assert (Hf : find_load 0
                 (run display_width display_height sample_superseded init)
               = Some sample_load) by (vm_compute; reflexivity).
  assert (Ha : aborted 0
                 (run display_width display_height sample_superseded init)
               = true) by (vm_compute; reflexivity).
  split; [exact Hf|]. split; [exact Ha|].
  destruct (superseded_load_is_invisible display_width display_height
              (run display_width display_height sample_superseded init)
              0 sample_load (getModelPath Haru) (Some sample_handle)
              Hf eq_refl Ha) as (Hs & _ & _ & _ & Hc).
  split; [exact Hs | exact Hc].
Defined.

Lemma load_scales_and_centers_witness :
  find_load 0 (run display_width display_height sample_boot init)
  = Some sample_load
  /\ aborted 0 (run display_width display_height sample_boot init) = false
  /\ exists m',
       live2dModelRef
         (step display_width display_height
            (ModelSettled 0 (Some sample_handle))
            (run display_width display_height sample_boot init)) = Some m'
       /\ scale m' = 0.6000000000000001%float
       /\ x m' = 280%float /\ y m' = 59.99999999999997%float.
Proof.
  assert (Hf : find_load 0 (run display_width display_height sample_boot init)
               = Some sample_load) by (vm_compute; reflexivity).
  assert (Ha : aborted 0 (run display_width display_height sample_boot init)
               = false) by (vm_compute; reflexivity).
  split; [exact Hf|]. split; [exact Ha|].
  destruct (load_scales_and_centers display_width display_height
              (run display_width display_height sample_boot init)
              0 sample_load (getModelPath Haru) sample_handle
              (fun m => eq_refl) (fun m => eq_refl) Hf eq_refl Ha)
    as (m' & Hr & _ & _ & _ & _ & _ & _ & _ & _ & Hex).
  exists m'. split; [exact Hr|].
  apply Hex; vm_compute; reflexivity.
Defined.

(** C3 as stated fails in the arithmetic of the code.  On the 800 x 600
    surface the 400 x 800 handle is attached with scale 0.6000000000000001,
    not 0.6, at (280, 59.99999999999997), not (280, 60): 0.75 * 0.8 is
    rounded up, and the rounded scale is what the position is computed
    from.  [loadModel] of the first version of the viewer, the claim's other
    source, places the same handle at (328, 155.99999999999997). *)
Lemma scale_example_is_rounded :
  live2dModelRef
    (step display_width display_height (ModelSettled 0 (Some sample_handle))
       (run display_width display_height sample_boot init))
  = Some (sample_attached display_width display_height)
  /\ scale (sample_attached display_width display_height)
     = 0.6000000000000001%float
  /\ scale (sample_attached display_width display_height) <> 0.6%float
  /\ x (sample_attached display_width display_height) = 280%float
  /\ y (sample_attached display_width display_height)
     = 59.99999999999997%float
  /\ y (sample_attached display_width display_height) <> 60%float
  /\ x (loadModel_scaleAndCenter display_width display_height
          (mkPixiApp 800 600 [] 0) sample_handle) = 328%float
  /\ y (loadModel_scaleAndCenter display_width display_height
          (mkPixiApp 800 600 [] 0) sample_handle)
     = 155.99999999999997%float.
Proof.
  repeat split; try (vm_compute; reflexivity);
    vm_compute; intros H; discriminate H.
Qed.

(** C4 as stated fails: with Haru selected and loaded, selecting Haru again
    leaves the state as it is; no run of the load protocol is started and the
    handle is the one that was attached. *)
Lemma reselect_does_not_reload :
  selectedModel
    (session (run display_width display_height sample_loaded init)) = Haru
  /\ live2dModelRef (run display_width display_height sample_loaded init)
     = Some (sample_attached display_width display_height)
  /\ step display_width display_height (SelectModel Haru)
       (run display_width display_height sample_loaded init)
     = run display_width display_height sample_loaded init
  /\ calls (step display_width display_height (SelectModel Haru)
              (run display_width display_height sample_loaded init)) = []
  /\ ~ load_started Haru
         (run display_width display_height sample_loaded init)
         (step display_width display_height (SelectModel Haru)
            (run display_width display_height sample_loaded init)).
Proof.
  repeat split; try (vm_compute; reflexivity).
  intros [H _]. vm_compute in H. discriminate H.
Qed.

Lemma select_reloads_on_change_witness :
  mounted (run display_width display_height sample_loaded init) = true
  /\ appReady (session (run display_width display_height sample_loaded init))
     = true
  /\ pixiAppRef (run display_width display_height sample_loaded init) = true
  /\ load_started Hiyori
       (run display_width display_height sample_loaded init)
       (step display_width display_height (SelectModel Hiyori)
          (run display_width display_height sample_loaded init))
  /\ stage (app (step display_width display_height (SelectModel Hiyori)
                   (run display_width display_height sample_loaded init)))
     = [].
Proof.
  assert (Hm : mounted (run display_width display_height sample_loaded init)
               = true) by (vm_compute; reflexivity).
  assert (Hr : appReady
                 (session (run display_width display_height sample_loaded
                             init)) = true) by (vm_compute; reflexivity).
  assert (Hp : pixiAppRef (run display_width display_height sample_loaded init)
               = true) by (vm_compute; reflexivity).
  split; [exact Hm|]. split; [exact Hr|]. split; [exact Hp|].
  destruct (select_reloads_on_change display_width display_height
              sample_loaded Hiyori Hm Hr Hp) as [_ H].
  destruct H as (_ & Hl & _ & Hs & _);
    [vm_compute; discriminate|].
  split; [exact Hl | exact Hs].
Defined.

Lemma failed_load_is_local_witness :
  (* [Live2DModel.from] rejects *)
  (find_load 0 (run display_width display_height sample_boot init)
   = Some sample_load
   /\ aborted 0 (run display_width display_height sample_boot init) = false
   /\ load_rejects 0 sample_load
        (run display_width display_height sample_boot init)
        (ModelSettled 0 None)
   /\ error (session (step display_width display_height (ModelSettled 0 None)
                        (run display_width display_height sample_boot init)))
      = Some (load_error_message Haru)
   /\ isLoading
        (session (step display_width display_height (ModelSettled 0 None)
                    (run display_width display_height sample_boot init)))
      = false)
  (* the import is rejected *)
  /\ (find_load 0
        (run display_width display_height sample_import_rejected init)
      = Some (mkLoad 0 Haru AwaitModule)
      /\ aborted 0
           (run display_width display_height sample_import_rejected init)
         = false
      /\ load_rejects 0 (mkLoad 0 Haru AwaitModule)
           (run display_width display_height sample_import_rejected init)
           (ModuleAwaited 0)
      /\ error
           (session
              (step display_width display_height (ModuleAwaited 0)
                 (run display_width display_height sample_import_rejected
                    init)))
         = Some (load_error_message Haru)
      /\ isLoading
           (session
              (step display_width display_height (ModuleAwaited 0)
                 (run display_width display_height sample_import_rejected
                    init)))
         = false).
Proof.
  assert (Hf : find_load 0 (run display_width display_height sample_boot init)
               = Some sample_load) by (vm_compute; reflexivity).
  assert (Ha : aborted 0 (run display_width display_height sample_boot init)
               = false) by (vm_compute; reflexivity).
  assert (Hr : load_rejects 0 sample_load
                 (run display_width display_height sample_boot init)
                 (ModelSettled 0 None)) by reflexivity.
  assert (Hf' : find_load 0
                  (run display_width display_height sample_import_rejected
                     init)
                = Some (mkLoad 0 Haru AwaitModule))
    by (vm_compute; reflexivity).
  assert (Ha' : aborted 0
                  (run display_width display_height sample_import_rejected
                     init) = false) by (vm_compute; reflexivity).
  assert (Hr' : load_rejects 0 (mkLoad 0 Haru AwaitModule)
                  (run display_width display_height sample_import_rejected
                     init)
                  (ModuleAwaited 0))
    by (split; [vm_compute; reflexivity | reflexivity]).
  split.
  - split; [exact Hf|]. split; [exact Ha|]. split; [exact Hr|].
    destruct (failed_load_is_local display_width display_height sample_boot
                0 sample_load (ModelSettled 0 None) Hf Ha Hr)
      as [(_ & _ & Her & _ & Hl & _ & _) _].
    split; [exact Her | exact Hl].
  - split; [exact Hf'|]. split; [exact Ha'|]. split; [exact Hr'|].
    destruct (failed_load_is_local display_width display_height
                sample_import_rejected 0 (mkLoad 0 Haru AwaitModule)
                (ModuleAwaited 0) Hf' Ha' Hr')
      as [(_ & _ & Her & _ & Hl & _ & _) _].
    split; [exact Her | exact Hl].
Defined.

(** C5 as stated fails when the failure is that of the dynamic import.  The
    surface is ready and the import is rejected; the first run, its signal
    not aborted, resumes and fails.  Hiyori is then selected: its run fails
    at the same cached promise before the model is requested, so a model
    that the loader would deliver is never asked for, and nothing is
    attached. *)
Lemma failed_import_is_not_local :
  (find_load 0 (run display_width display_height sample_import_rejected init)
   = Some (mkLoad 0 Haru AwaitModule)
   /\ aborted 0
        (run display_width display_height sample_import_rejected init)
      = false
   /\ live2dModule
        (run display_width display_height sample_import_rejected init)
      = Some Rejected)
  /\ session
       (run display_width display_height
          [ModuleAwaited 0; SelectModel Hiyori; ModuleAwaited 1;
           ModelSettled 1 (Some sample_handle)]
          (run display_width display_height sample_import_rejected init))
     = mkSession Hiyori true false (Some (load_error_message Hiyori)) [] []
  /\ live2dModelRef
       (run display_width display_height
          [ModuleAwaited 0; SelectModel Hiyori; ModuleAwaited 1;
           ModelSettled 1 (Some sample_handle)]
          (run display_width display_height sample_import_rejected init))
     = None
  /\ live2dModule
       (run display_width display_height
          [ModuleAwaited 0; SelectModel Hiyori; ModuleAwaited 1;
           ModelSettled 1 (Some sample_handle)]
          (run display_width display_height sample_import_rejected init))
     = Some Rejected.
Proof. repeat split; vm_compute; reflexivity. Qed.

(** C8 at the input where the code fails it.  Haru is attached.  A pointer
    move at (10, 20) requests a frame callback; Hiyori is selected, which
    detaches and destroys Haru's handle; a second move at (30, 40) arrives
    before the frame boundary, finds no handle and returns before
    [cancelAnimationFrame].  At the boundary the frame makes its one [focus]
    call with the coordinates of the first move, on the destroyed handle;
    the coordinates of the most recent move are not forwarded. *)
Theorem move_after_switch_keeps_callback :
  calls (run display_width display_height
           [MouseMove (mkMouseEvent 10 20); SelectModel Hiyori;
            MouseMove (mkMouseEvent 30 40);
            AnimationFrame (mkDOMRect 5 5)]
           (run display_width display_height sample_loaded init))
  = [(1, Destroy); (1, Focus (10 - 5)%float (20 - 5)%float)]
  /\ ~ In (Focus (30 - 5)%float (40 - 5)%float)
         (map snd
            (calls (run display_width display_height
                      [MouseMove (mkMouseEvent 10 20); SelectModel Hiyori;
                       MouseMove (mkMouseEvent 30 40);
                       AnimationFrame (mkDOMRect 5 5)]
                      (run display_width display_height sample_loaded
                         init)))).
Proof.
  split; [vm_compute; reflexivity|].
  vm_compute. intros [H|[H|[]]]; discriminate H.
Qed.

(** The two "scale and center" steps on the 800 x 600 surface with the
    400 x 800 model, were [width] and [height] fixed numbers: the hook would
    centre the unscaled size and the first version the scaled one. *)
Remark scaleAndCenter_sample :
  (x (scaleAndCenter fixed_width fixed_height (mkPixiApp 800 600 [] 0)
        sample_handle) = 200%float
   /\ y (scaleAndCenter fixed_width fixed_height (mkPixiApp 800 600 [] 0)
           sample_handle) = (-100)%float)
  /\ (x (loadModel_scaleAndCenter fixed_width fixed_height
           (mkPixiApp 800 600 [] 0) sample_handle) = 280%float
      /\ y (loadModel_scaleAndCenter fixed_width fixed_height
              (mkPixiApp 800 600 [] 0) sample_handle)
         = 59.99999999999997%float).
Proof. repeat split; vm_compute; reflexivity. Qed.

(* ------------------------------------------------------------------ *)
(** ** The further properties at concrete runs *)

Lemma latest_selection_wins_witness :
  In sample_load (loads (run display_width display_height sample_boot init))
  /\ aborted (signal sample_load)
       (run display_width display_height sample_boot init) = false
  /\ modelName sample_load
     = selectedModel
         (session (run display_width display_height sample_boot init))
  /\ loadCleanup (run display_width display_height sample_boot init)
     = Some (signal sample_load).
Proof.
  assert (Hl : In sample_load
                 (loads (run display_width display_height sample_boot init)))
    by (vm_compute; left; reflexivity).
  assert (Ha : aborted (signal sample_load)
                 (run display_width display_height sample_boot init) = false)
    by (vm_compute; reflexivity).
  split; [exact Hl|]. split; [exact Ha|].
  destruct (latest_selection_wins display_width display_height sample_boot
              sample_load Hl Ha) as (Hsel & _ & Hc & _).
  split; [exact Hsel | exact Hc].
Defined.

Lemma live_run_shows_loading_witness :
  In sample_load (loads (run display_width display_height sample_boot init))
  /\ aborted (signal sample_load)
       (run display_width display_height sample_boot init) = false
  /\ Live2DCanvas
       (isLoading
          (session (run display_width display_height sample_boot init)))
       (error (session (run display_width display_height sample_boot init)))
     = mkCanvasView true None
  /\ select_disabled
       (snd (Live2DViewer
               (run display_width display_height sample_boot init)))
     = true.
Proof.
  assert (Hl : In sample_load
                 (loads (run display_width display_height sample_boot init)))
    by (vm_compute; left; reflexivity).
  assert (Ha : aborted (signal sample_load)
                 (run display_width display_height sample_boot init) = false)
    by (vm_compute; reflexivity).
  split; [exact Hl|]. split; [exact Ha|].
  destruct (live_run_shows_loading display_width display_height sample_boot
              sample_load Hl Ha) as (_ & Hc & Hs & _).
  split; [exact Hc | exact Hs].
Defined.

Lemma attached_handle_is_described_witness :
  live2dModelRef (run display_width display_height sample_loaded init)
  = Some (sample_attached display_width display_height)
  /\ isLoading
       (session (run display_width display_height sample_loaded init))
     = false
  /\ stage (app (run display_width display_height sample_loaded init))
     = [sample_attached display_width display_height]
  /\ live2dModule (run display_width display_height sample_loaded init)
     = Some Fulfilled.
Proof.
  assert (Hm : live2dModelRef
                 (run display_width display_height sample_loaded init)
               = Some (sample_attached display_width display_height))
    by (vm_compute; reflexivity).
  split; [exact Hm|].
  destruct (attached_handle_is_described display_width display_height
              sample_loaded (sample_attached display_width display_height)
              Hm) as (Hl & _ & _ & _ & Hst & _ & Hmod & _).
  split; [exact Hl|]. split; [exact Hst | exact Hmod].
Defined.

Lemma creation_after_unmount_is_discarded_witness :
  mounted (run display_width display_height [Unmount] init) = false
  /\ appPending (run display_width display_height [Unmount] init) = true
  /\ pixiAppRef
       (step display_width display_height
          (AppCreated (Some (800%float, 600%float)))
          (run display_width display_height [Unmount] init)) = false
  /\ destroy_calls
       (app (step display_width display_height
               (AppCreated (Some (800%float, 600%float)))
               (run display_width display_height [Unmount] init))) = 1.
Proof.
  assert (Hm : mounted (run display_width display_height [Unmount] init)
               = false) by (vm_compute; reflexivity).
  assert (Hp : appPending (run display_width display_height [Unmount] init)
               = true) by (vm_compute; reflexivity).
  split; [exact Hm|]. split; [exact Hp|].
  destruct (creation_after_unmount_is_discarded display_width display_height
              [Unmount] (Some (800%float, 600%float)) Hm Hp)
    as (_ & _ & _ & _ & Hpix & _ & _ & Hd).
  split; [exact Hpix | exact Hd].
Defined.

Lemma creation_failure_is_final_witness :
  mounted (run display_width display_height [] init) = true
  /\ appPending (run display_width display_height [] init) = true
  /\ error
       (session
          (run display_width display_height
             [SelectModel Hiyori; AppCreated (Some (800%float, 600%float))]
             (step display_width display_height (AppCreated None)
                (run display_width display_height [] init))))
     = Some "Failed to initialize rendering engine."
  /\ loads
       (run display_width display_height
          [SelectModel Hiyori; AppCreated (Some (800%float, 600%float))]
          (step display_width display_height (AppCreated None)
             (run display_width display_height [] init))) = [].
Proof.
  assert (Hm : mounted (run display_width display_height [] init) = true)
    by (vm_compute; reflexivity).
  assert (Hp : appPending (run display_width display_height [] init) = true)
    by (vm_compute; reflexivity).
  split; [exact Hm|]. split; [exact Hp|].
  destruct (creation_failure_is_final display_width display_height []
              [SelectModel Hiyori; AppCreated (Some (800%float, 600%float))] Hm Hp)
    as (He & _ & _ & Hl & _).
  split; [exact He | exact Hl].
Defined.

Lemma only_focus_after_destroy_witness :
  NoDup (delivered display_width display_height sample_switch init)
  /\ NoDup (destroyed (run display_width display_height sample_switch init))
  /\ ~ In (hid sample_capable)
         (destroyed (run display_width display_height sample_switch init)).
Proof.
  assert (Hnd : NoDup (delivered display_width display_height sample_switch
                         init)).
  { vm_compute. constructor; [|constructor; [|constructor]].
    - intros [H|[]]. discriminate H.
    - intros []. }
  split; [exact Hnd|].
  destruct (only_focus_after_destroy display_width display_height
              sample_switch Hnd) as (Hd & Ha & _).
  split; [exact Hd|].
  exact (Ha (scaleAndCenter display_width display_height
               (mkPixiApp 800 600 [] 0) sample_capable) eq_refl).
Defined.

Lemma nothing_changes_after_unmount_witness :
  mounted (run display_width display_height sample_unmounted init) = false
  /\ session
       (run display_width display_height
          [MouseMove (mkMouseEvent 10 20); AnimationFrame (mkDOMRect 5 5);
           SelectModel Hiyori]
          (run display_width display_height sample_unmounted init))
     = session (run display_width display_height sample_unmounted init)
  /\ live2dModelRef
       (run display_width display_height
          [MouseMove (mkMouseEvent 10 20); AnimationFrame (mkDOMRect 5 5);
           SelectModel Hiyori]
          (run display_width display_height sample_unmounted init))
     = live2dModelRef
         (run display_width display_height sample_unmounted init).
Proof.
  assert (Hm : mounted (run display_width display_height sample_unmounted
                          init) = false) by (vm_compute; reflexivity).
  split; [exact Hm|].
  destruct (nothing_changes_after_unmount display_width display_height
              sample_unmounted
              [MouseMove (mkMouseEvent 10 20); AnimationFrame (mkDOMRect 5 5);
               SelectModel Hiyori] Hm) as (Hs & Hr & _).
  split; [exact Hs | exact Hr].
Defined.

Lemma enabled_button_plays_attached_model_witness :
  In (expression_button false "smile")
    (buttons
       (expression_section
          (snd (Live2DViewer
                  (run display_width display_height sample_capable_loaded
                     init))))
     ++ buttons
          (motion_section
             (snd (Live2DViewer
                     (run display_width display_height sample_capable_loaded
                        init)))))
  /\ exists m c,
       live2dModelRef
         (run display_width display_height sample_capable_loaded init)
       = Some m
       /\ calls
            (step display_width display_height
               (onClick (expression_button false "smile"))
               (run display_width display_height sample_capable_loaded init))
          = (calls
               (run display_width display_height sample_capable_loaded init)
             ++ [(hid m, c)])%list.
Proof.
  assert (Hb : In (expression_button false "smile")
    (buttons
       (expression_section
          (snd (Live2DViewer
                  (run display_width display_height sample_capable_loaded
                     init))))
     ++ buttons
          (motion_section
             (snd (Live2DViewer
                     (run display_width display_height sample_capable_loaded
                        init)))))) by (vm_compute; left; reflexivity).
  split; [exact Hb|].
  destruct (enabled_button_plays_attached_model display_width display_height
              sample_capable_loaded (expression_button false "smile")
              Hb eq_refl) as (m & c & Hm & Hc & _).
  exists m, c. split; [exact Hm | exact Hc].
Defined.

Lemma rejected_import_is_final_witness :
  live2dModule (run display_width display_height sample_import_rejected init)
  = Some Rejected
  /\ live2dModule
       (run display_width display_height
          [ModuleAwaited 0; SelectModel Hiyori]
          (run display_width display_height sample_import_rejected init))
     = Some Rejected
  /\ live2dModelRef
       (run display_width display_height
          [ModuleAwaited 0; SelectModel Hiyori]
          (run display_width display_height sample_import_rejected init))
     = None.
Proof.
  assert (Hr : live2dModule
                 (run display_width display_height sample_import_rejected
                    init) = Some Rejected) by (vm_compute; reflexivity).
  split; [exact Hr|].
  destruct (rejected_import_is_final display_width display_height
              sample_import_rejected [ModuleAwaited 0; SelectModel Hiyori]
              Hr) as (Hmod & Href & _).
  split; [exact Hmod | exact Href].
Defined.

Lemma motion_keys_distinct_witness :
  NoDup (map fst sample_motions)
  /\ NoDup
       (map key
          (buttons
             (motion_section
                (Live2DSidebar Haru []
                   (extractMotions
                      (Some (Settings.mk None (Some sample_motions))))
                   false)))).
Proof.
  assert (Hnd : NoDup (map fst sample_motions)).
  { vm_compute. constructor; [|constructor; [|constructor]].
    - intros [H|[]]. discriminate H.
    - intros []. }
  split; [exact Hnd|].
  destruct (motion_keys_distinct None sample_motions Haru [] false Hnd)
    as [_ Hk].
  exact Hk.
Defined.

Lemma last_move_wins_witness :
  listening (run display_width display_height sample_loaded init) = true
  /\ live2dModelRef (run display_width display_height sample_loaded init)
     = Some (sample_attached display_width display_height)
  /\ calls
       (step display_width display_height (AnimationFrame (mkDOMRect 5 5))
          (run display_width display_height
             ([MouseMove (mkMouseEvent 10 20);
               Click (mkMouseEvent 12 22) (mkDOMRect 5 5);
               PlayExpression "smile"]
              ++ MouseMove (mkMouseEvent 30 40)
                 :: [Click (mkMouseEvent 31 41) (mkDOMRect 5 5)])
             (run display_width display_height sample_loaded init)))
     = (calls
          (run display_width display_height
             ([MouseMove (mkMouseEvent 10 20);
               Click (mkMouseEvent 12 22) (mkDOMRect 5 5);
               PlayExpression "smile"]
              ++ MouseMove (mkMouseEvent 30 40)
                 :: [Click (mkMouseEvent 31 41) (mkDOMRect 5 5)])
             (run display_width display_height sample_loaded init))
        ++ [(hid (sample_attached display_width display_height),
             Focus (clientX (mkMouseEvent 30 40) - left (mkDOMRect 5 5))%float
                   (clientY (mkMouseEvent 30 40) - top (mkDOMRect 5 5))
                   %float)])%list.
Proof.
  assert (Hl : listening (run display_width display_height sample_loaded init)
               = true) by (vm_compute; reflexivity).
  assert (Hm : live2dModelRef
                 (run display_width display_height sample_loaded init)
               = Some (sample_attached display_width display_height))
    by (vm_compute; reflexivity).
  split; [exact Hl|]. split; [exact Hm|].
  destruct (last_move_wins display_width display_height sample_loaded
              [MouseMove (mkMouseEvent 10 20);
               Click (mkMouseEvent 12 22) (mkDOMRect 5 5);
               PlayExpression "smile"]
              [Click (mkMouseEvent 31 41) (mkDOMRect 5 5)]
              (mkMouseEvent 30 40) (mkDOMRect 5 5)
              (sample_attached display_width display_height)
              Hl Hm eq_refl eq_refl) as (_ & Hc & _).
  exact Hc.
Defined.
